(** * image_tiles: a shallow embedding of the pixel pipeline and path handling

    The development follows the Python sources file by file:
    - [Np], [Elem]    the part of NumPy's array semantics the sources rely on:
                      shape, dtype and C-order data, the indexing operations,
                      and the elementwise arithmetic with its dtype promotion;
    - [Binary64]      IEEE 754 binary64, the arithmetic the sources run on;
    - [Rounded]       exact rational arithmetic followed by a rounding;
    - [Normalization] [normalization.py];
    - [Image]         [_render_image_data] of [image.py];
    - [Str]           the string operations of Python the sources call;
    - [Glob]          [glob.py];
    - [FileExists]    [file_exists.py];
    - [Server]        the path handling of [image_tiles_server.py];
    - [App]           [read_image] of [image.py], and the listing, the index
                      page and the folder argument of [image_tiles_server.py].

    Definitions come first; the lemmas and theorems follow them. *)

From Stdlib Require Import String Ascii.
From Stdlib Require Import List ZArith Lia Bool Arith Permutation.
From Stdlib Require Import QArith Qcanon Qround.
From Stdlib Require Import Floats.SpecFloat.
Import ListNotations.

Set Implicit Arguments.
Close Scope Q_scope.
Open Scope nat_scope.

(* ===================================================================== *)
(** ** Exceptions and results *)
(* ===================================================================== *)

(** The Python exceptions the modelled functions can raise, each with the
    place that raises it. *)
Inductive exn : Type :=
| UnpackError          (* ValueError: a tuple unpacking with the wrong number of values *)
| EinsumError          (* ValueError: [np.einsum] on an operand whose rank is not 4 *)
| EmptyReduction       (* ValueError: max/min of a zero-size array *)
| AxisError            (* AxisError: reduction axis out of bounds *)
| BroadcastError       (* ValueError: operands could not be broadcast together *)
| IndexError           (* IndexError: [shape[2]] on a rank below 3 *)
| AssertionError       (* [assert image.shape[2] == 3] *)
| RenderMethodError    (* ValueError: not a valid type of image rendering *)
| RenderShapeError     (* ValueError: image dimensionality for render is wrong *)
| NotImplementedError  (* [raise NotImplementedError] *)
| TypeError            (* TypeError: numpy boolean subtract is not supported *)
| ClientError          (* botocore's ClientError, raised by the S3 client *)
| OSError              (* OSError, raised by [open] on a missing object *)
| OutOfModel.          (* inputs the sources give no meaning to; not modelled *)

Inductive result (A : Type) : Type :=
| Ok (a : A)
| Raise (e : exn).

Arguments Ok {A} a.
Arguments Raise {A} e.

Definition bind {A B : Type} (r : result A) (k : A -> result B) : result B :=
  match r with
  | Ok a => k a
  | Raise e => Raise e
  end.

Declare Scope result_scope.
Delimit Scope result_scope with result.
Notation "x <- r ;; k" := (bind r (fun x => k))
  (at level 61, r at next level, right associativity) : result_scope.
Open Scope result_scope.

(* ===================================================================== *)
(** ** Floating-point arithmetic as the sources use it *)
(* ===================================================================== *)

(** The operations of a floating-point format that the sources call
    (through NumPy).  [of_Z] is the int-to-float64 conversion, [to_Z] the
    truncation of a C cast, [fround] the rounding to a narrower float
    dtype's precision. *)
Class FloatOps (F : Type) : Type := {
  of_Z : Z -> F;
  fadd : F -> F -> F;
  fsub : F -> F -> F;
  fmul : F -> F -> F;
  fdiv : F -> F -> F;
  fltb : F -> F -> bool;
  fleb : F -> F -> bool;
  fisnan : F -> bool;
  to_Z : F -> Z;
  fround32 : F -> F;
  fround16 : F -> F
}.

(** A Python float literal [n/d] with [n] and [d] exactly representable:
    the correctly rounded quotient. *)
Definition of_ratio {F} `{FloatOps F} (n d : Z) : F := fdiv (of_Z n) (of_Z d).

(* ===================================================================== *)
(** ** NumPy arrays *)
(* ===================================================================== *)

Module Np.

Inductive DType : Type :=
| bool_ | int8 | int16 | int32 | int64
| uint8 | uint16 | uint32 | uint64
| float16 | float32 | float64.

Definition DType_eqb (a b : DType) : bool :=
  match a, b with
  | bool_, bool_ | int8, int8 | int16, int16 | int32, int32 | int64, int64
  | uint8, uint8 | uint16, uint16 | uint32, uint32 | uint64, uint64
  | float16, float16 | float32, float32 | float64, float64 => true
  | _, _ => false
  end.

Definition is_float (d : DType) : bool :=
  match d with
  | float16 | float32 | float64 => true
  | _ => false
  end.

(** The dtype of [python_float * array] and of [array / python_float]:
    a float array keeps its dtype, every other array becomes float64. *)
Definition result_type_pyfloat (d : DType) : DType :=
  if is_float d then d else float64.

(** An n-dimensional array: its shape, its dtype and its elements in C
    (row-major) order. *)
Record ndarray (A : Type) : Type := mk_ndarray {
  shape : list nat;
  dtype : DType;
  data : list A
}.

Arguments mk_ndarray {A} shape dtype data.

Definition size (s : list nat) : nat := fold_right Nat.mul 1 s.

Definition wf {A} (a : ndarray A) : Prop := length (data a) = size (shape a).

(** All multi-indices of a shape, in C order. *)
Fixpoint indices (s : list nat) : list (list nat) :=
  match s with
  | [] => [[]]
  | n :: s' => flat_map (fun i => map (cons i) (indices s')) (seq 0 n)
  end.

(** The position of a multi-index in the C-order data. *)
Fixpoint offset (s idx : list nat) : nat :=
  match s, idx with
  | _ :: s', i :: idx' => i * size s' + offset s' idx'
  | _, _ => 0
  end.

Fixpoint in_bounds (idx s : list nat) : bool :=
  match idx, s with
  | [], [] => true
  | i :: idx', n :: s' => (i <? n) && in_bounds idx' s'
  | _, _ => false
  end.

(** [a[idx]] for an index within the shape. *)
Definition at_ {A} (d : A) (a : ndarray A) (idx : list nat) : A :=
  nth (offset (shape a) idx) (data a) d.

(** The array of shape [s] whose element at [idx] is [f idx]. *)
Definition tabulate {A} (s : list nat) (dt : DType) (f : list nat -> A) : ndarray A :=
  mk_ndarray s dt (map f (indices s)).

Definition map_data {A B} (f : A -> B) (dt : DType) (a : ndarray A) : ndarray B :=
  mk_ndarray (shape a) dt (map f (data a)).

(** [np.expand_dims(a, 0)] and [np.expand_dims(a, -1)]: the data is untouched. *)
Definition expand_dims_first {A} (a : ndarray A) : ndarray A :=
  mk_ndarray (1 :: shape a) (dtype a) (data a).

Definition expand_dims_last {A} (a : ndarray A) : ndarray A :=
  mk_ndarray (shape a ++ [1]) (dtype a) (data a).

(** [np.squeeze(a)] with no axis: every axis of length one is removed. *)
Definition squeeze {A} (a : ndarray A) : ndarray A :=
  mk_ndarray (filter (fun n => negb (n =? 1)) (shape a)) (dtype a) (data a).

(** [np.einsum("bcwh->bwhc", a)]: [out[b,w,h,c] = a[b,c,w,h]]. *)
Definition einsum_bcwh_bwhc {A} (d : A) (a : ndarray A) : result (ndarray A) :=
  match shape a with
  | [b; c; w; h] =>
      Ok (tabulate [b; w; h; c] (dtype a)
            (fun idx => match idx with
                        | [ib; iw; ih; ic] => at_ d a [ib; ic; iw; ih]
                        | _ => d
                        end))
  | _ => Raise EinsumError
  end.

(** [np.einsum("bwhc->bcwh", a)]: [out[b,c,w,h] = a[b,w,h,c]]. *)
Definition einsum_bwhc_bcwh {A} (d : A) (a : ndarray A) : result (ndarray A) :=
  match shape a with
  | [b; w; h; c] =>
      Ok (tabulate [b; c; w; h] (dtype a)
            (fun idx => match idx with
                        | [ib; ic; iw; ih] => at_ d a [ib; iw; ih; ic]
                        | _ => d
                        end))
  | _ => Raise EinsumError
  end.

(** Replace the entry of an index (or a shape) at axis [k]. *)
Fixpoint set_axis (k : nat) (v : nat) (idx : list nat) : list nat :=
  match k, idx with
  | 0, _ :: idx' => v :: idx'
  | S k', i :: idx' => i :: set_axis k' v idx'
  | _, [] => []
  end.

(** Remove and insert an axis. *)
Fixpoint drop_axis (k : nat) (idx : list nat) : list nat :=
  match k, idx with
  | 0, _ :: idx' => idx'
  | S k', i :: idx' => i :: drop_axis k' idx'
  | _, [] => []
  end.

Fixpoint insert_axis (k : nat) (v : nat) (idx : list nat) : list nat :=
  match k, idx with
  | 0, _ => v :: idx
  | S k', i :: idx' => i :: insert_axis k' v idx'
  | S _, [] => [v]
  end.

(** [a[:, :, lo:hi]] on an array of rank 3 or more: the slice of axis 2,
    clamped to the axis as Python clamps slice bounds. *)
Definition slice_axis2 {A} (d : A) (lo hi : nat) (a : ndarray A) : ndarray A :=
  let n := nth 2 (shape a) 0 in
  let lo' := Nat.min lo n in
  let hi' := Nat.max lo' (Nat.min hi n) in
  tabulate (set_axis 2 (hi' - lo') (shape a)) (dtype a)
    (fun idx => at_ d a (set_axis 2 (nth 2 idx 0 + lo') idx)).

(** [a[:, :, ::-1]]: axis 2 reversed. *)
Definition reverse_axis2 {A} (d : A) (a : ndarray A) : ndarray A :=
  let n := nth 2 (shape a) 0 in
  tabulate (shape a) (dtype a)
    (fun idx => at_ d a (set_axis 2 (n - 1 - nth 2 idx 0) idx)).

(** [a[:, :, j]] for [j] within axis 2: the axis is indexed and dropped. *)
Definition index_axis2 {A} (d : A) (j : nat) (a : ndarray A) : ndarray A :=
  tabulate (drop_axis 2 (shape a)) (dtype a)
    (fun idx => at_ d a (insert_axis 2 j idx)).

End Np.

(* ===================================================================== *)
(** ** Array elements and the elementwise operations of the sources *)
(* ===================================================================== *)

Module Elem.
Import Np.

Section Scalars.
Context {F : Type} {FO : FloatOps F}.

(** An array element: an integer of an integer dtype or a float. *)
Inductive scalar : Type :=
| SInt (z : Z)
| SFloat (f : F).

(** The value as a float64 ([astype(float)], or the operand conversion of a
    float operation). *)
Definition to_float (x : scalar) : F :=
  match x with
  | SInt z => of_Z z
  | SFloat f => f
  end.

(** Rounding of a float64 result to the precision of a float dtype. *)
Definition fround (dt : DType) (f : F) : F :=
  match dt with
  | float32 => fround32 f
  | float16 => fround16 f
  | _ => f
  end.

(** Wrap-around of an integer result in an integer dtype. *)
Definition wrap (dt : DType) (z : Z) : Z :=
  let unsigned (w : Z) := (z mod 2 ^ w)%Z in
  let signed (w : Z) := ((z + 2 ^ (w - 1)) mod 2 ^ w - 2 ^ (w - 1))%Z in
  match dt with
  | uint8 => unsigned 8%Z | uint16 => unsigned 16%Z
  | uint32 => unsigned 32%Z | uint64 => unsigned 64%Z
  | int8 => signed 8%Z | int16 => signed 16%Z
  | int32 => signed 32%Z | int64 => signed 64%Z
  | _ => z
  end.

(** [x.astype(np.uint8)] on one element: an integer wraps; a float goes
    through the C cast, which truncates toward zero.  The conversion is the
    one to int32 followed by the low byte: a truncation within the range of
    int32 is reduced modulo 256, and every other value (NaN and the
    infinities included) gives 0. *)
Definition astype_uint8 (x : scalar) : scalar :=
  match x with
  | SInt z => SInt (z mod 256)
  | SFloat f =>
      let t := to_Z f in
      if ((- 2 ^ 31 <=? t) && (t <? 2 ^ 31))%Z then SInt (t mod 256) else SInt 0
  end.

(** [np.maximum] on floats: a NaN operand wins. *)
Definition fmaximum (a b : F) : F :=
  if fisnan a then a else if fisnan b then b else if fltb a b then b else a.

(** The steps of [np.nanmin] and [np.nanmax]: a NaN operand loses. *)
Definition fnanmin (a b : F) : F :=
  if fisnan a then b else if fisnan b then a else if fltb b a then b else a.

Definition fnanmax (a b : F) : F :=
  if fisnan a then b else if fisnan b then a else if fltb a b then b else a.

(** [np.max] of all elements of a float array. *)
Definition np_max (l : list F) : result F :=
  match l with
  | [] => Raise EmptyReduction
  | x :: l' => Ok (fold_left fmaximum l' x)
  end.

Definition s_nanmin (x y : scalar) : scalar :=
  match x, y with
  | SInt a, SInt b => SInt (Z.min a b)
  | _, _ => SFloat (fnanmin (to_float x) (to_float y))
  end.

Definition s_nanmax (x y : scalar) : scalar :=
  match x, y with
  | SInt a, SInt b => SInt (Z.max a b)
  | _, _ => SFloat (fnanmax (to_float x) (to_float y))
  end.

Definition np_nanmin (l : list scalar) : result scalar :=
  match l with
  | [] => Raise EmptyReduction
  | x :: l' => Ok (fold_left s_nanmin l' x)
  end.

Definition np_nanmax (l : list scalar) : result scalar :=
  match l with
  | [] => Raise EmptyReduction
  | x :: l' => Ok (fold_left s_nanmax l' x)
  end.

(** [x - y] within dtype [dt]. *)
Definition s_sub (dt : DType) (x y : scalar) : scalar :=
  match x, y with
  | SInt a, SInt b => SInt (wrap dt (a - b))
  | _, _ => SFloat (fround dt (fsub (to_float x) (to_float y)))
  end.

(** [np.maximum(x, 1)]. *)
Definition s_maximum_1 (x : scalar) : scalar :=
  match x with
  | SInt a => SInt (Z.max a 1)
  | SFloat f => SFloat (fmaximum f (of_Z 1))
  end.

(** [x / y] (true division): float64 for integers, the array's own float
    dtype otherwise. *)
Definition s_truediv (dt : DType) (x y : scalar) : F :=
  match x, y with
  | SInt a, SInt b => fdiv (of_Z a) (of_Z b)
  | _, _ => fround dt (fdiv (to_float x) (to_float y))
  end.

(** [x > n] for a Python int [n]. *)
Definition s_gtb (dt : DType) (x : scalar) (n : Z) : bool :=
  match x with
  | SInt z => (n <? z)%Z
  | SFloat f => fltb (fround dt (of_Z n)) f
  end.

End Scalars.

Arguments scalar F : clear implicits.

End Elem.

(* ===================================================================== *)
(** ** IEEE 754 binary64, the runtime's float *)
(* ===================================================================== *)

Module Binary64.

Definition prec : Z := 53.
Definition emax : Z := 1024.

Definition b64_of_Z (z : Z) : spec_float := binary_normalize prec emax z 0 false.

Definition b64_isnan (f : spec_float) : bool :=
  match f with
  | S754_nan => true
  | _ => false
  end.

(** Truncation toward zero; zero for NaN and the infinities. *)
Definition b64_to_Z (f : spec_float) : Z :=
  match f with
  | S754_finite s m e =>
      let v := if (0 <=? e)%Z then (Z.pos m * 2 ^ e)%Z else (Z.pos m / 2 ^ (- e))%Z in
      if s then (- v)%Z else v
  | _ => 0%Z
  end.

Definition round_to (p e : Z) (f : spec_float) : spec_float :=
  match f with
  | S754_finite s m ex => binary_round p e s m ex
  | _ => f
  end.

#[export] Instance ops : FloatOps spec_float := {
  of_Z := b64_of_Z;
  fadd := SFadd prec emax;
  fsub := SFsub prec emax;
  fmul := SFmul prec emax;
  fdiv := SFdiv prec emax;
  fltb := SFltb;
  fleb := SFleb;
  fisnan := b64_isnan;
  to_Z := b64_to_Z;
  fround32 := round_to 24 128;
  fround16 := round_to 11 16
}.

End Binary64.

(* ===================================================================== *)
(** ** Correctly rounded arithmetic over the rationals *)
(* ===================================================================== *)

(** Finite floating-point arithmetic seen as exact arithmetic followed by a
    rounding [rnd]: every operation returns [rnd] of the exact result
    ([rnd32] and [rnd16] round to the narrower formats).  NaN and the
    infinities are left out. *)
Module Rounded.

Definition Qc_trunc (q : Qc) : Z :=
  if Qle_bool 0 q then Qfloor q else Qceiling q.

Definition Qc_ltb (a b : Qc) : bool := negb (Qle_bool b a).

Definition ops (rnd rnd32 rnd16 : Qc -> Qc) : FloatOps Qc := {|
  of_Z := fun z => rnd (Q2Qc (inject_Z z));
  fadd := fun a b => rnd (a + b)%Qc;
  fsub := fun a b => rnd (a - b)%Qc;
  fmul := fun a b => rnd (a * b)%Qc;
  fdiv := fun a b => rnd (a / b)%Qc;
  fltb := Qc_ltb;
  fleb := fun a b => Qle_bool a b;
  fisnan := fun _ => false;
  to_Z := Qc_trunc;
  fround32 := rnd32;
  fround16 := rnd16
|}.

End Rounded.

(* ===================================================================== *)
(** ** normalization.py *)
(* ===================================================================== *)

Module Normalization.
Import Np Elem.

(** The string arguments of [_format_array]; [None] is Python's [None]. *)
Inductive batch_operation : Type := expand | squeeze_.
Inductive channel_operation : Type := to_first | to_last.

(** The [channels] argument, [Literal["last", "first"]]. *)
Inductive channel_format : Type := last | first.

Section Format.
Context {A : Type} (d : A).

Definition _format_array (image : ndarray A)
    (batch_op : option batch_operation)
    (channel_op : option channel_operation) : result (ndarray A) :=
  let image :=
    match batch_op with
    | Some expand => expand_dims_first image
    | _ => image
    end in
  image <- match channel_op with
           | Some to_first => einsum_bwhc_bcwh d image
           | Some to_last => einsum_bcwh_bwhc d image
           | None => Ok image
           end ;;
  Ok match batch_op with
     | Some squeeze_ => squeeze image
     | _ => image
     end.

Definition _get_format_fx (image : ndarray A) (image_channel_format : channel_format)
  : (ndarray A -> result (ndarray A)) * (ndarray A -> result (ndarray A)) :=
  let add_batch := length (shape image) =? 3 in
  let convert_ordering :=
    match image_channel_format with first => true | last => false end in
  let apply_batch := if add_batch then Some expand else None in
  let apply_ordering := if convert_ordering then Some to_last else None in
  let apply_fx := fun im => _format_array im apply_batch apply_ordering in
  let revert_batch := if add_batch then Some squeeze_ else None in
  let revert_ordering := if convert_ordering then Some to_first else None in
  let revert_fx := fun im => _format_array im revert_batch revert_ordering in
  (apply_fx, revert_fx).

End Format.

Section Algorithms.
Context {F : Type} {FO : FloatOps F}.

Definition image_t : Type := ndarray (scalar F).

Definition zero : scalar F := SInt 0.

(** [image[image <= 0] = 0] on one element. *)
Definition clip_nonpositive (x : F) : F :=
  if fleb x (of_Z 0) then of_Z 0 else x.

Definition scaling_normalization (image : image_t) : result image_t :=
  (* image = image.astype(float) *)
  let floats := map (@to_float F FO) (data image) in
  (* image[image <= 0] = 0 *)
  let clipped := map clip_nonpositive floats in
  (* image /= np.max(image) *)
  m <- np_max clipped ;;
  let unit_scaled := map (fun x => fdiv x m) clipped in
  (* image *= 255 *)
  let scaled := map (fun x => fmul x (of_Z 255)) unit_scaled in
  (* return image.astype(np.uint8) *)
  Ok (mk_ndarray (shape image) uint8 (map (fun x => astype_uint8 (SFloat x)) scaled)).

Definition standard_normalization (image : image_t) : result image_t :=
  match shape image with
  | [_; _; c] =>
      if existsb (Nat.eqb c) [1; 3; 4] then
        if existsb (DType_eqb (dtype image)) [float32; uint8] then Ok image
        else scaling_normalization image
      else scaling_normalization image
  | _ => Raise UnpackError
  end.

(** [l] cut into [n] consecutive pieces of length [k]. *)
Fixpoint chunks {B} (n k : nat) (l : list B) : list (list B) :=
  match n with
  | 0 => []
  | S n' => firstn k l :: chunks n' k (skipn k l)
  end.

Fixpoint mapM {B C} (f : B -> result C) (l : list B) : result (list C) :=
  match l with
  | [] => Ok []
  | x :: l' => y <- f x ;; ys <- mapM f l' ;; Ok (y :: ys)
  end.

(** The body of [sigmoid_normalization] on one batch element of the
    canonical array: the global min and max of the element, the
    normalisation by the floored range, the sigmoid and the scaling. *)
Definition sigmoid_slice (np_exp : F -> F) (c th : F) (dt : DType)
    (px : list (scalar F)) : result (list (scalar F)) :=
  min_val <- np_nanmin px ;;
  max_val <- np_nanmax px ;;
  if DType_eqb dt bool_ then Raise TypeError else
  let range_val := s_maximum_1 (s_sub dt max_val min_val) in
  let rdt := result_type_pyfloat dt in
  let r := fround rdt in
  (* the Python floats [c] and [th] take the dtype of the array operand *)
  let c := r c in
  let th := r th in
  Ok (map (fun x =>
             let norm := s_truediv dt (s_sub dt x min_val) range_val in
             let norm := r (fdiv (of_Z 1)
                              (r (fadd (of_Z 1)
                                   (r (np_exp (r (fmul c (r (fsub th norm))))))))) in
             SFloat (r (fmul norm (of_Z 255))))
          px).

Definition sigmoid_normalization (np_exp : F -> F) (image : image_t)
    (c th : F) (channels : channel_format) : result image_t :=
  let '(apply_fx, revert_fx) := _get_format_fx zero image channels in
  image <- apply_fx image ;;
  match shape image with
  | [b; w; h; ch] =>
      slices <- mapM (sigmoid_slice np_exp c th (dtype image))
                  (chunks b (w * h * ch) (data image)) ;;
      let normalized :=
        mk_ndarray (shape image) (result_type_pyfloat (dtype image)) (concat slices) in
      reverted <- revert_fx normalized ;;
      Ok (map_data astype_uint8 uint8 reverted)
  | _ => Raise (if length (shape image) <? 4 then AxisError else OutOfModel)
  end.

Definition sentinel_truecolor_image (image : image_t) (normalizer : Z)
  : result image_t :=
  match nth_error (shape image) 2 with
  | None => Raise IndexError
  | Some c =>
      if negb (c =? 3) then Raise AssertionError else
      let dt := dtype image in
      (* saturated_idx_flat = (normalized_image > normalizer).max(axis=2) *)
      let saturated_idx_flat :=
        tabulate (drop_axis 2 (shape image)) bool_
          (fun idx =>
             existsb (fun j => s_gtb dt (at_ zero image (insert_axis 2 j idx)) normalizer)
               (seq 0 c)) in
      (* saturated_idx = np.repeat(np.expand_dims(saturated_idx_flat, 2), 3, axis=2) *)
      let saturated_idx :=
        tabulate (set_axis 2 3 (shape image)) bool_
          (fun idx => at_ false saturated_idx_flat (drop_axis 2 idx)) in
      let rdt := result_type_pyfloat dt in
      (* normalized_image = image / float(normalizer) *)
      let normalized_image :=
        map_data (fun x => fround rdt (fdiv (to_float x) (fround rdt (of_Z normalizer))))
          rdt image in
      (* rgb = normalized_image * 255 *)
      let rgb := map_data (fun x => fround rdt (fmul x (of_Z 255))) rdt normalized_image in
      (* rgb[saturated_idx] = 255 *)
      let rgb :=
        tabulate (shape rgb) rdt
          (fun idx => if at_ false saturated_idx idx then of_Z 255
                      else at_ (of_Z 0) rgb idx) in
      (* return (rgb).astype(np.uint8) *)
      Ok (map_data (fun x => astype_uint8 (SFloat x)) uint8 rgb)
  end.

(** NumPy broadcasting of two shapes, aligned at the last axis. *)
Fixpoint broadcast_rev (a b : list nat) : option (list nat) :=
  match a, b with
  | [], _ => Some b
  | _, [] => Some a
  | x :: a', y :: b' =>
      match broadcast_rev a' b' with
      | None => None
      | Some s =>
          if x =? y then Some (x :: s)
          else if x =? 1 then Some (y :: s)
          else if y =? 1 then Some (x :: s)
          else None
      end
  end.

Definition broadcast_shapes (a b : list nat) : option (list nat) :=
  option_map (@rev nat) (broadcast_rev (rev a) (rev b)).

(** The index into an operand of shape [s] for the index [idx] of the
    broadcast result. *)
Definition project (s idx : list nat) : list nat :=
  map (fun ni => if fst ni =? 1 then 0 else snd ni)
    (combine s (skipn (length idx - length s) idx)).

Definition broadcast2 {B C D} (f : B -> C -> D) (db : B) (dc : C) (dt : DType)
    (a : ndarray B) (b : ndarray C) : result (ndarray D) :=
  match broadcast_shapes (shape a) (shape b) with
  | None => Raise BroadcastError
  | Some s =>
      Ok (tabulate s dt
            (fun idx => f (at_ db a (project (shape a) idx))
                          (at_ dc b (project (shape b) idx))))
  end.

(** [mean] and [std] are one-dimensional float64 arrays, one entry per
    channel. *)
Definition invert_mean_std_normalization (image : image_t) (mean std : list F)
    (channels : channel_format) : result image_t :=
  (* np.expand_dims(mean, (0, 1, 2)) *)
  let mean := mk_ndarray [1; 1; 1; length mean] float64 mean in
  let std := mk_ndarray [1; 1; 1; length std] float64 std in
  let '(apply_fx, revert_fx) := _get_format_fx zero image channels in
  image <- apply_fx image ;;
  (* normalized = (image * std) + mean *)
  scaled <- broadcast2 (fun x s => fmul (to_float x) s) zero (of_Z 0) float64 image std ;;
  normalized <- broadcast2 (fun x m => SFloat (fadd x m)) (of_Z 0) (of_Z 0) float64
                  scaled mean ;;
  revert_fx normalized.

End Algorithms.

End Normalization.

(* ===================================================================== *)
(** ** image.py *)
(* ===================================================================== *)

Module Image.
Import Np Elem.

Section Render.
Context {F : Type} {FO : FloatOps F}.

(** An elementwise operation on two arrays of one shape. *)
Definition map2_data {A B C} (f : A -> B -> C) (dt : DType)
    (a : ndarray A) (b : ndarray B) : ndarray C :=
  mk_ndarray (shape a) dt
    (map (fun p => f (fst p) (snd p)) (combine (data a) (data b))).

(** [w * a] for a Python float [w]: the literal is converted to the result
    dtype, which is the array's own when it is a float array and float64
    otherwise. *)
Definition pyfloat_mul (w : F) (a : ndarray (scalar F)) : ndarray F :=
  let rdt := result_type_pyfloat (dtype a) in
  map_data (fun x => fround rdt (fmul (fround rdt w) (to_float x))) rdt a.

Definition float_add (a b : ndarray F) : ndarray F :=
  map2_data (fun x y => fround (dtype a) (fadd x y)) (dtype a) a b.

Definition _render_image_data (data : ndarray (scalar F)) (render_method : string)
  : result (ndarray (scalar F)) :=
  let zero : scalar F := SInt 0 in
  if length (shape data) =? 2 then
    (* one channel: expand the dimensions *)
    Ok (expand_dims_last data)
  else
    match nth_error (shape data) 2 with
    | None => Raise IndexError
    | Some c =>
        if 3 <=? c then
          if String.eqb render_method "rgb" then
            Ok (slice_axis2 zero 0 3 data)
          else if String.eqb render_method "bgr" then
            Ok (reverse_axis2 zero (slice_axis2 zero 0 3 data))
          else if String.eqb render_method "sentinel" then
            Ok (reverse_axis2 zero (slice_axis2 zero 1 4 data))
          else if String.eqb render_method "bw" then
            let ch j := index_axis2 zero j data in
            let luma :=
              float_add
                (float_add (pyfloat_mul (of_ratio 30 100) (ch 0))
                           (pyfloat_mul (of_ratio 59 100) (ch 1)))
                (pyfloat_mul (of_ratio 11 100) (ch 2)) in
            Ok (expand_dims_last (map_data (@SFloat F) (dtype luma) luma))
          else Raise RenderMethodError
        else Raise RenderShapeError
    end.

(** The render modes the command line accepts. *)
Definition valid_mode (m : string) : Prop :=
  (m = "rgb" \/ m = "bgr" \/ m = "sentinel" \/ m = "bw")%string.

End Render.

End Image.

(* ===================================================================== *)
(** ** Python string operations *)
(* ===================================================================== *)

Module Str.
Open Scope string_scope.

(** A Python [str] is the list of its characters: an [ascii] stands for one
    code point (below 256), not for a byte of an encoding, so lengths and
    slice bounds count characters as Python's do. *)

(** [s.startswith(p)]. *)
Definition startswith (p s : string) : bool := String.prefix p s.

(** [p in s]. *)
Fixpoint contains (p s : string) : bool :=
  String.prefix p s ||
  match s with
  | EmptyString => false
  | String _ s' => contains p s'
  end.

(** [s[n:]]. *)
Fixpoint drop (n : nat) (s : string) : string :=
  match n, s with
  | 0, _ => s
  | S n', String _ s' => drop n' s'
  | S _, EmptyString => EmptyString
  end.

(** [s.replace(old, new)] for a non-empty [old]: every occurrence, left to
    right, without overlap.  [skip] counts the characters of a replaced
    occurrence still to pass over. *)
Fixpoint replace_from (old new s : string) (skip : nat) : string :=
  match s with
  | EmptyString => EmptyString
  | String c s' =>
      match skip with
      | S k => replace_from old new s' k
      | 0 =>
          if String.prefix old s
          then new ++ replace_from old new s' (String.length old - 1)
          else String c (replace_from old new s' 0)
      end
  end.

Definition replace (old new s : string) : string := replace_from old new s 0.

(** [s.split(c)] for a one-character separator. *)
Fixpoint split (c : ascii) (s : string) : list string :=
  match s with
  | EmptyString => [EmptyString]
  | String a s' =>
      if Ascii.eqb a c then EmptyString :: split c s'
      else match split c s' with
           | w :: ws => String a w :: ws
           | [] => [String a EmptyString]
           end
  end.

(** [sep.join(l)]. *)
Fixpoint join (sep : string) (l : list string) : string :=
  match l with
  | [] => EmptyString
  | [w] => w
  | w :: l' => w ++ sep ++ join sep l'
  end.

(** [s.rstrip(c)]. *)
Fixpoint rstrip (c : ascii) (s : string) : string :=
  match s with
  | EmptyString => EmptyString
  | String a s' =>
      let r := rstrip c s' in
      if String.eqb r EmptyString && Ascii.eqb a c then EmptyString else String a r
  end.

Definition endswith_char (c : ascii) (s : string) : bool :=
  negb (String.eqb (rstrip c s) s).

(** [posixpath.split]. *)
Definition os_path_split (p : string) : string * string :=
  let parts := split "/" p in
  let tail := List.last parts EmptyString in
  let head :=
    if Nat.ltb 1 (List.length parts)
    then join "/" (List.removelast parts) ++ "/"
    else EmptyString in
  let stripped := rstrip "/" head in
  (* head is kept when it is empty or consists of slashes only *)
  (if String.eqb stripped EmptyString then head else stripped, tail).

(** [posixpath.join(a, b)] for two components. *)
Definition os_path_join (a b : string) : string :=
  if startswith "/" b then b
  else if String.eqb a EmptyString || endswith_char "/" a then a ++ b
  else a ++ "/" ++ b.

End Str.

(* ===================================================================== *)
(** ** glob.py *)
(* ===================================================================== *)

Module Glob.
Import Str.
Open Scope string_scope.

Section Backends.
(** [fnmatch.fnmatch filename pattern]. *)
Variable fnmatch : string -> string -> bool.
(** The S3 client: [None] when [import boto3] fails; otherwise the pages of
    [list_objects_v2] for a bucket and a prefix, each page with its
    ["Contents"] keys when it has any. *)
Variable boto3 : option (string -> string -> result (list (option (list string)))).
(** [glob.glob] of the standard library. *)
Variable sys_glob : string -> list string.

Definition _filter_sequences (pattern : string) (search_list : list string)
  : list string :=
  let match_file filename := fnmatch filename pattern in
  filter match_file search_list.

Definition _aws_glob (path : string) : result (list string) :=
  match boto3 with
  | None => Ok []
  | Some paginate =>
      let full_path := fst (os_path_split path) in
      match split "/" full_path with
      | _ :: _ :: bucket :: remaining =>
          let prefix := join "/" remaining in
          let prefix := replace "/**" "" prefix in
          pages <- paginate bucket prefix ;;
          let filenames :=
            flat_map
              (fun page =>
                 match page with
                 | Some contents =>
                     map (fun key => "s3://" ++ bucket ++ "/" ++ key) contents
                 | None => []
                 end)
              pages in
          Ok (_filter_sequences path filenames)
      | _ => Raise UnpackError
      end
  end.

Definition _gcs_glob (path : string) : result (list string) :=
  Raise NotImplementedError.

Definition _local_glob (path : string) : result (list string) :=
  Ok (sys_glob path).

Definition glob (path : string) : result (list string) :=
  if contains "s3://" path then _aws_glob path
  else if contains "gs://" path then _gcs_glob path
  else _local_glob path.

End Backends.

End Glob.

(* ===================================================================== *)
(** ** file_exists.py *)
(* ===================================================================== *)

Module FileExists.
Import Str Glob.
Open Scope string_scope.

Section Backends.
Variable fnmatch : string -> string -> bool.
Variable boto3 : option (string -> string -> result (list (option (list string)))).
Variable sys_glob : string -> list string.
(** [smart_open.open(path)] used as a context manager: it opens or raises. *)
Variable smart_open : string -> result unit.
(** [os.path.exists]. *)
Variable os_path_exists : string -> bool.

Definition _aws_exists (path : string) : result bool :=
  (* Check for individual files. *)
  file_exists <- match smart_open path with
                 | Ok _ => Ok true
                 | Raise OSError => Ok false
                 | Raise e => Raise e
                 end ;;
  (* Check for "folder", which means that folder has items. *)
  match glob fnmatch boto3 sys_glob (os_path_join path "*") with
  | Ok items => Ok (match items with [] => file_exists | _ :: _ => true end)
  | Raise ClientError => Ok file_exists
  | Raise e => Raise e
  end.

Definition _gcs_exists (path : string) : result bool :=
  Raise NotImplementedError.

Definition _local_exists (path : string) : result bool :=
  Ok (os_path_exists path).

Definition exists_ (path : string) : result bool :=
  if contains "s3://" path then _aws_exists path
  else if contains "gs://" path then _gcs_exists path
  else _local_exists path.

End Backends.

End FileExists.

(* ===================================================================== *)
(** ** image_tiles_server.py: the mapping between paths and URLs *)
(* ===================================================================== *)

Module Server.
Import Str.
Open Scope string_scope.

Definition server_path (ext_path : string) : string :=
  if contains "s3://" ext_path then "images/s3/" ++ drop 5 ext_path
  else if contains "gs://" ext_path then "images/" ++ drop 3 ext_path
  else "images/" ++ drop 1 ext_path.

(** The rewrite at the head of [read_and_render_image]. *)
Definition rewrite_path (path : string) : string :=
  if startswith "/s3" path then replace "/s3/" "s3://" path
  else if startswith "/gs" path then replace "/gs/" "gs://" path
  else path.

Section Handlers.
Variable bytes : Type.
(** [file_exists.exists] on its backends, and [read_image] followed by the
    PNG encoding. *)
Variable exists_ : string -> result bool.
Variable read_and_encode : string -> result bytes.

Definition read_and_render_image (path : string) : result (option bytes) :=
  let path := rewrite_path path in
  found <- exists_ path ;;
  if negb found then Ok None
  else (png <- read_and_encode path ;; Ok (Some png)).

(** The route [/images/<path:image_path>]. *)
Definition image (image_path : string) : result (option bytes) :=
  let full_path := "/" ++ image_path in
  read_and_render_image full_path.

End Handlers.

(** The path the route [/images/<path:image_path>] resolves for the URL
    that [server_path] hands to the page: the URL is [/] followed by the
    item, the route binds what follows [/images/], and the handler rewrites
    [/] followed by it.  The route binds this remainder as it stands when it
    is not empty and does not start with a slash; for the other remainders
    the function gives the path of a verbatim binding, which Flask replaces
    by a redirect to the URL with its slashes merged. *)
Definition requested_path (item : string) : option string :=
  if startswith "images/" item
  then Some (rewrite_path ("/" ++ drop 7 item))
  else None.

End Server.

(* ===================================================================== *)
(** ** Concrete arrays, as the test files build them *)
(* ===================================================================== *)

Module Examples.
Import Np Elem Binary64.

(** [np.arange(n).reshape(s)]. *)
Definition arange (s : list nat) : ndarray (scalar spec_float) :=
  mk_ndarray s int64 (map (fun n => SInt (Z.of_nat n)) (seq 0 (size s))).

(** A float64 array of integer values. *)
Definition float_array (s : list nat) (l : list Z) : ndarray (scalar spec_float) :=
  mk_ndarray s float64 (map (fun z => SFloat (Binary64.b64_of_Z z)) l).

(** [k * a] for a Python float [k] and a float64 array [a]. *)
Definition pyfloat_times (k : spec_float) (a : ndarray (scalar spec_float))
  : ndarray (scalar spec_float) :=
  map_data (fun x => SFloat (fmul k (to_float x))) float64 a.

(** The sum of a float array, added up in C order. *)
Definition sum_float (a : ndarray (scalar spec_float)) : spec_float :=
  fold_left (fun acc x => fadd acc (to_float x)) (data a) (of_Z 0).

(** [|x - n/d| < 1e-6]. *)
Definition close_to (x : spec_float) (n d : Z) : bool :=
  SFltb (SFabs (fsub x (of_ratio n d))) (of_ratio 1 1000000).

(** The sum of an integer array, [a.sum()]. *)
Definition sum_int {F} (a : ndarray (scalar F)) : Z :=
  fold_left (fun acc x => match x with SInt z => (acc + z)%Z | SFloat _ => acc end)
    (data a) 0%Z.

(** A rounding of the rationals to multiples of 1/1024. *)
Definition round_1024 (q : Qc) : Qc :=
  Q2Qc (inject_Z (Qfloor (q * Q2Qc (inject_Z 1024))%Qc) / inject_Z 1024)%Q.

End Examples.

(* ===================================================================== *)
(** ** The preprocessing that invert_mean_std_normalization undoes *)
(* ===================================================================== *)

Module Pipeline.
Import Np Elem.

(** Exact rational arithmetic: no rounding at all. *)
Definition exact : FloatOps Qc :=
  Rounded.ops (fun q => q) (fun q => q) (fun q => q).

(** Modelled from the spec: the "subtract mean, divide by std" pipeline of
    the spec's testable property, which is not part of the sources.  On a
    channel-last array, [out[..., c] = (x[..., c] - mean[c]) / std[c]]. *)
Definition subtract_mean_divide_std {F} {FO : FloatOps F}
    (x : ndarray F) (mean std : list F) : ndarray (scalar F) :=
  tabulate (shape x) float64
    (fun idx =>
       let ch := List.last idx 0 in
       SFloat (fdiv (fsub (at_ (of_Z 0) x idx) (nth ch mean (of_Z 0)))
                 (nth ch std (of_Z 0)))).

(** A first-order stand-in for [np.exp], to run [sigmoid_normalization] on
    concrete arrays. *)
Definition exp_first_order (x : spec_float) : spec_float :=
  SFadd Binary64.prec Binary64.emax (Binary64.b64_of_Z 1) x.

End Pipeline.

(* ===================================================================== *)
(** ** The callers: read_image, and the listing and index of the server *)
(* ===================================================================== *)

Module App.
Import Np Elem Normalization Image Str Glob Server.
Open Scope string_scope.

(** The errors of the callers: those of the functions above, and the two
    that the callers add. *)
Inductive caller_exn : Type :=
| KeyError (key : string)   (* [normalize_fx[normalize]] on a key the dict lacks *)
| IntValueError             (* [int(url_args["num_items"])] on a non-numeral *)
| Inner (e : exn).

Inductive outcome (A : Type) : Type :=
| Return (a : A)
| Throw (e : caller_exn).

Arguments Return {A} a.
Arguments Throw {A} e.

Definition lift {A} (r : result A) : outcome A :=
  match r with
  | Ok a => Return a
  | Raise e => Throw (Inner e)
  end.

Definition and_then {A B} (o : outcome A) (k : A -> outcome B) : outcome B :=
  match o with
  | Return a => k a
  | Throw e => Throw e
  end.

(** [s.split(".")[-1]]. *)
Definition last_dot_part (s : string) : string :=
  List.last (split "." s) EmptyString.

Section Image.
Context {F : Type} {FO : FloatOps F}.
(** [np.exp]. *)
Variable np_exp : F -> F.
(** The bytes of a file: [open(path, "rb")] of smart_open and [f.read()]. *)
Variable bytes : Type.
Variable open_read : string -> result bytes.
(** The decoders [imageio.imread] and [tifffile.imread]. *)
Variable imageio_imread : bytes -> result (ndarray (scalar F)).
Variable tifffile_imread : bytes -> result (ndarray (scalar F)).
(** [Image.registered_extensions()] as its items, and [Image.OPEN] as its
    keys. *)
Variable registered_extensions : list (string * string).
Variable OPEN : list string.

(** The set is a list read for membership. *)
Definition get_supported_extensions : list string :=
  let exts := registered_extensions in
  let supported_extensions :=
    map fst (filter (fun exf => existsb (String.eqb (snd exf)) OPEN) exts) in
  let additional_extensions := [".tif"; ".tiff"] in
  supported_extensions ++ additional_extensions.

(** The dict [normalize_fx] of [read_image]; the functions are called with
    the image only, so with their default arguments. *)
Definition normalize_fx (key : string)
  : option (ndarray (scalar F) -> result (ndarray (scalar F))) :=
  if String.eqb key "standard" then Some standard_normalization
  else if String.eqb key "scaling" then Some scaling_normalization
  else if String.eqb key "sigmoid" then
    Some (fun image => sigmoid_normalization np_exp image (of_Z 10) (of_ratio 125 1000) last)
  else if String.eqb key "sentinel" then
    Some (fun image => sentinel_truecolor_image image 2000)
  else None.

Definition read_image (path : string) (normalize : option string)
    (render_method : string) : outcome (ndarray (scalar F)) :=
  let format := last_dot_part path in
  (* Select an image reader, or fallback to PIL for anything else. *)
  let reader :=
    if existsb (String.eqb format) ["tiff"; "tif"] then tifffile_imread
    else imageio_imread in
  and_then (lift (open_read path)) (fun file_bytes =>
  and_then (lift (reader file_bytes)) (fun data =>
  and_then (lift (_render_image_data data render_method)) (fun rendered_data =>
  match normalize with
  | None => Return rendered_data
  | Some key =>
      match normalize_fx key with
      | None => Throw (KeyError key)
      | Some fx => lift (fx rendered_data)
      end
  end))).

End Image.

Section Listing.
Variable fnmatch : string -> string -> bool.
Variable boto3 : option (string -> string -> result (list (option (list string)))).
Variable sys_glob : string -> list string.
(** The result of [get_supported_extensions]. *)
Variable supported_extensions : list string.

Definition is_supported (f : string) : bool :=
  let ext := "." ++ last_dot_part f in
  existsb (String.eqb ext) supported_extensions.

Definition get_image_files (folder : string) : result (list string) :=
  let path := os_path_join folder "*" in
  filelist <- glob fnmatch boto3 sys_glob path ;;
  Ok (filter is_supported filelist).

(** [l[0:n]] for a Python int [n]: a negative [n] counts from the end. *)
Definition slice_to {A} (n : Z) (l : list A) : list A :=
  if (0 <=? n)%Z then firstn (Z.to_nat n) l
  else firstn (List.length l - Z.to_nat (- n)) l.

(** [random.shuffle] leaves some arrangement of the list. *)
Variable shuffle : list string -> list string.
(** [int] on the text of a URL argument; [None] is its ValueError. *)
Variable py_int : string -> option Z.

(** The route [/]: the items handed to the page template.
    [args_num_items] and [args_folder_path] are the parsed command line,
    [url_num_items] the URL argument when the request has one. *)
Definition index (args_num_items : Z) (args_folder_path : string)
    (url_num_items : option string) : outcome (list string) :=
  and_then
    (match url_num_items with
     | None => Return args_num_items
     | Some text =>
         match py_int text with
         | Some n => Return n
         | None => Throw IntValueError
         end
     end)
    (fun num_items =>
  and_then (lift (get_image_files args_folder_path)) (fun filelist =>
  let filelist := shuffle filelist in
  let filelist := slice_to num_items filelist in
  let items := map server_path filelist in
  Return items)).

End Listing.

(** The folder surgery of [parse_args]: a relative local folder is joined
    to the working directory. *)
Definition parse_args_folder_path (cwd folder_path : string) : string :=
  if negb (startswith "/" folder_path) then
    if negb (contains "s3://" folder_path) && negb (contains "gs://" folder_path)
    then os_path_join cwd folder_path
    else folder_path
  else folder_path.

End App.

(* ===================================================================== *)
(** * Part II: lemmas and theorems *)
(* ===================================================================== *)

(** ** Indexing of C-order arrays *)

Section NpIndexing.
Import Np.

Lemma flat_map_seq_chunks (k n a : nat) :
  flat_map (fun i => seq (i * k) k) (seq a n) = seq (a * k) (n * k).
Proof.
  revert a; induction n as [|n IH]; intro a; simpl; [reflexivity|].
  rewrite IH, seq_app. f_equal. f_equal. lia.
Qed.

Lemma map_add_seq (a b n : nat) :
  map (fun o => a + o) (seq b n) = seq (a + b) n.
Proof.
  revert b; induction n as [|n IH]; intro b; simpl; [reflexivity|].
  f_equal. rewrite IH. f_equal. lia.
Qed.

Lemma map_offset_indices (s : list nat) :
  map (offset s) (indices s) = seq 0 (size s).
Proof.
  induction s as [|n s IH]; simpl; [reflexivity|].
  rewrite flat_map_concat_map, concat_map, map_map.
  rewrite <- flat_map_concat_map.
  rewrite (flat_map_ext _ (fun i => seq (i * size s) (size s))).
  - apply (flat_map_seq_chunks (size s) n 0).
  - intro i. rewrite map_map. simpl.
    rewrite <- (map_map (offset s) (fun o => i * size s + o)), IH.
    rewrite map_add_seq. f_equal. lia.
Qed.

Lemma length_indices (s : list nat) : length (indices s) = size s.
Proof.
  rewrite <- (length_map (offset s)), map_offset_indices. apply length_seq.
Qed.

Lemma in_indices (s idx : list nat) :
  In idx (indices s) <-> in_bounds idx s = true.
Proof.
  revert idx; induction s as [|n s IH]; intro idx; simpl.
  - destruct idx; simpl; intuition (try discriminate; try congruence).
  - rewrite in_flat_map. split.
    + intros (i & Hi & Hin). apply in_map_iff in Hin as (idx' & <- & Hin').
      simpl. apply in_seq in Hi. apply IH in Hin'.
      rewrite Hin'. rewrite andb_true_r. apply Nat.ltb_lt. lia.
    + destruct idx as [|i idx']; simpl; [discriminate|].
      intro H. apply andb_true_iff in H as [Hi Hb].
      apply Nat.ltb_lt in Hi. exists i. split; [apply in_seq; lia|].
      apply in_map. apply IH. exact Hb.
Qed.

Lemma offset_lt (s idx : list nat) :
  in_bounds idx s = true -> offset s idx < size s.
Proof.
  intro H. apply in_indices in H.
  apply (in_map (offset s)) in H. rewrite map_offset_indices in H.
  apply in_seq in H. lia.
Qed.

Lemma nth_offset_indices (s idx d : list nat) :
  in_bounds idx s = true -> nth (offset s idx) (indices s) d = idx.
Proof.
  intro H. pose proof H as Hin. apply in_indices in Hin.
  destruct (In_nth _ _ d Hin) as (p & Hp & Hnth).
  assert (Ho : offset s idx = p).
  { rewrite <- Hnth.
    rewrite <- (map_nth (offset s)), map_offset_indices.
    rewrite length_indices in Hp. rewrite seq_nth by exact Hp. reflexivity. }
  rewrite Ho. exact Hnth.
Qed.

Lemma at_tabulate {A} (d : A) (s : list nat) dt (f : list nat -> A) (idx : list nat) :
  in_bounds idx s = true -> at_ d (tabulate s dt f) idx = f idx.
Proof.
  intro H. unfold at_, tabulate; simpl.
  rewrite (nth_indep _ d (f [])).
  - rewrite map_nth. rewrite nth_offset_indices by exact H. reflexivity.
  - rewrite length_map, length_indices. apply offset_lt; exact H.
Qed.

Lemma tabulate_ext {A} (s : list nat) dt (f g : list nat -> A) :
  (forall idx, in_bounds idx s = true -> f idx = g idx) ->
  tabulate s dt f = tabulate s dt g.
Proof.
  intro H. unfold tabulate. f_equal.
  apply map_ext_in. intros idx Hin. apply H. apply in_indices; exact Hin.
Qed.

Lemma tabulate_at {A} (d : A) (a : ndarray A) :
  wf a -> tabulate (shape a) (dtype a) (at_ d a) = a.
Proof.
  unfold wf, tabulate, at_. destruct a as [s dt l]; simpl. intro Hwf.
  f_equal.
  rewrite <- (map_map (offset s) (fun o => nth o l d)), map_offset_indices.
  rewrite <- Hwf. clear Hwf.
  induction l as [|x l IH]; simpl; [reflexivity|].
  f_equal. rewrite <- seq_shift, map_map. exact IH.
Qed.

Lemma shape_tabulate {A} (s : list nat) dt (f : list nat -> A) :
  shape (tabulate s dt f) = s.
Proof. reflexivity. Qed.

Lemma wf_tabulate {A} (s : list nat) dt (f : list nat -> A) : wf (tabulate s dt f).
Proof.
  unfold wf, tabulate; simpl. rewrite length_map. apply length_indices.
Qed.

End NpIndexing.

(* ===================================================================== *)
(** ** standard_normalization and scaling_normalization *)
(* ===================================================================== *)

Section Standard.
Import Np Elem Normalization.
Context {F : Type} {FO : FloatOps F}.

(** [scaling_normalization] raises only on an empty array. *)
Lemma scaling_normalization_raises (image : image_t (F := F)) (e : exn) :
  scaling_normalization image = Raise e -> e = EmptyReduction /\ data image = [].
Proof.
  unfold scaling_normalization.
  destruct (data image) as [|x l]; simpl; intro H.
  - inversion H; auto.
  - discriminate.
Qed.

Lemma scaling_normalization_total (image : image_t (F := F)) :
  data image <> [] -> exists out, scaling_normalization image = Ok out.
Proof.
  unfold scaling_normalization.
  destruct (data image) as [|x l]; simpl; intro H; [congruence|].
  eexists; reflexivity.
Qed.

(** The cast to uint8 gives an integer between 0 and 255. *)
Lemma astype_uint8_range (x : scalar F) :
  exists n, astype_uint8 x = SInt n /\ (0 <= n <= 255)%Z.
Proof.
  destruct x as [z | f]; cbn [astype_uint8]; cbv zeta.
  - eexists. split; [reflexivity|].
    pose proof (Z.mod_pos_bound z 256 ltac:(lia)). lia.
  - destruct ((- 2 ^ 31 <=? to_Z f) && (to_Z f <? 2 ^ 31))%Z;
      eexists; (split; [reflexivity|]); [|lia].
    pose proof (Z.mod_pos_bound (to_Z f) 256 ltac:(lia)). lia.
Qed.

(** The result of [scaling_normalization] is a uint8 array of the input's
    shape, every element an integer between 0 and 255. *)
Lemma scaling_normalization_uint8 (image out : image_t (F := F)) :
  scaling_normalization image = Ok out ->
  dtype out = uint8 /\ shape out = shape image /\
  Forall (fun v => exists n, v = SInt n /\ (0 <= n <= 255)%Z) (data out).
Proof.
  unfold scaling_normalization.
  destruct (np_max _) as [m|e]; simpl; intro H; [|discriminate].
  inversion H; subst; clear H; simpl. repeat split.
  apply Forall_forall. intros v Hv.
  apply in_map_iff in Hv as (x & <- & _). exact (astype_uint8_range (SFloat x)).
Qed.

(** C2: on a rank-3 image, [standard_normalization] is the identity when the
    channel count is 1, 3 or 4 and the dtype is float32 or uint8, and is
    [scaling_normalization] on every other rank-3 image. *)
Theorem standard_normalization_rank3 (image : image_t (F := F)) (h w c : nat) :
  shape image = [h; w; c] ->
  ((c = 1 \/ c = 3 \/ c = 4) /\ (dtype image = float32 \/ dtype image = uint8) ->
   standard_normalization image = Ok image) /\
  (~ ((c = 1 \/ c = 3 \/ c = 4) /\ (dtype image = float32 \/ dtype image = uint8)) ->
   standard_normalization image = scaling_normalization image).
Proof.
  intro Hs. unfold standard_normalization. rewrite Hs. split.
  - intros [Hc Hd].
    assert (Ec : existsb (Nat.eqb c) [1; 3; 4] = true)
      by (destruct Hc as [->|[->| ->]]; reflexivity).
    assert (Ed : existsb (DType_eqb (dtype image)) [float32; uint8] = true)
      by (destruct Hd as [->| ->]; reflexivity).
    rewrite Ec, Ed. reflexivity.
  - intro Hn.
    destruct (existsb (Nat.eqb c) [1; 3; 4]) eqn:Ec; [|reflexivity].
    destruct (existsb (DType_eqb (dtype image)) [float32; uint8]) eqn:Ed; [|reflexivity].
    exfalso. apply Hn. split.
    + simpl in Ec. rewrite !orb_true_iff, !Nat.eqb_eq in Ec.
      intuition discriminate.
    + simpl in Ed. destruct (dtype image); simpl in Ed; try discriminate; auto.
Qed.

(** C10: [standard_normalization] raises the unpacking error on every array
    whose rank is not 3, and never raises it on a rank-3 array. *)
Theorem standard_normalization_rank (image : image_t (F := F)) :
  (length (shape image) <> 3 -> standard_normalization image = Raise UnpackError) /\
  (length (shape image) = 3 -> standard_normalization image <> Raise UnpackError).
Proof.
  unfold standard_normalization. split; intro H.
  - destruct (shape image) as [|? [|? [|? [|? ?]]]]; simpl in H; try reflexivity; lia.
  - destruct (shape image) as [|? [|? [|c [|? ?]]]]; simpl in H; try discriminate.
    assert (Hs : scaling_normalization image <> Raise UnpackError).
    { intro E. apply scaling_normalization_raises in E as [E _]. discriminate. }
    destruct (existsb _ [1; 3; 4]); [destruct (existsb _ [float32; uint8])|];
      try exact Hs; discriminate.
Qed.

End Standard.

(* ===================================================================== *)
(** ** sentinel_truecolor_image *)
(* ===================================================================== *)

Section Sentinel.
Import Np Elem Normalization.

Lemma at_map_data {A B} (d : A) (d' : B) (f : A -> B) dt (a : ndarray A) idx :
  wf a -> in_bounds idx (shape a) = true ->
  at_ d' (map_data f dt a) idx = f (at_ d a idx).
Proof.
  unfold wf, at_, map_data; simpl. intros Hwf Hb.
  rewrite (nth_indep _ d' (f d)).
  - apply map_nth.
  - rewrite length_map, Hwf. apply offset_lt; exact Hb.
Qed.

Lemma wf_map_data {A B} (f : A -> B) dt (a : ndarray A) : wf a -> wf (map_data f dt a).
Proof. unfold wf, map_data; simpl. rewrite length_map. auto. Qed.

Lemma in_bounds2 (i j h w : nat) : i < h -> j < w -> in_bounds [i; j] [h; w] = true.
Proof.
  intros Hi Hj. simpl. apply Nat.ltb_lt in Hi, Hj. rewrite Hi, Hj. reflexivity.
Qed.

Lemma in_bounds3 (i j k h w c : nat) :
  i < h -> j < w -> k < c -> in_bounds [i; j; k] [h; w; c] = true.
Proof.
  intros Hi Hj Hk. simpl. apply Nat.ltb_lt in Hi, Hj, Hk. rewrite Hi, Hj, Hk. reflexivity.
Qed.

Lemma s_gtb_int {F} {FO : FloatOps F} dt (z n : Z) :
  s_gtb dt (SInt z : scalar F) n = true <-> (n < z)%Z.
Proof. simpl. apply Z.ltb_lt. Qed.

Context {F : Type} {FO : FloatOps F}.



End Sentinel.

(* ===================================================================== *)
(** ** _render_image_data *)
(* ===================================================================== *)

Section Render.
Import Np Elem Image.
Open Scope string_scope.

Lemma at_slice_axis2 {A} (d : A) (a : ndarray A) (lo hi h w c i j k : nat) :
  shape a = [h; w; c] -> lo <= hi -> hi <= c ->
  i < h -> j < w -> k < hi - lo ->
  shape (slice_axis2 d lo hi a) = [h; w; hi - lo] /\
  at_ d (slice_axis2 d lo hi a) [i; j; k] = at_ d a [i; j; k + lo].
Proof.
  intros Hs Hlo Hhi Hi Hj Hk. unfold slice_axis2. rewrite Hs.
  cbn [nth set_axis shape].
  replace (Nat.min lo c) with lo by lia.
  replace (Nat.max lo (Nat.min hi c)) with hi by lia.
  split; [reflexivity|].
  rewrite at_tabulate by (apply in_bounds3; assumption).
  reflexivity.
Qed.

Lemma at_reverse_axis2 {A} (d : A) (a : ndarray A) (h w c i j k : nat) :
  shape a = [h; w; c] -> i < h -> j < w -> k < c ->
  at_ d (reverse_axis2 d a) [i; j; k] = at_ d a [i; j; c - 1 - k].
Proof.
  intros Hs Hi Hj Hk. unfold reverse_axis2. rewrite Hs.
  rewrite at_tabulate by (apply in_bounds3; assumption).
  reflexivity.
Qed.

Context {F : Type} {FO : FloatOps F}.

(** The rendering of a rank-3 array with at least four channels in mode
    [sentinel]: three channels, the input's channels 3, 2 and 1. *)
Lemma render_sentinel_four_channels (data : ndarray (scalar F)) (h w c : nat) :
  shape data = [h; w; c] -> 4 <= c ->
  exists out,
    _render_image_data data "sentinel" = Ok out /\
    shape out = [h; w; 3] /\ dtype out = dtype data /\
    forall i j k, i < h -> j < w -> k < 3 ->
      at_ (SInt 0) out [i; j; k] = at_ (SInt 0) data [i; j; 3 - k].
Proof.
  intros Hs Hc. unfold _render_image_data. rewrite Hs.
  cbn [length Nat.eqb nth_error].
  assert (E : (3 <=? c)%nat = true) by (apply Nat.leb_le; lia). rewrite E.
  change (String.eqb "sentinel" "rgb") with false.
  change (String.eqb "sentinel" "bgr") with false.
  change (String.eqb "sentinel" "sentinel") with true. cbv iota.
  eexists. split; [reflexivity|].
  assert (Hsl : shape (slice_axis2 (SInt 0 : scalar F) 1 4 data) = [h; w; 3]).
  { unfold slice_axis2, tabulate. rewrite Hs. cbn [nth set_axis shape].
    do 3 f_equal. lia. }
  split; [exact Hsl|]. split; [reflexivity|].
  intros i j k Hi Hj Hk.
  rewrite (at_reverse_axis2 _ _ Hsl Hi Hj Hk).
  assert (Hk' : 3 - 1 - k < 4 - 1) by lia.
  destruct (at_slice_axis2 (SInt 0 : scalar F) data (lo := 1) (hi := 4) Hs
              ltac:(lia) Hc Hi Hj Hk') as [_ ->].
  f_equal. f_equal. f_equal. f_equal. lia.
Qed.

(** C7, as the code has it: a rank-2 input, or a rank-3 input with at least
    three channels, rendered in one of the four modes, gives a rank-3 array
    with height and width unchanged and the channels last; the dtype is the
    input's in modes [rgb], [bgr] and [sentinel] and for a rank-2 input, and
    in mode [bw] on a rank-3 input it is the dtype of a product with a
    Python float: the input's for a float input, float64 for every other. *)
Theorem render_dtype_and_layout (data : ndarray (scalar F)) (mode : string) (h w : nat) :
  valid_mode mode ->
  shape data = [h; w] \/ (exists c, (3 <= c)%nat /\ shape data = [h; w; c]) ->
  exists out k,
    _render_image_data data mode = Ok out /\
    shape out = [h; w; k] /\
    dtype out =
      if String.eqb mode "bw" && (length (shape data) =? 3)%nat
      then (if is_float (dtype data) then dtype data else float64)
      else dtype data.
Proof.
  intros Hm [Hs | (c & Hc & Hs)]; unfold _render_image_data; rewrite Hs.
  - cbn [length Nat.eqb]. rewrite andb_false_r.
    eexists; exists 1. split; [reflexivity|]. cbn. rewrite Hs. split; reflexivity.
  - cbn [length Nat.eqb nth_error]. rewrite andb_true_r.
    assert (E : (3 <=? c)%nat = true) by (apply Nat.leb_le; lia). rewrite E.
    destruct Hm as [-> | [-> | [-> | ->]]].
    + change (String.eqb "rgb" "rgb") with true.
      change (String.eqb "rgb" "bw") with false. cbv iota.
      eexists; eexists. split; [reflexivity|].
      unfold slice_axis2; rewrite Hs; cbn [nth set_axis shape dtype].
      split; reflexivity.
    + change (String.eqb "bgr" "rgb") with false.
      change (String.eqb "bgr" "bgr") with true.
      change (String.eqb "bgr" "bw") with false. cbv iota.
      eexists; eexists. split; [reflexivity|].
      unfold reverse_axis2, slice_axis2; rewrite Hs; cbn [nth set_axis shape dtype].
      split; reflexivity.
    + change (String.eqb "sentinel" "rgb") with false.
      change (String.eqb "sentinel" "bgr") with false.
      change (String.eqb "sentinel" "sentinel") with true.
      change (String.eqb "sentinel" "bw") with false. cbv iota.
      eexists; eexists. split; [reflexivity|].
      unfold reverse_axis2, slice_axis2; rewrite Hs; cbn [nth set_axis shape dtype].
      split; reflexivity.
    + change (String.eqb "bw" "rgb") with false.
      change (String.eqb "bw" "bgr") with false.
      change (String.eqb "bw" "sentinel") with false.
      change (String.eqb "bw" "bw") with true. cbv iota.
      eexists; exists 1. split; [reflexivity|].
      unfold expand_dims_last, map_data, float_add, map2_data, pyfloat_mul, index_axis2,
        tabulate.
      cbn [shape dtype]. rewrite Hs. cbn [drop_axis app].
      split; reflexivity.
Qed.

End Render.

(* ===================================================================== *)
(** ** Path handling: glob and the server's path mapping *)
(* ===================================================================== *)

Section Paths.
Import Str Glob Server.
Open Scope string_scope.

Lemma prefix_empty (s : string) : String.prefix "" s = true.
Proof. destruct s; reflexivity. Qed.

Lemma startswith_contains (p s : string) :
  startswith p s = true -> contains p s = true.
Proof.
  unfold startswith. intro H. destruct s; cbn [contains]; rewrite H; reflexivity.
Qed.

Lemma contains_tail (p : string) (c : ascii) (s : string) :
  contains p (String c s) = false ->
  String.prefix p (String c s) = false /\ contains p s = false.
Proof.
  cbn [contains]. intro H. apply orb_false_iff in H. exact H.
Qed.

(** [replace] leaves a string without occurrence unchanged. *)
Lemma replace_absent (old new s : string) :
  contains old s = false -> replace old new s = s.
Proof.
  unfold replace. induction s as [|c s IH]; intro H; [reflexivity|].
  apply contains_tail in H as [Hp Hc].
  cbn [replace_from]. rewrite Hp. f_equal. apply IH. exact Hc.
Qed.

(** The dispatch of [glob] reads the whole path for the scheme markers. *)
Lemma glob_dispatch_contains fnmatch boto3 sys_glob (path : string) :
  glob fnmatch boto3 sys_glob path =
    if contains "s3://" path then _aws_glob fnmatch boto3 path
    else if contains "gs://" path then Raise NotImplementedError
    else Ok (sys_glob path).
Proof. reflexivity. Qed.

(** C9, as the code has it: a path that starts with [gs://] and holds no
    [s3://] fails with [NotImplementedError]; a path that holds neither
    marker is handed to the local glob. *)
Theorem glob_dispatch fnmatch boto3 sys_glob (path : string) :
  contains "s3://" path = false ->
  (startswith "gs://" path = true ->
   glob fnmatch boto3 sys_glob path = Raise NotImplementedError) /\
  (contains "gs://" path = false ->
   glob fnmatch boto3 sys_glob path = _local_glob sys_glob path /\
   _local_glob sys_glob path = Ok (sys_glob path)).
Proof.
  intro Hs3. rewrite glob_dispatch_contains, Hs3. split.
  - intro Hgs. apply startswith_contains in Hgs. rewrite Hgs. reflexivity.
  - intro Hgs. rewrite Hgs. split; reflexivity.
Qed.

(** C9, as the claim states it, fails: a [gs://] path that holds [s3://]
    further on is listed by the AWS branch (an empty list when boto3 is
    absent), and so is a local path that holds [s3://]. *)
Lemma glob_dispatch_by_prefix_fails :
  ~ (forall fnmatch boto3 sys_glob path,
       startswith "gs://" path = true ->
       glob fnmatch boto3 sys_glob path = Raise NotImplementedError) /\
  ~ (forall fnmatch boto3 sys_glob path,
       startswith "s3://" path = false -> startswith "gs://" path = false ->
       glob fnmatch boto3 sys_glob path = Ok (sys_glob path)).
Proof.
  split; intro H.
  - specialize (H (fun _ _ => true) None (fun _ => []) "gs://bucket/s3://k/*" eq_refl).
    vm_compute in H. discriminate.
  - specialize (H (fun _ _ => true) None (fun _ => ["/data/s3://k/a.png"])
                  "/data/s3://k/*" eq_refl eq_refl).
    vm_compute in H. discriminate.
Qed.

(** C8 at [gs://bucket/key]: [server_path] drops three characters where the
    [s3] branch drops five and adds [s3/], so the item is
    [images///bucket/key] and the route resolves [///bucket/key]. *)
Theorem server_path_gs :
  server_path "gs://bucket/key" = "images///bucket/key" /\
  server_path "gs://bucket/key" <> "images/gs/bucket/key" /\
  requested_path (server_path "gs://bucket/key") = Some "///bucket/key" /\
  requested_path "images/gs/bucket/key" = Some "gs://bucket/key".
Proof. repeat split; try reflexivity. vm_compute. discriminate. Qed.

(** [str.replace] rewrites every occurrence, so an S3 key that holds [/s3/]
    does not come back either. *)
Example server_path_s3_inner_marker :
  requested_path (server_path "s3://bucket/a/s3/b") = Some "s3://bucket/as3://b".
Proof. reflexivity. Qed.




End Paths.

(* ===================================================================== *)
(** ** scaling_normalization under scaling of the input *)
(* ===================================================================== *)

Section Scaling.
Import Np Elem Normalization.
Open Scope Qc_scope.

Lemma Qcle_scale (k a b : Qc) : 0 < k -> (k * a <= k * b <-> a <= b).
Proof.
  intro Hk. rewrite (Qcmult_comm k a), (Qcmult_comm k b). split.
  - apply Qcmult_lt_0_le_reg_r; exact Hk.
  - intro H. apply Qcmult_le_compat_r; [exact H | apply Qclt_le_weak; exact Hk].
Qed.

Lemma Qle_bool_Qcle (a b : Qc) : Qle_bool a b = true <-> a <= b.
Proof. apply Qle_bool_iff. Qed.

Lemma Qle_bool_scale (k a b : Qc) :
  0 < k -> Qle_bool (k * a)%Qc (k * b)%Qc = Qle_bool a b.
Proof.
  intro Hk. apply eq_true_iff_eq.
  rewrite (Qle_bool_Qcle (k * a) (k * b)), (Qle_bool_Qcle a b).
  apply Qcle_scale; exact Hk.
Qed.

Lemma Qcdiv_scale (k a m : Qc) : k <> 0 -> (k * a) / (k * m) = a / m.
Proof.
  intro Hk. unfold Qcdiv. rewrite Qcinv_mult_distr.
  transitivity ((k * / k) * (a * / m)); [ring|].
  rewrite Qcmult_inv_r by exact Hk. ring.
Qed.

Variables rnd rnd32 rnd16 : Qc -> Qc.
Hypothesis rnd_0 : rnd 0 = 0.

Let FO : FloatOps Qc := Rounded.ops rnd rnd32 rnd16.
Existing Instance FO.

Lemma clip_scale (k v : Qc) :
  0 < k -> clip_nonpositive (k * v) = k * clip_nonpositive v.
Proof.
  intro Hk. unfold clip_nonpositive. cbn [fleb of_Z FO Rounded.ops].
  change (Q2Qc (inject_Z 0)) with 0. rewrite rnd_0.
  rewrite <- (Qcmult_0_r k) at 1. rewrite (Qle_bool_scale v 0 Hk).
  match goal with |- context [Qle_bool ?x ?y] => destruct (Qle_bool x y) end;
    [symmetry; apply Qcmult_0_r | reflexivity].
Qed.

Lemma fmaximum_scale (k a b : Qc) :
  0 < k -> fmaximum (k * a) (k * b) = k * fmaximum a b.
Proof.
  intro Hk. unfold fmaximum. cbn [fisnan fltb FO Rounded.ops].
  unfold Rounded.Qc_ltb. rewrite (Qle_bool_scale b a Hk).
  match goal with |- context [Qle_bool ?x ?y] => destruct (Qle_bool x y) end;
    reflexivity.
Qed.

Lemma fold_fmaximum_scale (k : Qc) (l : list Qc) (a : Qc) :
  0 < k ->
  fold_left fmaximum (map (Qcmult k) l) (k * a) = k * fold_left fmaximum l a.
Proof.
  intro Hk. revert a. induction l as [|x l IH]; intro a; simpl; [reflexivity|].
  rewrite (fmaximum_scale a x Hk). apply IH.
Qed.

(** With the scaled input formed exactly, [scaling_normalization] returns
    the same array. *)
Lemma scaling_normalization_scale (k : Qc) (s : list nat) (dt : DType) (xs : list Qc) :
  0 < k ->
  scaling_normalization (mk_ndarray s dt (map (fun v => SFloat (k * v)) xs)) =
  scaling_normalization (mk_ndarray s dt (map (@SFloat Qc) xs)).
Proof.
  intro Hk. unfold scaling_normalization. cbn [data shape].
  rewrite !map_map. cbn [to_float].
  destruct xs as [|x xs]; [reflexivity|].
  cbn [map np_max bind].
  rewrite (map_ext (fun v => clip_nonpositive (k * v))
             (fun v => k * clip_nonpositive v)) by (intro v; apply (clip_scale v Hk)).
  rewrite (clip_scale x Hk).
  rewrite <- (map_map clip_nonpositive (Qcmult k)).
  rewrite (fold_fmaximum_scale _ _ Hk).
  f_equal. f_equal.
  assert (Hk0 : k <> 0) by (apply not_eq_sym, Qclt_not_eq; exact Hk).
  cbn [fdiv fmul FO Rounded.ops]. rewrite (Qcdiv_scale _ _ Hk0). f_equal.
  rewrite !map_map. apply map_ext. intro v.
  rewrite (Qcdiv_scale _ _ Hk0). reflexivity.
Qed.

(** [scaling_normalization] reads an image through its shape and the float
    values of its elements only. *)
Lemma scaling_normalization_floats (a b : ndarray (scalar Qc)) :
  shape a = shape b ->
  map (@to_float Qc FO) (data a) = map (@to_float Qc FO) (data b) ->
  scaling_normalization a = scaling_normalization b.
Proof. intros Hs Hd. unfold scaling_normalization. rewrite Hs, Hd. reflexivity. Qed.

(** The same for any two images, of integers or of floats, such that the
    float value of every element of the second is exactly [k] times the
    float value of the corresponding element of the first. *)
Lemma scaling_normalization_scale_images (k : Qc) (x y : ndarray (scalar Qc)) :
  0 < k -> shape y = shape x ->
  Forall2 (fun a b => @to_float Qc FO b = k * @to_float Qc FO a) (data x) (data y) ->
  scaling_normalization y = scaling_normalization x.
Proof.
  intros Hk Hs Hd.
  set (xs := map (@to_float Qc FO) (data x)).
  rewrite (@scaling_normalization_floats y
             (mk_ndarray (shape x) float64 (map (fun v => SFloat (k * v)) xs))).
  - rewrite (scaling_normalization_scale (shape x) float64 xs Hk).
    apply scaling_normalization_floats; [reflexivity|].
    cbn [data]. unfold xs. rewrite !map_map. reflexivity.
  - exact Hs.
  - cbn [data]. unfold xs. rewrite !map_map. cbn [to_float].
    induction Hd as [|a b la lb Hab _ IH]; [reflexivity|].
    cbn [map]. rewrite Hab, IH. reflexivity.
Qed.

End Scaling.

Section ScalingClaim.
Import Np Elem Normalization Examples Binary64.

(** C3, as the code has it: on an image with a strictly positive value, in
    any float arithmetic, [scaling_normalization] returns a uint8 array of
    values between 0 and 255; and it returns the same array for two images
    [x] and [y] of one shape, of integers or of floats, when the float value
    of every element of [y] is exactly [k] times the float value of the
    corresponding element of [x], [k > 0], and every operation is correctly
    rounded. *)
Theorem scaling_normalization_range_and_scale
    (F : Type) (FO : FloatOps F) (image : ndarray (scalar F))
    (rnd rnd32 rnd16 : Qc -> Qc) (k : Qc) (x y : ndarray (scalar Qc)) :
  Exists (fun v => fltb (of_Z 0) (to_float v) = true) (data image) ->
  rnd (Q2Qc 0) = Q2Qc 0 ->
  Qclt (Q2Qc 0) k ->
  shape y = shape x ->
  Forall2 (fun a b => @to_float Qc (Rounded.ops rnd rnd32 rnd16) b =
                      Qcmult k (@to_float Qc (Rounded.ops rnd rnd32 rnd16) a))
    (data x) (data y) ->
  (exists out,
     scaling_normalization image = Ok out /\
     dtype out = uint8 /\ shape out = shape image /\
     Forall (fun v => exists n, v = SInt n /\ (0 <= n <= 255)%Z) (data out)) /\
  scaling_normalization (FO := Rounded.ops rnd rnd32 rnd16) y =
  scaling_normalization (FO := Rounded.ops rnd rnd32 rnd16) x.
Proof.
  intros Hpos H0 Hk Hs Hd. split.
  - assert (Hne : data image <> []) by (intro E; rewrite E in Hpos; inversion Hpos).
    destruct (scaling_normalization_total image Hne) as [out Hout].
    exists out. split; [exact Hout|].
    apply scaling_normalization_uint8. exact Hout.
  - apply (@scaling_normalization_scale_images rnd rnd32 rnd16 H0 k x y Hk Hs Hd).
Qed.

(** C3 at a float64 image and its exact multiple by 3/10, and at an int64
    image and its multiple by 3. *)
Lemma scaling_normalization_range_and_scale_witness :
  ((exists out,
      scaling_normalization (float_array [1; 1; 2] [1%Z; 5%Z]) = Ok out /\
      dtype out = uint8 /\ shape out = [1; 1; 2] /\
      Forall (fun v => exists n, v = SInt n /\ (0 <= n <= 255)%Z) (data out)) /\
   scaling_normalization (FO := Rounded.ops round_1024 round_1024 round_1024)
     (mk_ndarray [1; 1; 2] float64
        (map (fun v => SFloat (Qcmult (Q2Qc (3 # 10)) v))
           [Q2Qc (inject_Z 1); Q2Qc (inject_Z 5)])) =
   scaling_normalization (FO := Rounded.ops round_1024 round_1024 round_1024)
     (mk_ndarray [1; 1; 2] float64
        (map (@SFloat Qc) [Q2Qc (inject_Z 1); Q2Qc (inject_Z 5)]))) /\
  scaling_normalization (FO := Rounded.ops round_1024 round_1024 round_1024)
    (mk_ndarray [1; 1; 2] int64 [SInt 3; SInt 15]) =
  scaling_normalization (FO := Rounded.ops round_1024 round_1024 round_1024)
    (mk_ndarray [1; 1; 2] int64 [SInt 1; SInt 5]).
Proof.
  split.
  - apply (@scaling_normalization_range_and_scale
             spec_float Binary64.ops (float_array [1; 1; 2] [1%Z; 5%Z])
             round_1024 round_1024 round_1024 (Q2Qc (3 # 10))).
    + left. reflexivity.
    + apply Qc_is_canon. reflexivity.
    + reflexivity.
    + reflexivity.
    + repeat constructor.
  - apply (@scaling_normalization_range_and_scale
             spec_float Binary64.ops (float_array [1; 1; 2] [1%Z; 5%Z])
             round_1024 round_1024 round_1024 (Q2Qc (inject_Z 3))).
    + left. reflexivity.
    + apply Qc_is_canon. reflexivity.
    + reflexivity.
    + reflexivity.
    + repeat constructor; apply Qc_is_canon; reflexivity.
Defined.

(** C3, as the claim states it, fails in binary64: for [x = [1.0, 5.0]] and
    [k = 0.3] the first output is 51 for [x] and 50 for [k * x]. *)
Lemma scaling_normalization_scale_binary64_fails :
  let x := float_array [1; 1; 2] [1%Z; 5%Z] in
  let k := of_ratio 3 10 in
  SFltb (of_Z 0) k = true /\
  scaling_normalization x = Ok (mk_ndarray [1; 1; 2] uint8 [SInt 51; SInt 255]) /\
  scaling_normalization (pyfloat_times k x) =
    Ok (mk_ndarray [1; 1; 2] uint8 [SInt 50; SInt 255]) /\
  scaling_normalization (pyfloat_times k x) <> scaling_normalization x.
Proof.
  cbv zeta. repeat split; try (vm_compute; reflexivity).
  vm_compute. discriminate.
Qed.

(** The same loss on an int64 image and its exact integer multiple by 11:
    the conversions to float64 round, so the float values are no exact
    multiples of each other. *)
Example scaling_normalization_scale_int64 :
  let x := [84172568287414904; 420862841437074520]%Z in
  scaling_normalization
    (mk_ndarray [1; 1; 2] int64 (map (@SInt spec_float) x)) =
    Ok (mk_ndarray [1; 1; 2] uint8 [SInt 51; SInt 255]) /\
  scaling_normalization
    (mk_ndarray [1; 1; 2] int64 (map (fun z => @SInt spec_float (11 * z)) x)) =
    Ok (mk_ndarray [1; 1; 2] uint8 [SInt 50; SInt 255]).
Proof. split; vm_compute; reflexivity. Qed.

(** The scenario of [normalization_test.py]: the sum over
    [arange(16*16*3).reshape(16,16,3)] is 97537. *)
Example scaling_normalization_test_sum :
  exists out,
    scaling_normalization (arange [16; 16; 3]) = Ok out /\
    dtype out = uint8 /\ sum_int out = 97537%Z.
Proof. eexists. split; [vm_compute; reflexivity|]. split; vm_compute; reflexivity. Qed.

End ScalingClaim.

Section NormalizationClaims.
Import Np Elem Normalization Examples Binary64.

Lemma wf_arange (s : list nat) : wf (arange s).
Proof. unfold wf, arange; simpl. rewrite length_map, length_seq. reflexivity. Qed.

(** C2 at a uint8 image, which comes back unchanged, and at an int64 image,
    which is scaled. *)
Lemma standard_normalization_rank3_witness :
  standard_normalization (mk_ndarray [1; 1; 3] uint8 [SInt 10; SInt 20; SInt 30]) =
    Ok (mk_ndarray [1; 1; 3] uint8 [SInt 10; SInt 20; SInt 30]) /\
  standard_normalization (arange [1; 1; 3]) = scaling_normalization (arange [1; 1; 3]).
Proof.
  split.
  - apply (proj1 (@standard_normalization_rank3 spec_float Binary64.ops
                    (mk_ndarray [1; 1; 3] uint8 [SInt 10; SInt 20; SInt 30])
                    1 1 3 eq_refl)).
    split; [right; left; reflexivity | right; reflexivity].
  - apply (proj2 (@standard_normalization_rank3 spec_float Binary64.ops
                    (arange [1; 1; 3]) 1 1 3 eq_refl)).
    intros [_ [H | H]]; discriminate H.
Defined.

(** The scenarios of [normalization_test.py] for [standard_normalization]:
    a float64 image and an int64 image are both scaled. *)
Example standard_normalization_test_bad_image :
  exists out,
    standard_normalization (arange [16; 16; 3]) = Ok out /\
    dtype out = uint8 /\ sum_int out = 97537%Z.
Proof. eexists. split; [vm_compute; reflexivity|]. split; vm_compute; reflexivity. Qed.

(** C10 on the batched layout: a rank-4 array is refused by
    [standard_normalization]. *)
Example standard_normalization_batched :
  standard_normalization (arange [2; 2; 2; 3]) = Raise UnpackError.
Proof. reflexivity. Qed.



Example sentinel_truecolor_image_one_channel :
  sentinel_truecolor_image (arange [16; 16; 1]) 2000 = Raise AssertionError /\
  sentinel_truecolor_image (arange [16; 16; 4]) 2000 = Raise AssertionError.
Proof. split; reflexivity. Qed.

(** The cast at values far from the range of uint8: [-30000000000] gives
    [-3825000000.0], outside the range of int32, and is cast to 0; [-20]
    gives [-2.55], truncated to [-2], and is cast to 254. *)
Example sentinel_truecolor_image_cast :
  sentinel_truecolor_image
    (mk_ndarray [1; 1; 3] int64 [SInt (-30000000000); SInt (-20); SInt 300]) 2000 =
    Ok (mk_ndarray [1; 1; 3] uint8 [SInt 0; SInt 254; SInt 38]).
Proof. vm_compute. reflexivity. Qed.

(** The scenario of [normalization_test.py]: the sum is 37170. *)
Example sentinel_truecolor_image_test_sum :
  exists out,
    sentinel_truecolor_image (arange [16; 16; 3]) 2000 = Ok out /\
    dtype out = uint8 /\ sum_int out = 37170%Z.
Proof. eexists. split; [vm_compute; reflexivity|]. split; vm_compute; reflexivity. Qed.

End NormalizationClaims.

Section RenderClaims.
Import Np Elem Image Examples Binary64.
Open Scope string_scope.

(** C6 at a three-channel image: mode [sentinel] passes the [>= 3] guard,
    the slice [1:4] keeps channels 1 and 2 only, and the output has two
    channels, the input's channels 2 and 1. *)
Theorem render_sentinel_three_channels :
  _render_image_data (arange [1; 1; 3]) "sentinel" =
    Ok (mk_ndarray [1; 1; 2] int64 [SInt 2; SInt 1]).
Proof. reflexivity. Qed.

(** With a fourth channel the same mode returns channels 3, 2 and 1. *)
Example render_sentinel_four_channels_example :
  _render_image_data (arange [1; 1; 4]) "sentinel" =
    Ok (mk_ndarray [1; 1; 3] int64 [SInt 3; SInt 2; SInt 1]).
Proof. reflexivity. Qed.

Lemma render_dtype_and_layout_witness :
  exists out k,
    _render_image_data (arange [16; 16; 4]) "bw" = Ok out /\
    shape out = [16; 16; k] /\ dtype out = float64.
Proof.
  destruct (@render_dtype_and_layout spec_float Binary64.ops (arange [16; 16; 4]) "bw" 16 16
              (or_intror (or_intror (or_intror eq_refl)))
              (or_intror (ex_intro _ 4 (conj (le_S 3 3 (le_n 3)) eq_refl))))
    as (out & k & H1 & H2 & H3).
  exists out, k. repeat split; assumption.
Defined.

(** C7, as the claim states it, fails: an int64 image rendered in mode [bw]
    comes back as float64. *)
Lemma render_bw_integer_dtype_fails :
  exists out,
    _render_image_data (arange [1; 1; 3]) "bw" = Ok out /\
    dtype (arange [1; 1; 3]) = int64 /\
    dtype out = float64 /\ dtype out <> dtype (arange [1; 1; 3]).
Proof.
  eexists. split; [vm_compute; reflexivity|].
  repeat split; try reflexivity. discriminate.
Qed.

(** The scenarios of [image_test.py]: the sums of the first row of the first
    channel of the renderings of [arange(16*16*4).reshape(16,16,4)]. *)
Example render_test_sums :
  let row0 r :=
    match r with
    | Ok out => fold_left Z.add
                  (map (fun j => match at_ (SInt 0) out [0; j; 0] with
                                 | SInt z => z
                                 | SFloat _ => 0%Z
                                 end) (seq 0 16)) 0%Z
    | Raise _ => (-1)%Z
    end in
  row0 (_render_image_data (arange [16; 16; 4]) "rgb") = 480%Z /\
  row0 (_render_image_data (arange [16; 16; 4]) "bgr") = 512%Z /\
  row0 (_render_image_data (arange [16; 16; 4]) "sentinel") = 528%Z.
Proof. cbv zeta. repeat split; vm_compute; reflexivity. Qed.

(** The [bw] scenario: the same sum is 492.96 up to rounding, which checks
    the luma weights 0.30, 0.59 and 0.11. *)
Example render_test_bw_sum :
  exists out,
    _render_image_data (arange [16; 16; 4]) "bw" = Ok out /\
    shape out = [16; 16; 1] /\
    let total :=
      fold_left (fun acc j => fadd acc (to_float (at_ (SInt 0) out [0; j; 0])))
        (seq 0 16) (of_Z 0) in
    SFltb (SFabs (fsub total (of_ratio 49296 100))) (of_ratio 1 10000000) = true.
Proof.
  eexists. split; [vm_compute; reflexivity|]. split; vm_compute; reflexivity.
Qed.

Example render_errors :
  _render_image_data (arange [4; 4; 2]) "rgb" = Raise RenderShapeError /\
  _render_image_data (arange [4; 4; 3]) "hsv" = Raise RenderMethodError /\
  _render_image_data (arange [4]) "rgb" = Raise IndexError.
Proof. repeat split; reflexivity. Qed.

End RenderClaims.

Section FormatClaims.
Import Np Elem Normalization Examples Binary64.

(** C1 at a single-channel image: the reverting [np.squeeze] has no axis
    argument, so it removes the channel axis of length one together with
    the batch axis.  The 2x2x1 image comes back with shape (2, 2), while the
    same image with an explicit batch axis comes back as (1, 2, 2, 1) with
    the same values. *)
Theorem sigmoid_normalization_unit_axis
    (np_exp : spec_float -> spec_float) (c th : spec_float) :
  exists out out_b,
    sigmoid_normalization np_exp (arange [2; 2; 1]) c th last = Ok out /\
    sigmoid_normalization np_exp (expand_dims_first (arange [2; 2; 1])) c th last
      = Ok out_b /\
    shape out_b = [1; 2; 2; 1] /\
    data out_b = data out /\
    shape out = [2; 2].
Proof.
  eexists. eexists. split; [reflexivity|]. split; [reflexivity|].
  repeat split.
Qed.

(** The same in the channel-first layout, and for a row of pixels. *)
Example sigmoid_normalization_unit_axis_first
    (np_exp : spec_float -> spec_float) (c th : spec_float) :
  exists out out1,
    sigmoid_normalization np_exp (arange [1; 2; 2]) c th first = Ok out /\
    shape out = [2; 2] /\
    sigmoid_normalization np_exp (arange [1; 4; 3]) c th last = Ok out1 /\
    shape out1 = [4; 3].
Proof.
  eexists. eexists. split; [reflexivity|]. split; [reflexivity|].
  split; reflexivity.
Qed.

(** C5 at a single-channel image: for every 2x2x1 float64 image and every
    mean and std, [invert_mean_std_normalization] returns the values
    [x * std + mean] in an array of shape (2, 2), not (2, 2, 1). *)
Theorem invert_mean_std_normalization_unit_axis (a b c d m s : spec_float) :
  invert_mean_std_normalization
    (mk_ndarray [2; 2; 1] float64 [SFloat a; SFloat b; SFloat c; SFloat d])
    [m] [s] last =
  Ok (mk_ndarray [2; 2] float64
        [SFloat (fadd (fmul a s) m); SFloat (fadd (fmul b s) m);
         SFloat (fadd (fmul c s) m); SFloat (fadd (fmul d s) m)]).
Proof. reflexivity. Qed.

(** The scenarios of [normalization_test.py] for
    [invert_mean_std_normalization], in both layouts: the sums are
    66907.136 and 66646.016. *)
Example invert_mean_std_normalization_test_sums :
  let mean := [of_ratio 485 1000; of_ratio 456 1000; of_ratio 406 1000] in
  let std := [of_ratio 229 1000; of_ratio 224 1000; of_ratio 225 1000] in
  let total r (n d : Z) :=
    match r with
    | Ok out => close_to (sum_float out) n d
    | Raise _ => false
    end in
  total (invert_mean_std_normalization (arange [16; 16; 3]) mean std last)
    66907136%Z 1000%Z = true /\
  total (invert_mean_std_normalization (arange [3; 16; 16]) mean std first)
    66646016%Z 1000%Z = true.
Proof. cbv zeta. repeat split; vm_compute; reflexivity. Qed.

End FormatClaims.

(* ===================================================================== *)
(** ** The reformatter: apply, then revert *)
(* ===================================================================== *)

Section FormatRoundTrip.
Import Np Elem Normalization.
Context {A : Type} (d : A).

Lemma in_bounds4_inv (idx : list nat) (b c w h : nat) :
  in_bounds idx [b; c; w; h] = true ->
  exists ib ic iw ih, idx = [ib; ic; iw; ih] /\ ib < b /\ ic < c /\ iw < w /\ ih < h.
Proof.
  destruct idx as [|ib [|ic [|iw [|ih [|? ?]]]]]; cbn [in_bounds];
    rewrite ?andb_false_r; try discriminate.
  rewrite andb_true_r, !andb_true_iff, !Nat.ltb_lt. intros (Hb & Hc & Hw & Hh).
  exists ib, ic, iw, ih. auto.
Qed.

Lemma in_bounds4 (ib ic iw ih b c w h : nat) :
  ib < b -> ic < c -> iw < w -> ih < h ->
  in_bounds [ib; ic; iw; ih] [b; c; w; h] = true.
Proof.
  intros Hb Hc Hw Hh. simpl. apply Nat.ltb_lt in Hb, Hc, Hw, Hh.
  rewrite Hb, Hc, Hw, Hh. reflexivity.
Qed.

(** [bcwh->bwhc] followed by [bwhc->bcwh] gives the array back. *)
Lemma einsum_round_trip (a : ndarray A) (b c w h : nat) :
  wf a -> shape a = [b; c; w; h] ->
  exists a',
    einsum_bcwh_bwhc d a = Ok a' /\ shape a' = [b; w; h; c] /\
    einsum_bwhc_bcwh d a' = Ok a.
Proof.
  intros Hwf Hs. unfold einsum_bcwh_bwhc. rewrite Hs.
  eexists. split; [reflexivity|]. split; [reflexivity|].
  unfold einsum_bwhc_bcwh. cbn [shape tabulate dtype].
  f_equal. rewrite <- (tabulate_at d Hwf) at 2. rewrite Hs.
  apply tabulate_ext. intros idx Hb.
  apply in_bounds4_inv in Hb as (ib & ic & iw & ih & -> & Hib & Hic & Hiw & Hih).
  fold (tabulate [b; w; h; c] (dtype a)
          (fun idx => match idx with
                      | [ib; iw; ih; ic] => at_ d a [ib; ic; iw; ih]
                      | _ => d
                      end)).
  rewrite at_tabulate by (apply in_bounds4; assumption).
  reflexivity.
Qed.

Lemma squeeze_expand (a : ndarray A) :
  Forall (fun n => n <> 1) (shape a) -> squeeze (expand_dims_first a) = a.
Proof.
  intro H. destruct a as [s dt l]. unfold squeeze, expand_dims_first. simpl in *.
  f_equal. induction H as [|n s Hn _ IH]; [reflexivity|].
  simpl. apply Nat.eqb_neq in Hn. rewrite Hn. simpl. f_equal. exact IH.
Qed.

Lemma wf_expand (a : ndarray A) : wf a -> wf (expand_dims_first a).
Proof. unfold wf, expand_dims_first; simpl. intro H. rewrite H. lia. Qed.

(** The restore function of [_get_format_fx] inverts its apply function on
    every rank-4 array, and on every rank-3 array none of whose axes has
    length one. *)
Theorem format_round_trip (a : ndarray A) (fmt : channel_format) :
  wf a ->
  length (shape a) = 4 \/
  (length (shape a) = 3 /\ Forall (fun n => n <> 1) (shape a)) ->
  exists canonical,
    fst (_get_format_fx d a fmt) a = Ok canonical /\
    length (shape canonical) = 4 /\
    snd (_get_format_fx d a fmt) canonical = Ok a.
Proof.
  intros Hwf [H4 | [H3 Hne]]; unfold _get_format_fx.
  - rewrite H4. cbn [Nat.eqb fst snd].
    destruct (shape a) as [|b [|c [|w [|h [|? ?]]]]] eqn:Hs; try discriminate H4.
    destruct fmt; unfold _format_array; cbn [bind].
    + exists a. rewrite Hs. repeat split.
    + destruct (einsum_round_trip Hwf Hs) as (a' & E1 & Hs' & E2).
      exists a'. rewrite E1. cbn [bind]. rewrite Hs', E2. repeat split.
  - rewrite H3. cbn [Nat.eqb fst snd].
    destruct (shape a) as [|x [|y [|z [|? ?]]]] eqn:Hs; try discriminate H3.
    destruct fmt; unfold _format_array; cbn [bind].
    + exists (expand_dims_first a). cbn [expand_dims_first shape]. rewrite Hs.
      split; [reflexivity|]. split; [reflexivity|].
      f_equal. apply squeeze_expand. rewrite Hs. exact Hne.
    + assert (Hse : shape (expand_dims_first a) = [1; x; y; z])
        by (cbn [expand_dims_first shape]; rewrite Hs; reflexivity).
      destruct (einsum_round_trip (wf_expand Hwf) Hse) as (a' & E1 & Hs' & E2).
      exists a'. rewrite E1. cbn [bind]. rewrite Hs', E2. cbn [bind].
      split; [reflexivity|]. split; [reflexivity|].
      f_equal. apply squeeze_expand. rewrite Hs. exact Hne.
Qed.

End FormatRoundTrip.

Section Witnesses.
Import Np Elem Normalization Image Examples Binary64 Str Glob Server.
Open Scope string_scope.

Lemma glob_dispatch_witness :
  glob (fun _ _ => true) None (fun _ => ["/data/a.png"]) "gs://bucket/*"
    = Raise NotImplementedError /\
  glob (fun _ _ => true) None (fun _ => ["/data/a.png"]) "/data/*"
    = Ok ["/data/a.png"].
Proof.
  split.
  - apply (proj1 (@glob_dispatch (fun _ _ => true) None (fun _ => ["/data/a.png"])
                    "gs://bucket/*" eq_refl)).
    reflexivity.
  - destruct (proj2 (@glob_dispatch (fun _ _ => true) None (fun _ => ["/data/a.png"])
                       "/data/*" eq_refl) eq_refl) as [H1 H2].
    rewrite H1. exact H2.
Defined.



Lemma render_sentinel_four_channels_witness :
  exists out : ndarray (scalar spec_float),
    _render_image_data (arange [16; 16; 4]) "sentinel" = Ok out /\
    shape out = [16; 16; 3] /\
    at_ (SInt 0) out [0; 1; 0] = SInt 7.
Proof.
  destruct (@render_sentinel_four_channels spec_float Binary64.ops
              (arange [16; 16; 4]) 16 16 4 eq_refl (le_n 4))
    as (out & H1 & H2 & _ & H3).
  exists out. split; [exact H1|]. split; [exact H2|].
  rewrite H3 by (repeat constructor). reflexivity.
Defined.

Lemma format_round_trip_witness :
  exists canonical,
    fst (_get_format_fx zero (arange [3; 2; 2]) first) (arange [3; 2; 2])
      = Ok canonical /\
    length (shape canonical) = 4 /\
    snd (_get_format_fx zero (arange [3; 2; 2]) first) canonical
      = Ok (arange [3; 2; 2]).
Proof.
  apply (@format_round_trip (scalar spec_float) zero (arange [3; 2; 2]) first).
  - reflexivity.
  - right. split; [reflexivity|].
    repeat constructor; discriminate.
Defined.

End Witnesses.

(* ===================================================================== *)
(** ** sigmoid_normalization and the batch axis *)
(* ===================================================================== *)

Section SigmoidBatch.
Import Np Elem Normalization.
Context {F : Type} {FO : FloatOps F}.

(** On a rank-3 image none of whose axes has length one, in the
    channel-last layout, [sigmoid_normalization] returns the values it
    returns for the same image with an explicit batch axis, in the image's
    own shape. *)
Theorem sigmoid_normalization_batch_invariance (np_exp : F -> F)
    (image out_b : ndarray (scalar F)) (c th : F) (h w ch : nat) :
  shape image = [h; w; ch] -> h <> 1 -> w <> 1 -> ch <> 1 ->
  sigmoid_normalization np_exp (expand_dims_first image) c th last = Ok out_b ->
  shape out_b = [1; h; w; ch] /\
  sigmoid_normalization np_exp image c th last =
    Ok (mk_ndarray [h; w; ch] uint8 (data out_b)).
Proof.
  intros Hs Hh Hw Hc. unfold sigmoid_normalization, _get_format_fx.
  cbn [expand_dims_first shape]. rewrite Hs. cbn [length Nat.eqb].
  unfold _format_array. cbn [bind expand_dims_first shape dtype data].
  rewrite Hs.
  destruct (mapM _ _) as [slices|e]; cbn [bind]; [|discriminate].
  intro H. inversion H; subst out_b; clear H.
  split; [reflexivity|].
  unfold map_data, squeeze. cbn [shape dtype data filter].
  apply Nat.eqb_neq in Hh, Hw, Hc. rewrite Hh, Hw, Hc. reflexivity.
Qed.

End SigmoidBatch.

(* ===================================================================== *)
(** ** invert_mean_std_normalization in exact arithmetic *)
(* ===================================================================== *)

Section InvertExact.
Import Np Elem Normalization Pipeline.

Lemma in_bounds_length (idx s : list nat) :
  in_bounds idx s = true -> length idx = length s.
Proof.
  revert s. induction idx as [|i idx IH]; intros [|n s] H; try discriminate;
    [reflexivity|].
  cbn [in_bounds] in H. apply andb_true_iff in H as [_ H].
  cbn [length]. f_equal. apply IH. exact H.
Qed.

Lemma project_combine (s idx : list nat) :
  in_bounds idx s = true ->
  map (fun ni => if fst ni =? 1 then 0 else snd ni) (combine s idx) = idx.
Proof.
  revert idx. induction s as [|n s IH]; intros [|i idx] H; try discriminate;
    [reflexivity|].
  cbn [in_bounds] in H. apply andb_true_iff in H as [Hi Hb].
  apply Nat.ltb_lt in Hi. cbn [combine map fst snd]. f_equal.
  - destruct (n =? 1) eqn:E; [apply Nat.eqb_eq in E; lia | reflexivity].
  - apply IH. exact Hb.
Qed.

Lemma project_same (s idx : list nat) :
  in_bounds idx s = true -> project s idx = idx.
Proof.
  intro H. unfold project. rewrite (in_bounds_length _ _ H), Nat.sub_diag.
  cbn [skipn]. apply project_combine. exact H.
Qed.

Lemma broadcast_shapes_channels (b w h c : nat) :
  broadcast_shapes [b; w; h; c] [1; 1; 1; c] = Some [b; w; h; c].
Proof.
  unfold broadcast_shapes. cbn [rev app broadcast_rev].
  destruct (h =? 1) eqn:Eh; destruct (w =? 1) eqn:Ew; destruct (b =? 1) eqn:Eb;
    cbn [Nat.eqb]; rewrite ?Nat.eqb_refl; reflexivity.
Qed.

Lemma project_channel (c ib iw ih ic : nat) :
  ic < c -> project [1; 1; 1; c] [ib; iw; ih; ic] = [0; 0; 0; ic].
Proof.
  intro H. unfold project. cbn.
  destruct (c =? 1) eqn:E; [apply Nat.eqb_eq in E|]; repeat f_equal; lia.
Qed.

Lemma at_channel_vector {A} (d : A) (l : list A) dt (ic : nat) :
  at_ d (mk_ndarray [1; 1; 1; length l] dt l) [0; 0; 0; ic] = nth ic l d.
Proof. unfold at_. cbn. f_equal. lia. Qed.

Lemma tabulate_map_data {A B} (d : A) (f : A -> B) dt (a : ndarray A) :
  wf a -> tabulate (shape a) dt (fun idx => f (at_ d a idx)) = map_data f dt a.
Proof.
  intro Hwf. unfold map_data. rewrite <- (tabulate_at d Hwf) at 3.
  unfold tabulate. cbn [data shape]. rewrite map_map. reflexivity.
Qed.

(** In exact arithmetic, on a batched channel-last array and with no std
    equal to zero, [invert_mean_std_normalization] gives back the array that
    the "subtract mean, divide by std" pipeline started from. *)
Theorem invert_mean_std_normalization_exact
    (x : ndarray Qc) (mean std : list Qc) (b w h c : nat) :
  wf x -> shape x = [b; w; h; c] ->
  length mean = c -> length std = c ->
  Forall (fun s => s <> Q2Qc 0) std ->
  invert_mean_std_normalization (FO := exact)
    (subtract_mean_divide_std (FO := exact) x mean std) mean std last
  = Ok (map_data (@SFloat Qc) float64 x).
Proof.
  intros Hwf Hs Hm Hsd Hnz.
  unfold invert_mean_std_normalization, _get_format_fx, subtract_mean_divide_std.
  rewrite shape_tabulate, Hs. cbn [length Nat.eqb].
  unfold _format_array. cbn [bind].
  unfold broadcast2. cbn [shape]. rewrite shape_tabulate, Hm, Hsd.
  rewrite broadcast_shapes_channels. cbn [bind].
  rewrite shape_tabulate, broadcast_shapes_channels. cbn [bind].
  rewrite <- (tabulate_map_data (Q2Qc 0) (@SFloat Qc) float64 Hwf). rewrite Hs.
  f_equal. apply tabulate_ext. intros idx Hb.
  rewrite (@project_same _ _ Hb). rewrite at_tabulate by exact Hb.
  rewrite (@project_same _ _ Hb). rewrite at_tabulate by exact Hb.
  apply in_bounds4_inv in Hb as (ib & iw & ih & ic & -> & Hib & Hiw & Hih & Hic).
  rewrite (@project_channel _ ib iw ih _ Hic).
  subst c. rewrite <- Hsd at 1. rewrite !at_channel_vector.
  cbn [List.last to_float].
  assert (Hne : nth ic std (@of_Z Qc exact 0) <> Q2Qc 0).
  { rewrite Forall_forall in Hnz. apply Hnz. apply nth_In. lia. }
  f_equal. cbn [fadd fmul fdiv fsub exact Rounded.ops].
  change (@of_Z Qc exact 0) with (Q2Qc 0) in *.
  field. exact Hne.
Qed.

End InvertExact.

Section MoreWitnesses.
Import Np Elem Normalization Examples Binary64 Pipeline.

Lemma sigmoid_normalization_batch_invariance_witness :
  exists out_b,
    sigmoid_normalization exp_first_order (expand_dims_first (arange [2; 2; 3]))
      (of_Z 10) (of_ratio 1 8) last = Ok out_b /\
    shape out_b = [1; 2; 2; 3] /\
    sigmoid_normalization exp_first_order (arange [2; 2; 3])
      (of_Z 10) (of_ratio 1 8) last
      = Ok (mk_ndarray [2; 2; 3] uint8 (data out_b)).
Proof.
  eexists. split; [vm_compute; reflexivity|].
  apply (@sigmoid_normalization_batch_invariance spec_float Binary64.ops
           exp_first_order (arange [2; 2; 3]) _ (of_Z 10) (of_ratio 1 8) 2 2 3);
    [reflexivity | discriminate | discriminate | discriminate
    | vm_compute; reflexivity].
Defined.

Lemma invert_mean_std_normalization_exact_witness :
  let q (n d : Z) : Qc := Q2Qc (Qmake n (Z.to_pos d)) in
  let x := mk_ndarray [1; 1; 2; 2] float64 [q 1 1; q 2 1; q 3 1; q 4 1]%Z in
  let mean := [q 1 2; q 1 1]%Z in
  let std := [q 2 1; q 1 3]%Z in
  invert_mean_std_normalization (FO := exact)
    (subtract_mean_divide_std (FO := exact) x mean std) mean std last
  = Ok (map_data (@SFloat Qc) float64 x).
Proof.
  cbv zeta.
  apply (@invert_mean_std_normalization_exact _ _ _ 1 1 2 2);
    [reflexivity | reflexivity | reflexivity | reflexivity |].
  repeat constructor; intro H; apply Q2Qc_eq_iff in H; discriminate H.
Defined.

End MoreWitnesses.

(* ===================================================================== *)
(** ** exists and the route handler *)
(* ===================================================================== *)

Section Exists.
Import Str Glob FileExists Server.
Open Scope string_scope.

Variable fnmatch : string -> string -> bool.
Variable boto3 : option (string -> string -> result (list (option (list string)))).
Variable sys_glob : string -> list string.
Variable smart_open : string -> result unit.
Variable os_path_exists : string -> bool.

(** An S3 "folder" exists as soon as the listing under it has an item, also
    when no object has the folder's own key. *)
Theorem aws_folder_exists (path item : string) (items : list string) :
  smart_open path = Ok tt \/ smart_open path = Raise OSError ->
  glob fnmatch boto3 sys_glob (os_path_join path "*") = Ok (item :: items) ->
  _aws_exists fnmatch boto3 sys_glob smart_open path = Ok true.
Proof.
  intros [Hopen | Hopen] Hglob; unfold _aws_exists; rewrite Hopen; cbn [bind];
    rewrite Hglob; reflexivity.
Qed.

(** The handler resolves the rewritten path, and answers with an empty
    body when it does not exist. *)
Lemma read_and_render_image_missing (bytes : Type)
    (exists_ : string -> result bool) (read_and_encode : string -> result bytes)
    (path : string) :
  exists_ (rewrite_path path) = Ok false ->
  read_and_render_image exists_ read_and_encode path = Ok None.
Proof.
  intro H. unfold read_and_render_image. rewrite H. reflexivity.
Qed.

End Exists.

Section ExistsWitness.
Import Str Glob FileExists.
Open Scope string_scope.

(** The scenario of the spec: the bucket holds [folder/cat.png] and no
    object at [folder] itself. *)
Lemma aws_folder_exists_witness :
  _aws_exists
    (fun filename pattern => String.prefix "s3://path/folder/" filename)
    (Some (fun bucket prefix => Ok [Some ["folder/cat.png"]]))
    (fun _ => [])
    (fun _ => Raise OSError)
    "s3://path/folder" = Ok true.
Proof.
  apply (@aws_folder_exists
           (fun filename pattern => String.prefix "s3://path/folder/" filename)
           (Some (fun bucket prefix => Ok [Some ["folder/cat.png"]]))
           (fun _ => [])
           (fun _ => Raise OSError)
           "s3://path/folder" "s3://path/folder/cat.png" []);
    [right; reflexivity | reflexivity].
Defined.

End ExistsWitness.

(* ===================================================================== *)
(** ** sigmoid_normalization and the channel layout *)
(* ===================================================================== *)

Section SigmoidLayout.
Import Np Elem Normalization.
Context {F : Type} {FO : FloatOps F}.

Lemma length_concat_chunks {B} (n k : nat) (l : list B) :
  length l = n * k -> length (concat (chunks n k l)) = n * k.
Proof.
  revert l. induction n as [|n IH]; intros l H; [reflexivity|].
  cbn [chunks concat]. rewrite length_app, length_firstn, IH.
  - simpl in H |- *. lia.
  - rewrite length_skipn. simpl in H. lia.
Qed.

Lemma sigmoid_slice_length (np_exp : F -> F) (c th : F) dt (px ys : list (scalar F)) :
  sigmoid_slice np_exp c th dt px = Ok ys -> length ys = length px.
Proof.
  unfold sigmoid_slice.
  destruct (np_nanmin px); cbn [bind]; [|discriminate].
  destruct (np_nanmax px); cbn [bind]; [|discriminate].
  destruct (DType_eqb dt bool_); [discriminate|].
  intro H. inversion H. apply length_map.
Qed.

Lemma mapM_concat_length {B C} (f : B -> result (list C)) (g : B -> nat)
    (l : list B) (ys : list (list C)) :
  (forall x y, f x = Ok y -> length y = g x) ->
  mapM f l = Ok ys ->
  length (concat ys) = list_sum (map g l).
Proof.
  intro Hf. unfold list_sum. revert ys. induction l as [|x l IH]; intros ys H.
  - inversion H. reflexivity.
  - cbn [mapM] in H. destruct (f x) as [y|] eqn:Ey; cbn [bind] in H; [|discriminate].
    destruct (mapM f l) as [ys'|]; cbn [bind] in H; [|discriminate].
    inversion H; subst ys. cbn [concat map fold_right].
    rewrite length_app, (Hf x y Ey), (IH ys' eq_refl). reflexivity.
Qed.

Lemma list_sum_lengths_concat {B} (ls : list (list B)) :
  list_sum (map (@length B) ls) = length (concat ls).
Proof.
  unfold list_sum. induction ls as [|l ls IH]; [reflexivity|].
  cbn [map fold_right concat]. rewrite length_app, IH. reflexivity.
Qed.

(** [bwhc->bcwh] commutes with an elementwise map. *)
Lemma einsum_map_data {A B} (d : A) (d' : B) (f : A -> B) dt (a a' : ndarray A) :
  wf a ->
  einsum_bwhc_bcwh d a = Ok a' ->
  einsum_bwhc_bcwh d' (map_data f dt a) = Ok (map_data f dt a').
Proof.
  intros Hwf. unfold einsum_bwhc_bcwh. cbn [map_data shape dtype].
  destruct (shape a) as [|b [|w [|h [|c [|? ?]]]]] eqn:Hs; try discriminate.
  intro H. inversion H; subst a'; clear H. f_equal.
  unfold map_data at 2. cbn [tabulate shape data]. unfold tabulate.
  f_equal. rewrite map_map. apply map_ext_in. intros idx Hin.
  apply in_indices, in_bounds4_inv in Hin
    as (ib & ic & iw & ih & -> & Hb & Hc & Hw & Hh).
  apply (@at_map_data _ _ d d' f dt a _ Hwf). rewrite Hs.
  apply in_bounds4; assumption.
Qed.

(** On a batched channel-first array, [sigmoid_normalization] returns the
    result for the equivalent channel-last array, permuted back. *)
Theorem sigmoid_normalization_channel_first (np_exp : F -> F)
    (x : ndarray (scalar F)) (c th : F) (b ch w h : nat) :
  wf x -> shape x = [b; ch; w; h] ->
  exists x_last,
    einsum_bcwh_bwhc zero x = Ok x_last /\
    forall out_last,
      sigmoid_normalization np_exp x_last c th last = Ok out_last ->
      exists out_first,
        sigmoid_normalization np_exp x c th first = Ok out_first /\
        einsum_bwhc_bcwh zero out_last = Ok out_first.
Proof.
  intros Hwf Hs.
  destruct (einsum_round_trip zero Hwf Hs) as (x_last & E1 & Hs' & _).
  exists x_last. split; [exact E1|].
  intros out_last. unfold sigmoid_normalization, _get_format_fx.
  rewrite Hs, Hs'. cbn [length Nat.eqb]. unfold _format_array. cbn [bind].
  rewrite E1. cbn [bind]. rewrite Hs'.
  destruct (mapM _ _) as [slices|e] eqn:Em; cbn [bind]; [|discriminate].
  intro H. inversion H; subst out_last; clear H.
  set (normalized := mk_ndarray [b; w; h; ch] _ (concat slices)).
  assert (Hwfn : wf normalized).
  { unfold wf, normalized. cbn [data shape size fold_right].
    rewrite (mapM_concat_length _ (@length (scalar F)) _
               (fun px ys => @sigmoid_slice_length np_exp c th _ px ys) Em).
    rewrite list_sum_lengths_concat.
    assert (Hl : length (data x_last) = b * (w * h * ch)).
    { unfold einsum_bcwh_bwhc in E1. rewrite Hs in E1. inversion E1.
      cbn [tabulate data]. rewrite length_map, length_indices.
      cbn [size fold_right]. lia. }
    rewrite (length_concat_chunks b (w * h * ch) _ Hl). lia. }
  destruct (einsum_bwhc_bcwh zero normalized) as [reverted|e] eqn:Er.
  - cbn [bind]. eexists. split; [reflexivity|].
    apply (einsum_map_data zero zero astype_uint8 uint8 Hwfn Er).
  - unfold einsum_bwhc_bcwh, normalized in Er. cbn [shape] in Er. discriminate.
Qed.

End SigmoidLayout.

Section SigmoidLayoutWitness.
Import Np Elem Normalization Examples Binary64 Pipeline.

Lemma sigmoid_normalization_channel_first_witness :
  exists x_last out_last out_first,
    einsum_bcwh_bwhc zero (arange [1; 3; 2; 2]) = Ok x_last /\
    sigmoid_normalization exp_first_order x_last (of_Z 10) (of_ratio 1 8) last
      = Ok out_last /\
    sigmoid_normalization exp_first_order (arange [1; 3; 2; 2])
      (of_Z 10) (of_ratio 1 8) first = Ok out_first /\
    einsum_bwhc_bcwh zero out_last = Ok out_first.
Proof.
  destruct (@sigmoid_normalization_channel_first spec_float Binary64.ops
              exp_first_order (arange [1; 3; 2; 2]) (of_Z 10) (of_ratio 1 8)
              1 3 2 2 (wf_arange _) eq_refl) as (x_last & E1 & H).
  vm_compute in E1. inversion E1; subst x_last; clear E1.
  edestruct H as (out_first & H1 & H2); [vm_compute; reflexivity|].
  eexists. eexists. exists out_first.
  split; [vm_compute; reflexivity|].
  split; [vm_compute; reflexivity|].
  split; [exact H1 | exact H2].
Defined.

End SigmoidLayoutWitness.

(* ===================================================================== *)
(** ** _render_image_data: the pixels of each mode *)
(* ===================================================================== *)

Section RenderPixels.
Import Np Elem Image.
Open Scope string_scope.
Context {F : Type} {FO : FloatOps F}.

Lemma in_bounds3_inv (idx : list nat) (h w c : nat) :
  in_bounds idx [h; w; c] = true ->
  exists i j k, idx = [i; j; k] /\ (i < h /\ j < w /\ k < c)%nat.
Proof.
  destruct idx as [|i [|j [|k [|? ?]]]]; cbn [in_bounds];
    rewrite ?andb_false_r; try discriminate.
  rewrite andb_true_r, !andb_true_iff, !Nat.ltb_lt. intros (Hi & Hj & Hk).
  exists i, j, k. auto.
Qed.

Lemma shape_slice_three {A} (d : A) (a : ndarray A) (h w c : nat) :
  shape a = [h; w; c] -> (3 <= c)%nat -> shape (slice_axis2 d 0 3 a) = [h; w; 3].
Proof.
  intros Hs Hc. unfold slice_axis2, tabulate. rewrite Hs. cbn [nth set_axis shape].
  do 3 f_equal. lia.
Qed.

(** Modes [rgb] and [bgr] on a rank-3 array with at least three channels:
    three channels, the input's channels 0, 1, 2 in this order for [rgb]
    and in the order 2, 1, 0 for [bgr]; every further channel is dropped. *)
Theorem render_rgb_bgr_pixels (data : ndarray (scalar F)) (h w c : nat) :
  shape data = [h; w; c] -> (3 <= c)%nat ->
  exists rgb bgr,
    _render_image_data data "rgb" = Ok rgb /\
    _render_image_data data "bgr" = Ok bgr /\
    shape rgb = [h; w; 3] /\ shape bgr = [h; w; 3] /\
    dtype rgb = dtype data /\ dtype bgr = dtype data /\
    forall i j k, (i < h)%nat -> (j < w)%nat -> (k < 3)%nat ->
      at_ (SInt 0) rgb [i; j; k] = at_ (SInt 0) data [i; j; k] /\
      at_ (SInt 0) bgr [i; j; k] = at_ (SInt 0) data [i; j; 2 - k].
Proof.
  intros Hs Hc. unfold _render_image_data. rewrite Hs.
  cbn [length Nat.eqb nth_error].
  assert (E : (3 <=? c)%nat = true) by (apply Nat.leb_le; exact Hc). rewrite E.
  change (String.eqb "rgb" "rgb") with true.
  change (String.eqb "bgr" "rgb") with false.
  change (String.eqb "bgr" "bgr") with true. cbv iota.
  pose proof (shape_slice_three (SInt 0 : scalar F) data Hs Hc) as Hsl.
  eexists. eexists. split; [reflexivity|]. split; [reflexivity|].
  split; [exact Hsl|]. split; [exact Hsl|]. split; [reflexivity|].
  split; [reflexivity|].
  intros i j k Hi Hj Hk.
  assert (Hk3 : (k < 3 - 0)%nat) by lia.
  assert (Hk3' : (3 - 1 - k < 3 - 0)%nat) by lia.
  destruct (at_slice_axis2 (SInt 0 : scalar F) data (lo := 0) (hi := 3) Hs
              ltac:(lia) Hc Hi Hj Hk3) as [_ E1].
  destruct (at_slice_axis2 (SInt 0 : scalar F) data (lo := 0) (hi := 3) Hs
              ltac:(lia) Hc Hi Hj Hk3') as [_ E2].
  split.
  - rewrite E1. do 4 f_equal. lia.
  - rewrite (at_reverse_axis2 _ _ Hsl Hi Hj Hk), E2. do 4 f_equal. lia.
Qed.

(** Rendering in mode [bgr] twice gives the rendering in mode [rgb]. *)
Theorem render_bgr_twice (data : ndarray (scalar F)) (h w c : nat) :
  shape data = [h; w; c] -> (3 <= c)%nat ->
  exists bgr,
    _render_image_data data "bgr" = Ok bgr /\
    _render_image_data bgr "bgr" = _render_image_data data "rgb".
Proof.
  intros Hs Hc.
  pose proof (shape_slice_three (SInt 0 : scalar F) data Hs Hc) as Hsl.
  assert (E : (3 <=? c)%nat = true) by (apply Nat.leb_le; exact Hc).
  exists (reverse_axis2 (SInt 0) (slice_axis2 (SInt 0) 0 3 data)). split.
  - unfold _render_image_data. rewrite Hs. cbn [length Nat.eqb nth_error]. rewrite E.
    reflexivity.
  - set (sl := slice_axis2 (SInt 0 : scalar F) 0 3 data) in *.
    set (bgr := reverse_axis2 (SInt 0 : scalar F) sl).
    assert (Hsb : shape bgr = [h; w; 3]) by (unfold bgr, reverse_axis2; exact Hsl).
    unfold _render_image_data at 1. rewrite Hsb. cbn [length Nat.eqb nth_error Nat.leb].
    change (String.eqb "bgr" "rgb") with false.
    change (String.eqb "bgr" "bgr") with true. cbv iota.
    unfold _render_image_data. rewrite Hs. cbn [length Nat.eqb nth_error]. rewrite E.
    change (String.eqb "rgb" "rgb") with true. cbv iota. f_equal. fold sl.
    assert (Hwf : wf sl) by apply wf_tabulate.
    transitivity (tabulate (shape sl) (dtype sl) (at_ (SInt 0 : scalar F) sl));
      [|apply tabulate_at; exact Hwf].
    rewrite Hsl.
    assert (Hsl2 : shape (slice_axis2 (SInt 0 : scalar F) 0 3 bgr) = [h; w; 3])
      by (apply (shape_slice_three _ _ Hsb); lia).
    unfold reverse_axis2 at 1. rewrite Hsl2. cbn [nth].
    assert (Hd : dtype (slice_axis2 (SInt 0 : scalar F) 0 3 bgr) = dtype sl) by reflexivity.
    rewrite Hd. apply tabulate_ext. intros idx Hb.
    apply in_bounds3_inv in Hb as (i & j & k & -> & Hi & Hj & Hk).
    cbn [nth set_axis].
    assert (Hk' : (3 - 1 - k < 3 - 0)%nat) by lia.
    destruct (at_slice_axis2 (SInt 0 : scalar F) bgr (lo := 0) (hi := 3) Hsb
                ltac:(lia) ltac:(lia) Hi Hj Hk') as [_ ->].
    unfold bgr.
    rewrite (at_reverse_axis2 (SInt 0 : scalar F) sl Hsl Hi Hj (k := 3 - 1 - k + 0))
      by lia.
    do 4 f_equal. lia.
Qed.

End RenderPixels.

Section RenderLuma.
Import Np Elem Image.
Open Scope string_scope.
Context {F : Type} {FO : FloatOps F}.

Lemma at_expand_dims_last {A} (d : A) (a : ndarray A) (h w i j : nat) :
  shape a = [h; w] -> at_ d (expand_dims_last a) [i; j; 0%nat] = at_ d a [i; j].
Proof.
  intro Hs. unfold at_, expand_dims_last. cbn [shape data]. rewrite Hs.
  cbn [app offset size fold_right].
  replace (i * (w * (1 * 1)) + (j * (1 * 1) + (0 * 1 + 0)))%nat
    with (i * (w * 1) + (j * 1 + 0))%nat by lia.
  reflexivity.
Qed.

Lemma at_index_axis2 {A} (d : A) (a : ndarray A) (h w c i j k : nat) :
  shape a = [h; w; c] -> (i < h)%nat -> (j < w)%nat ->
  at_ d (index_axis2 d k a) [i; j] = at_ d a [i; j; k].
Proof.
  intros Hs Hi Hj. unfold index_axis2. rewrite Hs. cbn [drop_axis].
  rewrite at_tabulate by (apply in_bounds2; assumption). reflexivity.
Qed.

Lemma at_map2_data {A B C} (da : A) (db : B) (dc : C) (f : A -> B -> C) dt
    (a : ndarray A) (b : ndarray B) (idx : list nat) :
  wf a -> wf b -> shape b = shape a -> in_bounds idx (shape a) = true ->
  at_ dc (map2_data f dt a b) idx = f (at_ da a idx) (at_ db b idx).
Proof.
  unfold wf, at_, map2_data. cbn [shape data]. intros Ha Hb Hs Hin.
  rewrite Hs. pose proof (offset_lt _ _ Hin) as Hlt.
  assert (Hl : length (data a) = length (data b)) by (rewrite Ha, Hb, Hs; reflexivity).
  rewrite (nth_indep _ dc (f (fst (da, db)) (snd (da, db)))).
  - rewrite (map_nth (fun p => f (fst p) (snd p)) (combine (data a) (data b)) (da, db)).
    rewrite (combine_nth _ _ _ da db Hl). reflexivity.
  - rewrite length_map, length_combine, <- Hl, Nat.min_id, Ha. exact Hlt.
Qed.

Lemma wf_map2_data {A B C} (f : A -> B -> C) dt (a : ndarray A) (b : ndarray B) :
  wf a -> wf b -> shape b = shape a -> wf (map2_data f dt a b).
Proof.
  unfold wf, map2_data. cbn [shape data]. intros Ha Hb Hs.
  rewrite length_map, length_combine, Hb, Hs, <- Ha, Nat.min_id. reflexivity.
Qed.

(** Mode [bw] on a rank-3 array with at least three channels: one channel,
    the luma [(0.30 * ch0 + 0.59 * ch1) + 0.11 * ch2] of each pixel, with
    the weights and every operation in the dtype of the result. *)
Theorem render_bw_pixels (data : ndarray (scalar F)) (h w c : nat) :
  shape data = [h; w; c] -> (3 <= c)%nat ->
  exists out,
    _render_image_data data "bw" = Ok out /\
    shape out = [h; w; 1%nat] /\
    dtype out = result_type_pyfloat (dtype data) /\
    forall i j, (i < h)%nat -> (j < w)%nat ->
      at_ (SInt 0) out [i; j; 0%nat] =
        let r := fround (result_type_pyfloat (dtype data)) in
        let weigh n k :=
          r (fmul (r (of_ratio n 100)) (to_float (at_ (SInt 0) data [i; j; k]))) in
        SFloat (r (fadd (r (fadd (weigh 30%Z 0%nat) (weigh 59%Z 1%nat)))
                     (weigh 11%Z 2%nat))).
Proof.
  intros Hs Hc. unfold _render_image_data. rewrite Hs.
  cbn [length Nat.eqb nth_error].
  assert (E : (3 <=? c)%nat = true) by (apply Nat.leb_le; exact Hc). rewrite E.
  change (String.eqb "bw" "rgb") with false.
  change (String.eqb "bw" "bgr") with false.
  change (String.eqb "bw" "sentinel") with false.
  change (String.eqb "bw" "bw") with true. cbv iota.
  set (ch := fun k => index_axis2 (SInt 0 : scalar F) k data).
  assert (Hch : forall k, shape (ch k) = [h; w] /\ wf (ch k) /\ dtype (ch k) = dtype data).
  { intro k. unfold ch, index_axis2. rewrite Hs. cbn [drop_axis].
    split; [reflexivity|]. split; [apply wf_tabulate | reflexivity]. }
  set (rdt := result_type_pyfloat (dtype data)).
  assert (Hmul : forall n k,
            shape (pyfloat_mul (of_ratio n 100) (ch k)) = [h; w] /\
            wf (pyfloat_mul (of_ratio n 100) (ch k)) /\
            dtype (pyfloat_mul (of_ratio n 100) (ch k)) = rdt).
  { intros n k. destruct (Hch k) as (H1 & H2 & H3). unfold pyfloat_mul.
    split; [exact H1|]. split; [apply wf_map_data; exact H2|].
    cbn [map_data dtype]. rewrite H3. reflexivity. }
  set (a0 := pyfloat_mul (of_ratio 30 100) (ch 0%nat)) in *.
  set (a1 := pyfloat_mul (of_ratio 59 100) (ch 1%nat)) in *.
  set (a2 := pyfloat_mul (of_ratio 11 100) (ch 2%nat)) in *.
  destruct (Hmul 30%Z 0%nat) as (S0 & W0 & D0).
  destruct (Hmul 59%Z 1%nat) as (S1 & W1 & D1).
  destruct (Hmul 11%Z 2%nat) as (S2 & W2 & D2).
  fold a0 in S0, W0, D0. fold a1 in S1, W1, D1. fold a2 in S2, W2, D2.
  assert (S01 : shape (float_add a0 a1) = [h; w]) by exact S0.
  assert (W01 : wf (float_add a0 a1))
    by (apply wf_map2_data; [exact W0 | exact W1 | rewrite S0, S1; reflexivity]).
  assert (D01 : dtype (float_add a0 a1) = rdt) by exact D0.
  set (luma := float_add (float_add a0 a1) a2).
  assert (SL : shape luma = [h; w]) by exact S0.
  assert (WL : wf luma)
    by (apply wf_map2_data; [exact W01 | exact W2 | rewrite S01, S2; reflexivity]).
  assert (DL : dtype luma = rdt) by exact D0.
  exists (expand_dims_last (map_data (@SFloat F) (dtype luma) luma)).
  split; [reflexivity|].
  split; [cbn [expand_dims_last map_data shape]; rewrite SL; reflexivity|].
  split; [exact DL|].
  intros i j Hi Hj. cbv zeta.
  pose proof (in_bounds2 Hi Hj) as Hb.
  rewrite (@at_expand_dims_last _ (SInt 0 : scalar F)
             (map_data (@SFloat F) (dtype luma) luma) h w i j SL).
  rewrite (at_map_data (of_Z 0) (SInt 0 : scalar F));
    [| exact WL | rewrite SL; exact Hb].
  f_equal. unfold luma, float_add at 1.
  rewrite (at_map2_data (of_Z 0) (of_Z 0) (of_Z 0));
    [| exact W01 | exact W2 | rewrite S01, S2; reflexivity | rewrite S01; exact Hb].
  rewrite D01. unfold float_add at 1.
  rewrite (at_map2_data (of_Z 0) (of_Z 0) (of_Z 0));
    [| exact W0 | exact W1 | rewrite S0, S1; reflexivity | rewrite S0; exact Hb].
  rewrite D0.
  unfold a0, a1, a2, pyfloat_mul.
  destruct (Hch 0%nat) as (C0 & V0 & T0).
  destruct (Hch 1%nat) as (C1 & V1 & T1).
  destruct (Hch 2%nat) as (C2 & V2 & T2).
  rewrite !(at_map_data (SInt 0 : scalar F) (of_Z 0)) by
    (first [exact V0 | exact V1 | exact V2
           | rewrite C0; exact Hb | rewrite C1; exact Hb | rewrite C2; exact Hb]).
  rewrite T0, T1, T2. fold rdt. unfold ch.
  rewrite !(at_index_axis2 (SInt 0 : scalar F) data _ Hs Hi Hj).
  reflexivity.
Qed.

End RenderLuma.

(* ===================================================================== *)
(** ** _render_image_data: what is refused, and read_image *)
(* ===================================================================== *)

Section RenderEdges.
Import Np Elem Normalization Image App.
Open Scope string_scope.
Context {F : Type} {FO : FloatOps F}.

Lemma eqb_mode_false (mode m : string) : mode <> m -> String.eqb mode m = false.
Proof. intro H. apply String.eqb_neq. exact H. Qed.

(** The order of the checks in [_render_image_data]: a rank-2 array is
    expanded whatever the render method says, also for a method that does
    not exist; a rank below 2 is an index error; on a higher rank fewer than
    three entries on axis 2 are refused before the method is looked at; and
    an unknown method is refused only then. *)
Theorem render_order_of_checks (data : ndarray (scalar F)) (mode : string) :
  (length (shape data) = 2%nat ->
   _render_image_data data mode = Ok (expand_dims_last data)) /\
  ((length (shape data) < 2)%nat ->
   _render_image_data data mode = Raise IndexError) /\
  (forall c, nth_error (shape data) 2 = Some c -> (c < 3)%nat ->
   _render_image_data data mode = Raise RenderShapeError) /\
  (forall c, nth_error (shape data) 2 = Some c -> (3 <= c)%nat -> ~ valid_mode mode ->
   _render_image_data data mode = Raise RenderMethodError).
Proof.
  unfold _render_image_data. repeat split.
  - intro H. rewrite H. reflexivity.
  - intro H. destruct (shape data) as [|? [|? ?]]; cbn in H |- *; try reflexivity; lia.
  - intros c Hn Hc.
    assert (H2 : (length (shape data) =? 2)%nat = false).
    { apply Nat.eqb_neq. intro E.
      destruct (shape data) as [|? [|? [|? ?]]]; try discriminate E. discriminate Hn. }
    rewrite H2, Hn.
    assert (E : (3 <=? c)%nat = false) by (apply Nat.leb_gt; exact Hc).
    rewrite E. reflexivity.
  - intros c Hn Hc Hm.
    assert (H2 : (length (shape data) =? 2)%nat = false).
    { apply Nat.eqb_neq. intro E.
      destruct (shape data) as [|? [|? [|? ?]]]; try discriminate E. discriminate Hn. }
    rewrite H2, Hn.
    assert (E : (3 <=? c)%nat = true) by (apply Nat.leb_le; exact Hc).
    rewrite E. unfold valid_mode in Hm.
    rewrite !eqb_mode_false by (intro; subst; apply Hm; auto).
    reflexivity.
Qed.

(** The shape and dtype of each rendering, with the channel count. *)
Lemma render_results (data : ndarray (scalar F)) (h w c : nat) :
  shape data = [h; w; c] -> (3 <= c)%nat ->
  (exists out, _render_image_data data "rgb" = Ok out /\
               shape out = [h; w; 3%nat] /\ dtype out = dtype data) /\
  (exists out, _render_image_data data "bgr" = Ok out /\
               shape out = [h; w; 3%nat] /\ dtype out = dtype data) /\
  (exists out, _render_image_data data "sentinel" = Ok out /\
               shape out = [h; w; (Nat.min 4 c - 1)%nat] /\ dtype out = dtype data) /\
  (exists out, _render_image_data data "bw" = Ok out /\
               shape out = [h; w; 1%nat] /\
               dtype out = result_type_pyfloat (dtype data)).
Proof.
  intros Hs Hc. unfold _render_image_data. rewrite Hs.
  cbn [length Nat.eqb nth_error].
  assert (E : (3 <=? c)%nat = true) by (apply Nat.leb_le; exact Hc). rewrite E.
  pose proof (shape_slice_three (SInt 0 : scalar F) data Hs Hc) as Hsl.
  repeat split.
  - eexists. split; [reflexivity|]. split; [exact Hsl | reflexivity].
  - eexists. split; [reflexivity|]. split; [exact Hsl | reflexivity].
  - eexists. split; [reflexivity|]. split; [|reflexivity].
    unfold reverse_axis2, slice_axis2, tabulate. rewrite Hs. cbn [nth set_axis shape].
    do 3 f_equal. lia.
  - eexists. split; [reflexivity|]. split; [|reflexivity].
    unfold expand_dims_last, map_data, float_add, map2_data, pyfloat_mul, index_axis2,
      tabulate.
    cbn [shape dtype]. rewrite Hs. reflexivity.
Qed.

End RenderEdges.

Section RenderWitnesses.
Import Np Elem Image Examples Binary64.
Open Scope string_scope.

Lemma render_rgb_bgr_pixels_witness :
  exists rgb bgr : ndarray (scalar spec_float),
    _render_image_data (arange [2; 2; 4]) "rgb" = Ok rgb /\
    _render_image_data (arange [2; 2; 4]) "bgr" = Ok bgr /\
    at_ (SInt 0) rgb [0; 1; 0]%nat = SInt 4 /\
    at_ (SInt 0) bgr [0; 1; 0]%nat = SInt 6.
Proof.
  destruct (@render_rgb_bgr_pixels spec_float Binary64.ops (arange [2; 2; 4]) 2 2 4
              eq_refl (le_S _ _ (le_n 3)))
    as (rgb & bgr & H1 & H2 & _ & _ & _ & _ & H).
  exists rgb, bgr. split; [exact H1|]. split; [exact H2|].
  destruct (H 0%nat 1%nat 0%nat (le_S _ _ (le_n 1)) (le_n 2) (le_S _ _ (le_S _ _ (le_n 1))))
    as [E1 E2].
  rewrite E1, E2. split; reflexivity.
Defined.

Lemma render_bgr_twice_witness :
  exists bgr : ndarray (scalar spec_float),
    _render_image_data (arange [2; 2; 4]) "bgr" = Ok bgr /\
    _render_image_data bgr "bgr" = _render_image_data (arange [2; 2; 4]) "rgb".
Proof.
  exact (@render_bgr_twice spec_float Binary64.ops (arange [2; 2; 4]) 2 2 4
           eq_refl (le_S _ _ (le_n 3))).
Defined.

Lemma render_bw_pixels_witness :
  exists out : ndarray (scalar spec_float),
    _render_image_data (arange [2; 2; 3]) "bw" = Ok out /\
    shape out = [2; 2; 1]%nat /\ dtype out = float64 /\
    close_to (to_float (at_ (SInt 0) out [0; 1; 0]%nat)) 381 100 = true.
Proof.
  destruct (@render_bw_pixels spec_float Binary64.ops (arange [2; 2; 3]) 2 2 3
              eq_refl (le_n 3))
    as (out & H1 & H2 & H3 & H).
  exists out. split; [exact H1|]. split; [exact H2|]. split; [exact H3|].
  rewrite (H 0%nat 1%nat (le_S _ _ (le_n 1)) (le_n 2)). vm_compute. reflexivity.
Defined.

Lemma render_order_of_checks_witness :
  _render_image_data (arange [4; 4]) "hsv" = Ok (expand_dims_last (arange [4; 4])) /\
  _render_image_data (arange [4]) "rgb" = Raise IndexError /\
  _render_image_data (arange [4; 4; 2]) "hsv" = Raise RenderShapeError /\
  _render_image_data (arange [4; 4; 3]) "hsv" = Raise RenderMethodError.
Proof.
  split; [|split; [|split]].
  - exact (proj1 (@render_order_of_checks spec_float Binary64.ops (arange [4; 4]) "hsv")
             eq_refl).
  - exact (proj1 (proj2 (@render_order_of_checks spec_float Binary64.ops (arange [4]) "rgb"))
             (le_n 2)).
  - exact (proj1 (proj2 (proj2 (@render_order_of_checks spec_float Binary64.ops
                                  (arange [4; 4; 2]) "hsv")))
             2%nat eq_refl (le_n 3)).
  - refine (proj2 (proj2 (proj2 (@render_order_of_checks spec_float Binary64.ops
                                   (arange [4; 4; 3]) "hsv")))
              3%nat eq_refl (le_n 3) _).
    unfold valid_mode. intros [H | [H | [H | H]]]; discriminate H.
Defined.

End RenderWitnesses.

(* ===================================================================== *)
(** ** read_image: rendering followed by a normalization *)
(* ===================================================================== *)

Section ReadImage.
Import Np Elem Normalization Image Str App.
Open Scope string_scope.
Context {F : Type} {FO : FloatOps F}.
Variable np_exp : F -> F.
Variable bytes : Type.
Variable open_read : string -> result bytes.
Variable imageio_imread : bytes -> result (ndarray (scalar F)).
Variable tifffile_imread : bytes -> result (ndarray (scalar F)).

Lemma read_image_decoded (path : string) (normalize : option string) (mode : string)
    (bs : bytes) (data : ndarray (scalar F)) :
  open_read path = Ok bs ->
  (if existsb (String.eqb (last_dot_part path)) ["tiff"; "tif"]
   then tifffile_imread else imageio_imread) bs = Ok data ->
  read_image np_exp open_read imageio_imread tifffile_imread path normalize mode =
    and_then (lift (_render_image_data data mode)) (fun rendered_data =>
      match normalize with
      | None => Return rendered_data
      | Some key =>
          match normalize_fx np_exp key with
          | None => Throw (KeyError key)
          | Some fx => lift (fx rendered_data)
          end
      end).
Proof.
  intros Ho Hr. unfold read_image. rewrite Ho. cbn [lift and_then].
  rewrite Hr. reflexivity.
Qed.

(** The default of the server, normalization [standard], on an image that
    needs none: for a decoded array of rank 3 with at least three channels
    and dtype uint8 or float32, [read_image] in mode [rgb] or [bgr] returns
    the rendering itself, three channels of the decoded dtype, no pixel
    rescaled. *)
Theorem read_image_standard_keeps_pixels (path mode : string) (bs : bytes)
    (data : ndarray (scalar F)) (h w c : nat) :
  open_read path = Ok bs ->
  (if existsb (String.eqb (last_dot_part path)) ["tiff"; "tif"]
   then tifffile_imread else imageio_imread) bs = Ok data ->
  shape data = [h; w; c] -> (3 <= c)%nat ->
  mode = "rgb" \/ mode = "bgr" ->
  dtype data = uint8 \/ dtype data = float32 ->
  exists out,
    _render_image_data data mode = Ok out /\
    shape out = [h; w; 3%nat] /\ dtype out = dtype data /\
    read_image np_exp open_read imageio_imread tifffile_imread path (Some "standard") mode
      = Return out.
Proof.
  intros Ho Hr Hs Hc Hm Hd.
  rewrite (read_image_decoded (Some "standard") mode Ho Hr).
  destruct (render_results data Hs Hc) as ((rgb & R1 & R2 & R3) & (bgr & B1 & B2 & B3) & _).
  assert (K : forall out, shape out = [h; w; 3%nat] -> dtype out = dtype data ->
                standard_normalization out = Ok out).
  { intros out S D. unfold standard_normalization. rewrite S, D.
    destruct Hd as [-> | ->]; reflexivity. }
  destruct Hm as [-> | ->].
  - exists rgb. rewrite R1. repeat split; try assumption.
    cbn. rewrite (K rgb R2 R3). reflexivity.
  - exists bgr. rewrite B1. repeat split; try assumption.
    cbn. rewrite (K bgr B2 B3). reflexivity.
Qed.

(** Normalization [sentinel] asks for exactly three channels after the
    rendering.  So [read_image] with it fails with the assertion error on
    every grayscale file (a decoded array of rank 2, whatever the render
    method), on every rendering in mode [bw], and in mode [sentinel] on a
    three-channel file (which renders to two channels); in modes [rgb] and
    [bgr], and in mode [sentinel] from four channels on, it returns a uint8
    image of three channels. *)
Theorem read_image_sentinel_channels (path mode : string) (bs : bytes)
    (data : ndarray (scalar F)) (h w : nat) :
  open_read path = Ok bs ->
  (if existsb (String.eqb (last_dot_part path)) ["tiff"; "tif"]
   then tifffile_imread else imageio_imread) bs = Ok data ->
  let read := read_image np_exp open_read imageio_imread tifffile_imread path
                (Some "sentinel") in
  (shape data = [h; w] -> read mode = Throw (Inner AssertionError)) /\
  (forall c, shape data = [h; w; c] -> (3 <= c)%nat ->
     read "bw" = Throw (Inner AssertionError) /\
     (c = 3%nat -> read "sentinel" = Throw (Inner AssertionError)) /\
     (mode = "rgb" \/ mode = "bgr" \/ (mode = "sentinel" /\ (4 <= c)%nat) ->
      exists out, read mode = Return out /\
                  shape out = [h; w; 3%nat] /\ dtype out = uint8)).
Proof.
  intros Ho Hr read.
  assert (Fail1 : forall (out : ndarray (scalar F)) k, shape out = [h; w; k] -> k <> 3%nat ->
            sentinel_truecolor_image out 2000 = Raise AssertionError).
  { intros out k S K. unfold sentinel_truecolor_image. rewrite S. cbn [nth_error].
    assert (E : (k =? 3)%nat = false) by (apply Nat.eqb_neq; exact K).
    rewrite E. reflexivity. }
  assert (Good : forall (out : ndarray (scalar F)), shape out = [h; w; 3%nat] ->
            exists res, sentinel_truecolor_image out 2000 = Ok res /\
                        shape res = [h; w; 3%nat] /\ dtype res = uint8).
  { intros out S. unfold sentinel_truecolor_image. rewrite S. cbn [nth_error Nat.eqb negb].
    eexists. split; [reflexivity|]. split; [|reflexivity].
    cbn [map_data shape]. rewrite shape_tabulate. cbn [map_data shape]. exact S. }
  split.
  - intro Hs. unfold read. rewrite (read_image_decoded (Some "sentinel") mode Ho Hr).
    unfold _render_image_data. rewrite Hs. cbn [length Nat.eqb lift and_then].
    change (normalize_fx np_exp "sentinel")
      with (Some (fun image : ndarray (scalar F) => sentinel_truecolor_image image 2000)).
    cbv iota beta.
    rewrite (@Fail1 (expand_dims_last data) 1%nat); [reflexivity | | discriminate].
    unfold expand_dims_last. cbn [shape]. rewrite Hs. reflexivity.
  - intros c Hs Hc.
    destruct (render_results data Hs Hc)
      as ((rgb & R1 & R2 & R3) & (bgr & B1 & B2 & B3) & (sen & S1 & S2 & S3)
          & (bw & W1 & W2 & W3)).
    split; [|split].
    + unfold read. rewrite (read_image_decoded (Some "sentinel") "bw" Ho Hr), W1.
      cbn [lift and_then].
      change (normalize_fx np_exp "sentinel")
        with (Some (fun image : ndarray (scalar F) => sentinel_truecolor_image image 2000)).
      cbv iota beta. rewrite (Fail1 bw 1%nat W2); [reflexivity | discriminate].
    + intros ->. unfold read.
      rewrite (read_image_decoded (Some "sentinel") "sentinel" Ho Hr), S1.
      cbn [lift and_then].
      change (normalize_fx np_exp "sentinel")
        with (Some (fun image : ndarray (scalar F) => sentinel_truecolor_image image 2000)).
      cbv iota beta. rewrite (Fail1 sen _ S2); [reflexivity | cbn; discriminate].
    + intro Hm. unfold read. rewrite (read_image_decoded (Some "sentinel") mode Ho Hr).
      assert (Hout : exists out, _render_image_data data mode = Ok out /\
                                 shape out = [h; w; 3%nat]).
      { destruct Hm as [-> | [-> | [-> H4]]].
        - exists rgb. auto.
        - exists bgr. auto.
        - exists sen. split; [exact S1|]. rewrite S2. do 3 f_equal. lia. }
      destruct Hout as (out & O1 & O2). rewrite O1. cbn [lift and_then].
      change (normalize_fx np_exp "sentinel")
        with (Some (fun image : ndarray (scalar F) => sentinel_truecolor_image image 2000)).
      cbv iota beta.
      destruct (Good out O2) as (res & G1 & G2 & G3).
      exists res. rewrite G1. auto.
Qed.

(** A normalization name outside the four of the dict is a [KeyError], but
    only after the file was opened, decoded and rendered: when the rendering
    fails, its error is the one raised, whatever the name. *)
Theorem read_image_unknown_normalization (path key mode : string) (bs : bytes)
    (data : ndarray (scalar F)) :
  open_read path = Ok bs ->
  (if existsb (String.eqb (last_dot_part path)) ["tiff"; "tif"]
   then tifffile_imread else imageio_imread) bs = Ok data ->
  key <> "standard" -> key <> "scaling" -> key <> "sigmoid" -> key <> "sentinel" ->
  (forall out, _render_image_data data mode = Ok out ->
     read_image np_exp open_read imageio_imread tifffile_imread path (Some key) mode
       = Throw (KeyError key)) /\
  (forall e, _render_image_data data mode = Raise e ->
     read_image np_exp open_read imageio_imread tifffile_imread path (Some key) mode
       = Throw (Inner e)).
Proof.
  intros Ho Hr K1 K2 K3 K4.
  rewrite (read_image_decoded (Some key) mode Ho Hr).
  assert (N : normalize_fx np_exp key = None).
  { unfold normalize_fx.
    rewrite (proj2 (String.eqb_neq _ _) K1), (proj2 (String.eqb_neq _ _) K2),
      (proj2 (String.eqb_neq _ _) K3), (proj2 (String.eqb_neq _ _) K4). reflexivity. }
  split.
  - intros out R. rewrite R. cbn [lift and_then]. rewrite N. reflexivity.
  - intros e R. rewrite R. reflexivity.
Qed.

End ReadImage.

Section ReadImageWitnesses.
Import Np Elem Normalization Image Str App Examples Binary64 Pipeline.
Open Scope string_scope.

Lemma read_image_standard_keeps_pixels_witness :
  let photo : ndarray (scalar spec_float) :=
    mk_ndarray [1; 1; 4]%nat uint8 [SInt 10; SInt 20; SInt 30; SInt 255] in
  read_image exp_first_order (fun _ => Ok tt) (fun _ : unit => Ok photo)
    (fun _ => Raise OSError) "/data/cat.png" (Some "standard") "bgr"
  = Return (mk_ndarray [1; 1; 3]%nat uint8 [SInt 30; SInt 20; SInt 10]).
Proof.
  intro photo.
  destruct (@read_image_standard_keeps_pixels spec_float Binary64.ops exp_first_order unit
              (fun _ => Ok tt) (fun _ => Ok photo) (fun _ => Raise OSError)
              "/data/cat.png" "bgr" tt photo 1 1 4
              eq_refl eq_refl eq_refl (le_S _ _ (le_n 3)) (or_intror eq_refl)
              (or_introl eq_refl))
    as (out & H1 & _ & _ & H2).
  rewrite H2. f_equal. injection H1 as <-. reflexivity.
Defined.

Lemma read_image_sentinel_channels_witness :
  let read (a : ndarray (scalar spec_float)) :=
    read_image exp_first_order (fun _ => Ok tt) (fun _ : unit => Raise OSError)
      (fun _ => Ok a) "/data/tile.tif" (Some "sentinel") in
  read (arange [2; 2]) "rgb" = Throw (Inner AssertionError) /\
  read (arange [2; 2; 4]) "bw" = Throw (Inner AssertionError) /\
  read (arange [2; 2; 3]) "sentinel" = Throw (Inner AssertionError) /\
  exists out, read (arange [2; 2; 4]) "sentinel" = Return out /\
              shape out = [2; 2; 3]%nat /\ dtype out = uint8.
Proof.
  intro read.
  pose proof (fun a mode h w =>
                @read_image_sentinel_channels spec_float Binary64.ops exp_first_order unit
                  (fun _ => Ok tt) (fun _ => Raise OSError) (fun _ => Ok a)
                  "/data/tile.tif" mode tt a h w eq_refl eq_refl) as T.
  split; [|split; [|split]].
  - exact (proj1 (T (arange [2; 2]) "rgb" 2%nat 2%nat) eq_refl).
  - exact (proj1 (proj2 (T (arange [2; 2; 4]) "bw" 2%nat 2%nat) 4%nat eq_refl
                    (le_S _ _ (le_n 3)))).
  - exact (proj1 (proj2 (proj2 (T (arange [2; 2; 3]) "sentinel" 2%nat 2%nat) 3%nat eq_refl
                           (le_n 3))) eq_refl).
  - exact (proj2 (proj2 (proj2 (T (arange [2; 2; 4]) "sentinel" 2%nat 2%nat) 4%nat eq_refl
                           (le_S _ _ (le_n 3))))
             (or_intror (or_intror (conj eq_refl (le_n 4))))).
Defined.

Lemma read_image_unknown_normalization_witness :
  read_image exp_first_order (fun _ => Ok tt) (fun _ : unit => Ok (arange [2; 2; 3]))
    (fun _ => Raise OSError) "/data/cat.png" (Some "minmax") "rgb"
    = Throw (KeyError "minmax") /\
  read_image exp_first_order (fun _ => Ok tt) (fun _ : unit => Ok (arange [2; 2; 2]))
    (fun _ => Raise OSError) "/data/cat.png" (Some "minmax") "rgb"
    = Throw (Inner RenderShapeError).
Proof.
  assert (K : forall s : string, "minmax" = s -> String.eqb "minmax" s = true)
    by (intros s <-; reflexivity).
  split.
  - refine (proj1 (@read_image_unknown_normalization spec_float Binary64.ops
                     exp_first_order unit (fun _ => Ok tt)
                     (fun _ => Ok (arange [2; 2; 3])) (fun _ => Raise OSError)
                     "/data/cat.png" "minmax" "rgb" tt (arange [2; 2; 3])
                     eq_refl eq_refl _ _ _ _) _ eq_refl);
      intro H; apply K in H; discriminate H.
  - refine (proj2 (@read_image_unknown_normalization spec_float Binary64.ops
                     exp_first_order unit (fun _ => Ok tt)
                     (fun _ => Ok (arange [2; 2; 2])) (fun _ => Raise OSError)
                     "/data/cat.png" "minmax" "rgb" tt (arange [2; 2; 2])
                     eq_refl eq_refl _ _ _ _) _ eq_refl);
      intro H; apply K in H; discriminate H.
Defined.

End ReadImageWitnesses.

(* ===================================================================== *)
(** ** Splitting, joining and searching strings *)
(* ===================================================================== *)

Section Splitting.
Import Str.
Open Scope string_scope.

Lemma append_assoc (a b c : string) : (a ++ b) ++ c = a ++ (b ++ c).
Proof. induction a as [|x a IH]; cbn; [reflexivity | rewrite IH; reflexivity]. Qed.

Lemma append_empty_r (a : string) : a ++ "" = a.
Proof. induction a as [|x a IH]; cbn; [reflexivity | rewrite IH; reflexivity]. Qed.

Lemma split_nonempty (c : ascii) (s : string) : split c s = [] -> False.
Proof.
  destruct s as [|a s]; cbn; [discriminate|].
  destruct (Ascii.eqb a c); [discriminate|]. destruct (split c s); discriminate.
Qed.

Lemma split_app_sep (c : ascii) (a b : string) :
  split c (a ++ String c b) = (split c a ++ split c b)%list.
Proof.
  induction a as [|x a IH]; cbn [append split].
  - rewrite Ascii.eqb_refl. reflexivity.
  - rewrite IH. destruct (Ascii.eqb x c); [reflexivity|].
    destruct (split c a) eqn:E; [exfalso; exact (split_nonempty _ _ E)|]. reflexivity.
Qed.

Lemma prefix_sep_head (c a : ascii) (s : string) :
  String.prefix (String c "") (String a s) = Ascii.eqb a c.
Proof.
  cbn. destruct (ascii_dec c a) as [->|N].
  - rewrite Ascii.eqb_refl. apply prefix_empty.
  - symmetry. apply Ascii.eqb_neq. congruence.
Qed.

Lemma split_none (c : ascii) (s : string) :
  contains (String c "") s = false -> split c s = [s].
Proof.
  induction s as [|a s IH]; intro H; [reflexivity|].
  apply contains_tail in H as [H1 H2]. rewrite prefix_sep_head in H1.
  cbn [split]. rewrite H1, (IH H2). reflexivity.
Qed.

Lemma split_parts_clean (c : ascii) (s : string) :
  Forall (fun w => contains (String c "") w = false) (split c s).
Proof.
  induction s as [|a s IH]; cbn [split].
  - constructor; [reflexivity | constructor].
  - destruct (Ascii.eqb a c) eqn:E.
    + constructor; [reflexivity | exact IH].
    + destruct (split c s) as [|w ws]; [repeat constructor; cbn|].
      * destruct (ascii_dec c a) as [->|N]; [rewrite Ascii.eqb_refl in E; discriminate|].
        reflexivity.
      * inversion IH as [|? ? Hw Hws]; subst. constructor; [|exact Hws].
        change (contains (String c "") (String a w))
          with (String.prefix (String c "") (String a w) || contains (String c "") w).
        rewrite prefix_sep_head, E, Hw. reflexivity.
Qed.

Lemma join_cons (sep w : string) (l : list string) :
  l <> [] -> join sep (w :: l) = w ++ sep ++ join sep l.
Proof. destruct l; [congruence | reflexivity]. Qed.

Lemma join_split (c : ascii) (s : string) : join (String c "") (split c s) = s.
Proof.
  induction s as [|a s IH]; [reflexivity|]. cbn [split].
  destruct (Ascii.eqb a c) eqn:E.
  - apply Ascii.eqb_eq in E. subst a.
    rewrite join_cons by (intro H; exact (split_nonempty _ _ H)).
    rewrite IH. reflexivity.
  - destruct (split c s) as [|w [|w' ws]] eqn:Es.
    + exfalso; exact (split_nonempty _ _ Es).
    + cbn in IH |- *. rewrite IH. reflexivity.
    + rewrite join_cons in IH |- * by discriminate.
      rewrite <- IH. reflexivity.
Qed.

Lemma join_snoc (sep x : string) (l : list string) :
  l <> [] -> join sep (l ++ [x])%list = join sep l ++ sep ++ x.
Proof.
  induction l as [|w l IH]; [congruence|]. intros _.
  destruct l as [|w' l]; [reflexivity|].
  change ((w :: w' :: l) ++ [x])%list with (w :: ((w' :: l) ++ [x]))%list.
  rewrite join_cons by (destruct l; discriminate).
  rewrite IH by discriminate.
  rewrite (@join_cons sep w (w' :: l)) by discriminate.
  rewrite !append_assoc. reflexivity.
Qed.

Lemma prefix_app (p a b : string) :
  String.prefix p a = true -> String.prefix p (a ++ b) = true.
Proof.
  revert p; induction a as [|x a IH]; intros p H.
  - destruct p; [apply prefix_empty | discriminate H].
  - destruct p as [|y p]; [reflexivity|]. cbn in H |- *.
    destruct (ascii_dec y x); [apply IH; exact H | discriminate H].
Qed.

Lemma contains_app_l (p a b : string) :
  contains p a = true -> contains p (a ++ b) = true.
Proof.
  induction a as [|x a IH]; intro H.
  - cbn in H. rewrite orb_false_r in H. destruct p; [|discriminate H].
    destruct b; reflexivity.
  - change (contains p (String x a)) with (String.prefix p (String x a) || contains p a) in H.
    change (contains p (String x a ++ b))
      with (String.prefix p (String x a ++ b) || contains p (a ++ b)).
    apply orb_true_iff in H as [H | H]; apply orb_true_iff.
    + left. apply prefix_app. exact H.
    + right. apply IH. exact H.
Qed.

Lemma contains_app_r (p a b : string) :
  contains p b = true -> contains p (a ++ b) = true.
Proof.
  intro H. induction a as [|x a IH]; [exact H|].
  change (contains p (String x a ++ b))
    with (String.prefix p (String x a ++ b) || contains p (a ++ b)).
  rewrite IH. apply orb_true_r.
Qed.

(** Appending a character that is not the last of [p] creates no
    occurrence of [p]. *)
Lemma prefix_snoc (p a : string) (x : ascii) :
  (forall q, p <> q ++ String x "") ->
  String.prefix p (a ++ String x "") = String.prefix p a.
Proof.
  revert p; induction a as [|z a IH]; intros p H.
  - destruct p as [|y p]; [reflexivity|]. cbn.
    destruct (ascii_dec y x) as [->|]; [|reflexivity].
    destruct p; [exfalso; exact (H "" eq_refl) | reflexivity].
  - destruct p as [|y p]; [reflexivity|]. cbn.
    destruct (ascii_dec y z); [|reflexivity].
    apply IH. intros q E. apply (H (String y q)). cbn. rewrite E. reflexivity.
Qed.

Lemma contains_snoc (p a : string) (x : ascii) :
  (forall q, p <> q ++ String x "") ->
  contains p (a ++ String x "") = contains p a.
Proof.
  intro H. induction a as [|z a IH].
  - cbn [append]. 
    change (contains p (String x "")) with (String.prefix p (String x "") || contains p "").
    rewrite (@prefix_snoc p "" x H : String.prefix p (String x "") = String.prefix p "").
    destruct p; reflexivity.
  - change (contains p (String z a ++ String x ""))
      with (String.prefix p (String z a ++ String x "") || contains p (a ++ String x "")).
    rewrite (@prefix_snoc p (String z a) x H), IH. reflexivity.
Qed.

(** Appending the last character [x] of [p] creates an occurrence only
    behind the character [y] that precedes it in [p]. *)
Lemma prefix_snoc_last (p0 a : string) (y x : ascii) :
  String.prefix (p0 ++ String y (String x "")) (a ++ String x "") = true ->
  String.prefix (p0 ++ String y (String x "")) a = true \/ exists q, a = q ++ String y "".
Proof.
  revert p0; induction a as [|z a IH]; intros p0 H.
  - exfalso. destruct p0 as [|u p0]; cbn in H.
    + destruct (ascii_dec y x); discriminate H.
    + destruct (ascii_dec u x); [|discriminate H].
      destruct p0; discriminate H.
  - destruct p0 as [|u p0].
    + cbn in H. destruct (ascii_dec y z) as [->|]; [|discriminate H].
      destruct a as [|w a]; [right; exists ""; reflexivity|].
      left. cbn in H |- *. destruct (ascii_dec z z); [|congruence].
      destruct (ascii_dec x w); [apply prefix_empty | discriminate H].
    + cbn in H. destruct (ascii_dec u z) as [->|]; [|discriminate H].
      destruct (IH p0 H) as [L | (q & ->)].
      * left. cbn. destruct (ascii_dec z z); [exact L | congruence].
      * right. exists (String z q). reflexivity.
Qed.

Lemma contains_snoc_last (p0 a : string) (y x : ascii) :
  contains (p0 ++ String y (String x "")) (a ++ String x "") = true ->
  contains (p0 ++ String y (String x "")) a = true \/ exists q, a = q ++ String y "".
Proof.
  set (p := p0 ++ String y (String x "")).
  induction a as [|z a IH]; intro H.
  - exfalso. cbn [append] in H.
    change (contains p (String x "")) with (String.prefix p (String x "") || contains p "") in H.
    apply orb_true_iff in H as [H | H].
    + destruct (@prefix_snoc_last p0 "" y x H) as [L | (q & E)].
      * unfold p in *. destruct p0; discriminate L.
      * destruct q; discriminate E.
    + unfold p in H. destruct p0; discriminate H.
  - change (contains p (String z a ++ String x ""))
      with (String.prefix p (String z a ++ String x "") || contains p (a ++ String x "")) in H.
    apply orb_true_iff in H as [H | H].
    + destruct (@prefix_snoc_last p0 (String z a) y x H) as [L | R]; [left | right; exact R].
      change (contains p (String z a)) with (String.prefix p (String z a) || contains p a).
      fold p in L. rewrite L. reflexivity.
    + destruct (IH H) as [L | (q & ->)].
      * left. change (contains p (String z a)) with (String.prefix p (String z a) || contains p a).
        rewrite L. apply orb_true_r.
      * right. exists (String z q). reflexivity.
Qed.

Lemma rstrip_snoc (c : ascii) (s : string) :
  rstrip c (s ++ String c "") = rstrip c s.
Proof.
  induction s as [|a s IH]; cbn [append rstrip].
  - rewrite Ascii.eqb_refl. reflexivity.
  - rewrite IH. reflexivity.
Qed.

Lemma rstrip_length (c : ascii) (s : string) :
  (String.length (rstrip c s) <= String.length s)%nat.
Proof.
  induction s as [|a s IH]; cbn [rstrip String.length]; [lia|].
  destruct (String.eqb (rstrip c s) "" && Ascii.eqb a c); cbn [String.length]; lia.
Qed.

Lemma length_append (a b : string) :
  String.length (a ++ b) = (String.length a + String.length b)%nat.
Proof. induction a as [|x a IH]; cbn; [reflexivity | rewrite IH; reflexivity]. Qed.

Lemma endswith_char_snoc (c : ascii) (s : string) :
  endswith_char c (s ++ String c "") = true.
Proof.
  unfold endswith_char. rewrite rstrip_snoc. apply negb_true_iff, String.eqb_neq.
  intro E. pose proof (rstrip_length c s) as L. rewrite E, length_append in L.
  cbn in L. lia.
Qed.

(** [rstrip] leaves a string alone that does not end with the character. *)
Lemma rstrip_app (c : ascii) (a b : string) :
  rstrip c b <> "" -> rstrip c (a ++ b) = a ++ rstrip c b.
Proof.
  intro H. induction a as [|x a IH]; [reflexivity|].
  cbn [append rstrip]. rewrite IH.
  destruct (String.eqb (a ++ rstrip c b) "") eqn:E; [|reflexivity].
  apply String.eqb_eq in E. destruct a; [contradiction | discriminate E].
Qed.

(** The path handed to [glob] by [get_image_files] and [_aws_exists] holds
    a cloud marker exactly when the folder does. *)
Lemma contains_marker_join (u v : ascii) (folder : string) :
  let marker := String u (String v "://") in
  contains marker (os_path_join folder "*") = contains marker folder.
Proof.
  intro marker. unfold os_path_join.
  change (startswith "/" "*") with false. cbv iota.
  assert (Star : forall a, contains marker (a ++ "*") = contains marker a).
  { intro a. apply contains_snoc. intros q E. unfold marker in E.
    destruct q as [|c1 [|c2 [|c3 [|c4 [|c5 [|c6 q]]]]]]; discriminate E. }
  destruct (String.eqb folder "" || endswith_char "/" folder) eqn:E.
  - apply Star.
  - apply orb_false_iff in E as [_ E].
    change (folder ++ "/" ++ "*") with (folder ++ String "/" "*").
    replace (folder ++ String "/" "*") with ((folder ++ "/") ++ "*")
      by (rewrite append_assoc; reflexivity).
    rewrite Star.
    destruct (contains marker (folder ++ "/")) eqn:C.
    + change marker with (String u (String v ":") ++ String "/" (String "/" "")) in C.
      apply contains_snoc_last in C as [L | (q & ->)].
      * symmetry. exact L.
      * rewrite endswith_char_snoc in E. discriminate E.
    + destruct (contains marker folder) eqn:C'; [|reflexivity].
      rewrite (contains_app_l _ _ "/" C') in C. discriminate C.
Qed.

End Splitting.

(* ===================================================================== *)
(** ** get_image_files, the index page and the folder argument *)
(* ===================================================================== *)

Section Listing.
Import Str Glob Server App.
Open Scope string_scope.
Variable fnmatch : string -> string -> bool.
Variable boto3 : option (string -> string -> result (list (option (list string)))).
Variable sys_glob : string -> list string.
Variable supported_extensions : list string.
Variable shuffle : list string -> list string.
Variable py_int : string -> option Z.

Lemma last_dot_part_spec (f : string) :
  contains "." (last_dot_part f) = false /\
  (f = last_dot_part f \/ exists stem, f = stem ++ "." ++ last_dot_part f).
Proof.
  unfold last_dot_part.
  pose proof (split_parts_clean "." f) as Hc.
  pose proof (join_split "." f) as Hj.
  assert (Hne : split "." f <> []) by (intro H; exact (split_nonempty _ _ H)).
  rewrite (app_removelast_last "" Hne) in Hc, Hj.
  set (x := last (split "." f) "") in *. set (l := removelast (split "." f)) in *.
  split.
  - apply Forall_app in Hc as [_ Hc]. inversion Hc; assumption.
  - destruct l as [|w l'] eqn:El.
    + left. cbn in Hj. symmetry; exact Hj.
    + right. rewrite join_snoc in Hj by discriminate. eexists. symmetry. exact Hj.
Qed.

Lemma last_dot_part_of (x : string) :
  contains "." x = false ->
  last_dot_part x = x /\ forall stem, last_dot_part (stem ++ "." ++ x) = x.
Proof.
  intro H. unfold last_dot_part. split.
  - rewrite (split_none _ _ H). reflexivity.
  - intro stem. change (stem ++ "." ++ x) with (stem ++ String "." x).
    rewrite split_app_sep, (split_none _ _ H). apply last_last.
Qed.

Lemma is_supported_iff (f : string) :
  is_supported supported_extensions f = true <->
  exists x, contains "." x = false /\ In ("." ++ x) supported_extensions /\
            (f = x \/ exists stem, f = stem ++ "." ++ x).
Proof.
  unfold is_supported. rewrite existsb_exists. split.
  - intros (e & He & Heq). apply String.eqb_eq in Heq. subst e.
    exists (last_dot_part f). destruct (last_dot_part_spec f) as [H1 H2].
    split; [exact H1|]. split; [exact He | exact H2].
  - intros (x & Hx & He & Hf). exists ("." ++ x). split; [exact He|].
    apply String.eqb_eq. destruct (@last_dot_part_of x Hx) as [L1 L2].
    destruct Hf as [-> | (stem & ->)]; [rewrite L1 | rewrite L2]; reflexivity.
Qed.

(** What [get_image_files] keeps of a listing, in the order of the listing:
    the paths whose part after the last dot, with a dot before it, is a
    supported extension.  The comparison is exact, so letter case counts;
    the last dot is that of the whole path, so one in a directory name
    counts when the file name has none; and a path without any dot is
    compared as a whole. *)
Theorem get_image_files_keeps_supported (folder : string) (filelist : list string) :
  glob fnmatch boto3 sys_glob (os_path_join folder "*") = Ok filelist ->
  get_image_files fnmatch boto3 sys_glob supported_extensions folder
    = Ok (filter (is_supported supported_extensions) filelist) /\
  forall f, is_supported supported_extensions f = true <->
    exists x, contains "." x = false /\ In ("." ++ x) supported_extensions /\
              (f = x \/ exists stem, f = stem ++ "." ++ x).
Proof.
  intro Hg. unfold get_image_files. rewrite Hg. cbn [bind].
  split; [reflexivity | exact is_supported_iff].
Qed.

Lemma slice_to_spec {A} (n : Z) (l : list A) :
  exists rest, Permutation (slice_to n l ++ rest) l /\
    length (slice_to n l) =
      if (0 <=? n)%Z then Nat.min (Z.to_nat n) (length l)
      else (length l - Z.to_nat (- n))%nat.
Proof.
  unfold slice_to. destruct (0 <=? n)%Z.
  - exists (skipn (Z.to_nat n) l). rewrite firstn_skipn, length_firstn. split; reflexivity.
  - exists (skipn (length l - Z.to_nat (- n)) l). rewrite firstn_skipn, length_firstn.
    split; [reflexivity | lia].
Qed.

(** The index page: the items are [server_path] of files of the folder's
    listing, no file more often than the listing has it, and as many as
    [num_items] allows.  A negative [num_items] does not mean "none": it
    drops that many files from the end of the shuffled listing. *)
Theorem index_items (args_num_items n : Z) (folder : string) (url : option string)
    (files : list string) :
  (forall l, Permutation (shuffle l) l) ->
  get_image_files fnmatch boto3 sys_glob supported_extensions folder = Ok files ->
  match url with
  | None => n = args_num_items
  | Some text => py_int text = Some n
  end ->
  exists shown hidden,
    index fnmatch boto3 sys_glob supported_extensions shuffle py_int
      args_num_items folder url = Return (map server_path shown) /\
    Permutation (shown ++ hidden) files /\
    length shown =
      if (0 <=? n)%Z then Nat.min (Z.to_nat n) (length files)
      else (length files - Z.to_nat (- n))%nat.
Proof.
  intros Hp Hf Hn. unfold index.
  assert (E : match url with
              | None => Return args_num_items
              | Some text => match py_int text with
                             | Some n => Return n
                             | None => Throw IntValueError
                             end
              end = Return n).
  { destruct url as [text|]; [rewrite Hn | rewrite Hn]; reflexivity. }
  rewrite E, Hf. cbn [lift and_then].
  destruct (slice_to_spec n (shuffle files)) as (rest & P & L).
  exists (slice_to n (shuffle files)), rest. split; [reflexivity|]. split.
  - rewrite P. apply Hp.
  - rewrite L, (Permutation_length (Hp files)). reflexivity.
Qed.

(** The index page on the folders it cannot list.  A [num_items] argument
    of the URL that is no numeral fails before the folder is looked at.  A
    folder on Google Cloud Storage always fails with
    [NotImplementedError].  A folder on S3 without the AWS dependencies
    installed gives an empty page and no error. *)
Theorem index_cloud_folder (args_num_items : Z) (folder : string) :
  (forall l, Permutation (shuffle l) l) ->
  (forall text, py_int text = None ->
     index fnmatch boto3 sys_glob supported_extensions shuffle py_int
       args_num_items folder (Some text) = Throw IntValueError) /\
  (contains "s3://" folder = false -> contains "gs://" folder = true ->
     index fnmatch boto3 sys_glob supported_extensions shuffle py_int
       args_num_items folder None = Throw (Inner NotImplementedError)) /\
  (contains "s3://" folder = true ->
     index fnmatch None sys_glob supported_extensions shuffle py_int
       args_num_items folder None = Return []).
Proof.
  intro Hp. split; [|split].
  - intros text H. unfold index. rewrite H. reflexivity.
  - intros H3 Hg. unfold index, get_image_files. cbn [and_then].
    rewrite glob_dispatch_contains.
    rewrite (contains_marker_join "s" "3" folder), (contains_marker_join "g" "s" folder).
    rewrite H3, Hg. reflexivity.
  - intro H3. unfold index, get_image_files. cbn [and_then].
    rewrite glob_dispatch_contains.
    rewrite (contains_marker_join "s" "3" folder), H3.
    unfold _aws_glob. cbn [bind filter lift and_then].
    assert (E : shuffle [] = []).
    { apply Permutation_nil. symmetry. apply Hp. }
    rewrite E. unfold slice_to. destruct (0 <=? args_num_items)%Z; rewrite firstn_nil;
      reflexivity.
Qed.

End Listing.

Section FolderArgument.
Import Str App.
Open Scope string_scope.

(** After [parse_args] the folder is an absolute path or holds a cloud
    marker, given an absolute working directory; a second pass of the
    surgery changes nothing. *)
Theorem parse_args_folder_path_absolute (cwd folder_path : string) :
  startswith "/" cwd = true ->
  let folder := parse_args_folder_path cwd folder_path in
  (startswith "/" folder = true \/ contains "s3://" folder = true
   \/ contains "gs://" folder = true) /\
  parse_args_folder_path cwd folder = folder.
Proof.
  intros Hc folder.
  assert (K : startswith "/" folder = true \/ contains "s3://" folder = true
              \/ contains "gs://" folder = true).
  { unfold folder, parse_args_folder_path.
    destruct (startswith "/" folder_path) eqn:E1; cbn [negb]; [left; exact E1|].
    destruct (contains "s3://" folder_path) eqn:E2; cbn [negb andb];
      [right; left; exact E2|].
    destruct (contains "gs://" folder_path) eqn:E3; cbn [negb andb];
      [right; right; exact E3|].
    left. unfold os_path_join. rewrite E1.
    destruct (String.eqb cwd "" || endswith_char "/" cwd);
      unfold startswith in *; apply prefix_app; exact Hc. }
  split; [exact K|].
  unfold parse_args_folder_path at 1.
  destruct (startswith "/" folder) eqn:E1; cbn [negb]; [reflexivity|].
  destruct K as [K | [K | K]]; [discriminate K | |]; rewrite K; cbn [negb andb];
    [reflexivity|]. rewrite andb_false_r. reflexivity.
Qed.

End FolderArgument.

Section ListingWitnesses.
Import Str Glob Server App.
Open Scope string_scope.

Lemma get_image_files_keeps_supported_witness :
  get_image_files (fun _ _ => true) None
    (fun _ => ["/d/a.png"; "/d/notes.txt"; "/d/b.PNG"; "/d/c.tif"])
    [".png"; ".tif"] "/d"
  = Ok ["/d/a.png"; "/d/c.tif"].
Proof.
  exact (proj1 (@get_image_files_keeps_supported (fun _ _ => true) None
                  (fun _ => ["/d/a.png"; "/d/notes.txt"; "/d/b.PNG"; "/d/c.tif"])
                  [".png"; ".tif"] "/d"
                  ["/d/a.png"; "/d/notes.txt"; "/d/b.PNG"; "/d/c.tif"] eq_refl)).
Defined.

Lemma index_items_witness :
  exists shown hidden,
    index (fun _ _ => true) None (fun _ => ["/d/a.png"; "/d/b.png"; "/d/c.png"])
      [".png"] (@rev string)
      (fun text => if String.eqb text "-1" then Some (-1)%Z else None)
      100 "/d" (Some "-1")
    = Return (map server_path shown) /\
    Permutation (shown ++ hidden) ["/d/a.png"; "/d/b.png"; "/d/c.png"] /\
    length shown = 2%nat.
Proof.
  exact (@index_items (fun _ _ => true) None
           (fun _ => ["/d/a.png"; "/d/b.png"; "/d/c.png"]) [".png"] (@rev string)
           (fun text => if String.eqb text "-1" then Some (-1)%Z else None)
           100%Z (-1)%Z "/d" (Some "-1") ["/d/a.png"; "/d/b.png"; "/d/c.png"]
           (fun l => Permutation_sym (Permutation_rev l)) eq_refl eq_refl).
Defined.

Lemma index_cloud_folder_witness :
  index (fun _ _ => true) None (fun _ => []) [".png"] (@rev string) (fun _ => None)
    100 "gs://bucket/tiles" None = Throw (Inner NotImplementedError) /\
  index (fun _ _ => true) None (fun _ => []) [".png"] (@rev string) (fun _ => None)
    100 "s3://bucket/tiles" None = Return [] /\
  index (fun _ _ => true) None (fun _ => []) [".png"] (@rev string) (fun _ => None)
    100 "/d" (Some "ten") = Throw IntValueError.
Proof.
  pose proof (fun folder =>
                @index_cloud_folder (fun _ _ => true) None (fun _ => []) [".png"]
                  (@rev string) (fun _ => None) 100%Z folder
                  (fun l => Permutation_sym (Permutation_rev l))) as T.
  split; [|split].
  - exact (proj1 (proj2 (T "gs://bucket/tiles")) eq_refl eq_refl).
  - exact (proj2 (proj2 (T "s3://bucket/tiles")) eq_refl).
  - exact (proj1 (T "/d") "ten" eq_refl).
Defined.

Lemma parse_args_folder_path_absolute_witness :
  parse_args_folder_path "/home/user" "tiles" = "/home/user/tiles" /\
  parse_args_folder_path "/home/user" "/home/user/tiles" = "/home/user/tiles".
Proof.
  exact (conj eq_refl
           (proj2 (@parse_args_folder_path_absolute "/home/user" "tiles" eq_refl))).
Defined.

End ListingWitnesses.

(* ===================================================================== *)
(** ** The image route *)
(* ===================================================================== *)

Section ImageRoute.
Import Str Glob FileExists Server.
Open Scope string_scope.
Variable fnmatch : string -> string -> bool.
Variable boto3 : option (string -> string -> result (list (option (list string)))).
Variable sys_glob : string -> list string.
Variable smart_open : string -> result unit.
Variable bytes : Type.
Variable read_and_encode : string -> result bytes.

Lemma rewrite_path_s3 (rest : string) :
  rewrite_path ("/s3/" ++ rest) = "s3://" ++ replace "/s3/" "s3://" rest.
Proof.
  unfold rewrite_path, startswith, replace. cbn. rewrite prefix_empty. reflexivity.
Qed.

Lemma rewrite_path_gs (rest : string) :
  rewrite_path ("/gs/" ++ rest) = "gs://" ++ replace "/gs/" "gs://" rest.
Proof.
  unfold rewrite_path, startswith, replace. cbn. rewrite prefix_empty. reflexivity.
Qed.

(** What the route [/images/<path>] looks at.  Under [s3/] the request is
    for the bucket and the local file system is never asked, so a local
    folder [/s3] cannot be served.  Under [gs/] the request fails with
    [NotImplementedError].  Any other path is a local file, and a missing
    one is answered with an empty body, not with an error. *)
Theorem image_route (rest : string) :
  (forall os_path_exists os_path_exists',
     image (exists_ fnmatch boto3 sys_glob smart_open os_path_exists) read_and_encode
       ("s3/" ++ rest) =
     image (exists_ fnmatch boto3 sys_glob smart_open os_path_exists') read_and_encode
       ("s3/" ++ rest)) /\
  (forall os_path_exists,
     contains "/gs/" rest = false -> contains "s3://" rest = false ->
     image (exists_ fnmatch boto3 sys_glob smart_open os_path_exists) read_and_encode
       ("gs/" ++ rest) = Raise NotImplementedError) /\
  (forall os_path_exists,
     startswith "s3" rest = false -> startswith "gs" rest = false ->
     contains "s3://" ("/" ++ rest) = false -> contains "gs://" ("/" ++ rest) = false ->
     os_path_exists ("/" ++ rest) = false ->
     image (exists_ fnmatch boto3 sys_glob smart_open os_path_exists) read_and_encode
       rest = Ok None).
Proof.
  split; [|split].
  - intros e1 e2. unfold image, read_and_render_image.
    change ("/" ++ "s3/" ++ rest) with ("/s3/" ++ rest).
    rewrite rewrite_path_s3. unfold exists_.
    rewrite (@contains_app_l "s3://" "s3://" (replace "/s3/" "s3://" rest) eq_refl).
    reflexivity.
  - intros e Hg H3. unfold image, read_and_render_image.
    change ("/" ++ "gs/" ++ rest) with ("/gs/" ++ rest).
    rewrite rewrite_path_gs, (replace_absent _ _ _ Hg). unfold exists_.
    assert (E3 : contains "s3://" ("gs://" ++ rest) = false).
    { destruct rest as [|c rest']; [reflexivity|].
      cbn in H3 |- *. exact H3. }
    rewrite E3, (@contains_app_l "gs://" "gs://" rest eq_refl). reflexivity.
  - intros e S3 GS C3 CG He. unfold image. apply read_and_render_image_missing.
    assert (R : rewrite_path ("/" ++ rest) = "/" ++ rest).
    { unfold rewrite_path, startswith in *. cbn [append].
      assert (P : forall p, String.prefix (String "/" p) (String "/" rest) = String.prefix p rest).
      { intro p. cbn. destruct (ascii_dec "/" "/"); [reflexivity | congruence]. }
      rewrite (P "s3"), S3, (P "gs"), GS. reflexivity. }
    rewrite R. unfold exists_. rewrite C3, CG. unfold _local_exists. rewrite He.
    reflexivity.
Qed.

End ImageRoute.

(* ===================================================================== *)
(** ** _aws_glob: bucket and prefix of a path *)
(* ===================================================================== *)

Section AwsGlob.
Import Str Glob.
Open Scope string_scope.
Variable fnmatch : string -> string -> bool.

Lemma rstrip_clean (c : ascii) (s : string) :
  contains (String c "") s = false -> rstrip c s = s.
Proof.
  induction s as [|a s IH]; intro H; [reflexivity|].
  apply contains_tail in H as [H1 H2]. rewrite prefix_sep_head in H1.
  cbn [rstrip]. rewrite (IH H2), H1, andb_false_r. reflexivity.
Qed.

Lemma os_path_split_last (head tail : string) :
  contains "/" tail = false -> rstrip "/" head = head -> head <> "" ->
  os_path_split (head ++ "/" ++ tail) = (head, tail).
Proof.
  intros Ht Hh Hne. unfold os_path_split.
  change (head ++ "/" ++ tail) with (head ++ String "/" tail).
  rewrite split_app_sep, (split_none _ _ Ht).
  rewrite last_last, removelast_last, join_split, length_app.
  assert (L : Nat.ltb 1 (length (split "/" head) + length [tail]) = true).
  { apply Nat.ltb_lt. cbn [length].
    destruct (split "/" head) eqn:E; [exfalso; exact (split_nonempty _ _ E)|].
    cbn [length]. lia. }
  rewrite L, rstrip_snoc, Hh.
  destruct (String.eqb head "") eqn:E; [|reflexivity].
  apply String.eqb_eq in E. contradiction.
Qed.

Lemma split_s3_uri (rest : string) :
  split "/" ("s3://" ++ rest) = "s3:" :: "" :: split "/" rest.
Proof.
  change ("s3://" ++ rest) with ("s3:" ++ String "/" ("" ++ String "/" rest)).
  rewrite !split_app_sep. reflexivity.
Qed.

(** The names [_aws_glob] returns for the pages of a listing. *)
Lemma aws_glob_listing (paginate : string -> string -> result (list (option (list string))))
    (path bucket : string) (remaining : list string) :
  split "/" (fst (os_path_split path)) = "s3:" :: "" :: bucket :: remaining ->
  _aws_glob fnmatch (Some paginate) path =
    (pages <- paginate bucket (replace "/**" "" (join "/" remaining)) ;;
     Ok (filter (fun name => fnmatch name path)
           (flat_map
              (fun page =>
                 match page with
                 | Some contents => map (fun key => "s3://" ++ bucket ++ "/" ++ key) contents
                 | None => []
                 end)
              pages))).
Proof. intro H. unfold _aws_glob. rewrite H. reflexivity. Qed.

(** The path surgery of [_aws_glob].  In [s3://BUCKET/PREFIX/PATTERN] the
    bucket is what stands between the marker and the next slash, the last
    component is the pattern and takes no part in the listing, and the
    listing is asked for the keys under [PREFIX] with every [/**] removed;
    the names returned are [s3://BUCKET/KEY] for the listed keys that match
    the whole path as a pattern.  For [s3://BUCKET/PATTERN] the prefix is
    empty, and for [s3://BUCKET] alone the unpacking fails. *)
Theorem aws_glob_path_surgery
    (paginate : string -> string -> result (list (option (list string))))
    (bucket prefix pattern : string) :
  contains "/" bucket = false -> contains "/" pattern = false ->
  let names (path key_prefix : string) :=
    pages <- paginate bucket key_prefix ;;
    Ok (filter (fun name => fnmatch name path)
          (flat_map
             (fun page =>
                match page with
                | Some contents => map (fun key => "s3://" ++ bucket ++ "/" ++ key) contents
                | None => []
                end)
             pages)) in
  (prefix <> "" -> endswith_char "/" prefix = false ->
   let path := "s3://" ++ bucket ++ "/" ++ prefix ++ "/" ++ pattern in
   _aws_glob fnmatch (Some paginate) path = names path (replace "/**" "" prefix)) /\
  (bucket <> "" ->
   let path := "s3://" ++ bucket ++ "/" ++ pattern in
   _aws_glob fnmatch (Some paginate) path = names path "") /\
  _aws_glob fnmatch (Some paginate) ("s3://" ++ bucket) = Raise UnpackError.
Proof.
  intros Hb Hp names. split; [|split].
  - intros Hne He path.
    assert (Hr : rstrip "/" prefix = prefix).
    { unfold endswith_char in He. apply negb_false_iff, String.eqb_eq in He. exact He. }
    assert (Hs : os_path_split path = ("s3://" ++ bucket ++ "/" ++ prefix, pattern)).
    { unfold path.
      replace ("s3://" ++ bucket ++ "/" ++ prefix ++ "/" ++ pattern)
        with (("s3://" ++ bucket ++ "/" ++ prefix) ++ "/" ++ pattern)
        by (rewrite !append_assoc; reflexivity).
      apply os_path_split_last; [exact Hp | | discriminate].
      replace ("s3://" ++ bucket ++ "/" ++ prefix)
        with (("s3://" ++ bucket ++ "/") ++ prefix) by (rewrite !append_assoc; reflexivity).
      rewrite rstrip_app by (rewrite Hr; exact Hne). rewrite Hr. reflexivity. }
    rewrite (@aws_glob_listing paginate path bucket (split "/" prefix)).
    + rewrite join_split. reflexivity.
    + rewrite Hs. cbn [fst]. rewrite split_s3_uri.
      change (bucket ++ "/" ++ prefix) with (bucket ++ String "/" prefix).
      rewrite split_app_sep, (split_none _ _ Hb). reflexivity.
  - intros Hne path.
    assert (Hs : os_path_split path = ("s3://" ++ bucket, pattern)).
    { unfold path.
      replace ("s3://" ++ bucket ++ "/" ++ pattern)
        with (("s3://" ++ bucket) ++ "/" ++ pattern) by (rewrite !append_assoc; reflexivity).
      apply os_path_split_last; [exact Hp | | discriminate].
      rewrite rstrip_app by (rewrite (rstrip_clean _ _ Hb); exact Hne).
      rewrite (rstrip_clean _ _ Hb). reflexivity. }
    rewrite (@aws_glob_listing paginate path bucket []).
    + reflexivity.
    + rewrite Hs. cbn [fst]. rewrite split_s3_uri, (split_none _ _ Hb). reflexivity.
  - unfold _aws_glob, os_path_split.
    rewrite split_s3_uri, (split_none _ _ Hb). reflexivity.
Qed.

End AwsGlob.

Section AwsExists.
Import Str Glob FileExists.
Open Scope string_scope.
Variable fnmatch : string -> string -> bool.
Variable sys_glob : string -> list string.
Variable smart_open : string -> result unit.

(** When the bucket cannot be listed, because the AWS dependencies are
    missing or because the listing fails with [ClientError], an S3 path
    exists exactly when it opens: an [OSError] of the open means "absent",
    and any other error of the open is raised. *)
Theorem aws_exists_without_listing
    (boto3 : option (string -> string -> result (list (option (list string)))))
    (path : string) :
  contains "s3://" path = true ->
  boto3 = None \/
  glob fnmatch boto3 sys_glob (os_path_join path "*") = Raise ClientError ->
  _aws_exists fnmatch boto3 sys_glob smart_open path =
    match smart_open path with
    | Ok _ => Ok true
    | Raise OSError => Ok false
    | Raise e => Raise e
    end.
Proof.
  intros H3 Hl. unfold _aws_exists.
  assert (E : glob fnmatch boto3 sys_glob (os_path_join path "*") = Ok []
              \/ glob fnmatch boto3 sys_glob (os_path_join path "*") = Raise ClientError).
  { destruct Hl as [-> | Hl]; [left | right; exact Hl].
    rewrite glob_dispatch_contains, (contains_marker_join "s" "3" path), H3.
    reflexivity. }
  destruct (smart_open path) as [u | e]; [|destruct e]; cbn [bind];
    destruct E as [E | E]; rewrite ?E; reflexivity.
Qed.

End AwsExists.

Section CloudWitnesses.
Import Str Glob FileExists Server.
Open Scope string_scope.

Lemma image_route_witness :
  let route os_path_exists :=
    image (exists_ (fun _ _ => true) None (fun _ => []) (fun _ => Raise OSError)
             os_path_exists)
      (fun _ => Ok tt) in
  route (fun _ => true) "s3/bucket/cat.png" = route (fun _ => false) "s3/bucket/cat.png" /\
  route (fun _ => true) "gs/bucket/cat.png" = Raise NotImplementedError /\
  route (fun _ => false) "data/cat.png" = Ok None.
Proof.
  intro route.
  pose proof (@image_route (fun _ _ => true) None (fun _ => []) (fun _ => Raise OSError)
                unit (fun _ => Ok tt)) as T.
  split; [|split].
  - exact (proj1 (T "bucket/cat.png") (fun _ => true) (fun _ => false)).
  - exact (proj1 (proj2 (T "bucket/cat.png")) (fun _ => true) eq_refl eq_refl).
  - exact (proj2 (proj2 (T "data/cat.png")) (fun _ => false)
             eq_refl eq_refl eq_refl eq_refl eq_refl).
Defined.

Lemma aws_glob_path_surgery_witness :
  let paginate (bucket key_prefix : string) :=
    if String.eqb bucket "tiles" && String.eqb key_prefix "a/b"
    then Ok [Some ["a/b/x.png"; "a/b/y.png"]; None; Some ["a/b/c/z.png"]]
    else Raise ClientError in
  _aws_glob (fun name pattern => String.prefix "s3://tiles/a/b/" name) (Some paginate)
    "s3://tiles/a/**/b/*.png"
  = Ok ["s3://tiles/a/b/x.png"; "s3://tiles/a/b/y.png"; "s3://tiles/a/b/c/z.png"].
Proof.
  intro paginate.
  refine (eq_trans
            (proj1 (@aws_glob_path_surgery
                      (fun name pattern => String.prefix "s3://tiles/a/b/" name) paginate
                      "tiles" "a/**/b" "*.png" eq_refl eq_refl) _ eq_refl) _);
    [discriminate | reflexivity].
Defined.

Lemma aws_exists_without_listing_witness :
  _aws_exists (fun _ _ => true) None (fun _ => []) (fun _ => Ok tt) "s3://tiles/a.png"
    = Ok true.
Proof.
  exact (@aws_exists_without_listing (fun _ _ => true) (fun _ => []) (fun _ => Ok tt)
           None "s3://tiles/a.png" eq_refl (or_introl eq_refl)).
Defined.

End CloudWitnesses.

(* ===================================================================== *)
(** ** sigmoid_normalization: when it returns and when it raises *)
(* ===================================================================== *)

Section SigmoidTotal.
Import Np Elem Normalization.
Context {F : Type} {FO : FloatOps F}.
Variable np_exp : F -> F.

Lemma sigmoid_slice_ok (c th : F) (dt : DType) (px : list (scalar F)) :
  px <> [] -> DType_eqb dt bool_ = false ->
  exists ys, sigmoid_slice np_exp c th dt px = Ok ys /\ length ys = length px.
Proof.
  intros Hne Hdt. unfold sigmoid_slice.
  destruct px as [|x px]; [congruence|]. cbn [np_nanmin np_nanmax bind].
  rewrite Hdt. eexists. split; [reflexivity|]. apply length_map.
Qed.

Lemma sigmoid_slices_ok (c th : F) (dt : DType) (n k : nat) (l : list (scalar F)) :
  length l = n * k -> 0 < k -> DType_eqb dt bool_ = false ->
  exists slices,
    mapM (sigmoid_slice np_exp c th dt) (chunks n k l) = Ok slices /\
    length (concat slices) = n * k.
Proof.
  intros Hl Hk Hdt. revert l Hl. induction n as [|n IH]; intros l Hl.
  - exists []. split; reflexivity.
  - cbn [chunks mapM].
    assert (Hf : length (firstn k l) = k) by (rewrite length_firstn; simpl in Hl; lia).
    destruct (@sigmoid_slice_ok c th dt (firstn k l)) as (ys & E & Ly);
      [intro E0; rewrite E0 in Hf; simpl in Hf; lia | exact Hdt |].
    destruct (IH (skipn k l)) as (slices & Es & Ls);
      [rewrite length_skipn; simpl in Hl; lia|].
    rewrite E, Es. cbn [bind]. eexists. split; [reflexivity|].
    cbn [concat]. rewrite length_app, Ly, Hf, Ls. simpl. lia.
Qed.

Lemma DType_eqb_neq (a b : DType) : a <> b -> DType_eqb a b = false.
Proof. intro H. destruct a, b; try reflexivity; congruence. Qed.

(** On a batched array of rank 4, in either layout, of a dtype that is not
    bool and with at least one pixel per batch element,
    [sigmoid_normalization] returns: an array of the shape of its input, of
    dtype uint8, with one value between 0 and 255 per position. *)
Theorem sigmoid_normalization_returns (image : ndarray (scalar F)) (c th : F)
    (channels : channel_format) (b d1 d2 d3 : nat) :
  wf image -> shape image = [b; d1; d2; d3] ->
  dtype image <> bool_ -> 0 < d1 * d2 * d3 ->
  exists out,
    sigmoid_normalization np_exp image c th channels = Ok out /\
    shape out = [b; d1; d2; d3] /\ dtype out = uint8 /\ wf out /\
    Forall (fun v => exists n, v = SInt n /\ (0 <= n <= 255)%Z) (data out).
Proof.
  intros Hwf Hs Hdt Hk. apply DType_eqb_neq in Hdt.
  assert (Range : forall a : ndarray (scalar F),
            Forall (fun v => exists n, v = SInt n /\ (0 <= n <= 255)%Z)
              (data (map_data astype_uint8 uint8 a))).
  { intro a. cbn [map_data data]. apply Forall_forall. intros v Hin.
    apply in_map_iff in Hin as (x & <- & _). apply astype_uint8_range. }
  unfold sigmoid_normalization, _get_format_fx. rewrite Hs. cbn [length Nat.eqb].
  unfold _format_array. destruct channels; cbn [bind].
  - rewrite Hs.
    destruct (@sigmoid_slices_ok c th (dtype image) b (d1 * d2 * d3) (data image))
      as (slices & Es & Ls); [rewrite Hwf, Hs; cbn [size fold_right]; lia | exact Hk
                             | exact Hdt |].
    rewrite Es. cbn [bind]. eexists. split; [reflexivity|].
    split; [reflexivity|]. split; [reflexivity|]. split; [|apply Range].
    unfold wf. cbn [map_data data shape]. rewrite length_map, Ls.
    cbn [size fold_right]. lia.
  - unfold einsum_bcwh_bwhc. rewrite Hs. cbn [bind]. rewrite shape_tabulate.
    destruct (@sigmoid_slices_ok c th (dtype image) b (d2 * d3 * d1)
                (data (tabulate [b; d2; d3; d1] (dtype image)
                         (fun idx => match idx with
                                     | [ib; iw; ih; ic] => at_ zero image [ib; ic; iw; ih]
                                     | _ => zero
                                     end))))
      as (slices & Es & Ls);
      [rewrite (wf_tabulate _ _ _), shape_tabulate; cbn [size fold_right]; lia | lia
      | exact Hdt |].
    cbn [tabulate dtype] in Es |- *. rewrite Es. cbn [bind].
    unfold einsum_bwhc_bcwh. cbn [shape bind]. eexists. split; [reflexivity|].
    split; [reflexivity|]. split; [reflexivity|]. split; [|apply Range].
    apply wf_map_data, wf_tabulate.
Qed.

(** What [sigmoid_normalization] refuses: an array of rank below 3 (the
    reduction over axes 1, 2, 3 in the layout [last], the einsum in the
    layout [first]); batch elements without pixels; and arrays of dtype
    bool, whose maximum and minimum cannot be subtracted. *)
Theorem sigmoid_normalization_raises (image : ndarray (scalar F)) (c th : F) :
  (length (shape image) < 3 ->
   sigmoid_normalization np_exp image c th last = Raise AxisError /\
   sigmoid_normalization np_exp image c th first = Raise EinsumError) /\
  (forall b w h ch, wf image -> shape image = [b; w; h; ch] -> 0 < b ->
     (w * h * ch = 0 ->
      sigmoid_normalization np_exp image c th last = Raise EmptyReduction) /\
     (0 < w * h * ch -> dtype image = bool_ ->
      sigmoid_normalization np_exp image c th last = Raise TypeError)).
Proof.
  split.
  - intro Hr. unfold sigmoid_normalization, _get_format_fx, _format_array.
    destruct (shape image) as [|a [|a' [|a'' s]]] eqn:Hs; cbn [length] in Hr; try lia;
      cbn [length Nat.eqb bind]; unfold einsum_bcwh_bwhc; rewrite Hs;
      split; reflexivity.
  - intros b w h ch Hwf Hs Hb.
    unfold sigmoid_normalization, _get_format_fx. rewrite Hs. cbn [length Nat.eqb].
    unfold _format_array. cbn [bind]. rewrite Hs.
    destruct b as [|b]; [lia|]. cbn [chunks mapM]. split.
    + intros ->. cbn [firstn]. reflexivity.
    + intros Hk Hdt.
      assert (Hf : length (firstn (w * h * ch) (data image)) = w * h * ch).
      { rewrite length_firstn, Hwf, Hs. cbn [size fold_right]. nia. }
      destruct (firstn (w * h * ch) (data image)) as [|x px] eqn:E;
        [cbn [length] in Hf; lia|].
      unfold sigmoid_slice. cbn [np_nanmin np_nanmax bind]. rewrite Hdt. reflexivity.
Qed.

End SigmoidTotal.

(* ===================================================================== *)
(** ** invert_mean_std_normalization pixel by pixel *)
(* ===================================================================== *)

Section InvertPixels.
Import Np Elem Normalization.
Context {F : Type} {FO : FloatOps F}.

Lemma broadcast_shapes_mismatch (b w h c n : nat) :
  c <> n -> c <> 1 -> n <> 1 -> broadcast_shapes [b; w; h; c] [1; 1; 1; n] = None.
Proof.
  intros H1 H2 H3. unfold broadcast_shapes. cbn [rev app broadcast_rev].
  apply Nat.eqb_neq in H1, H2, H3.
  destruct (h =? 1) eqn:Eh; destruct (w =? 1) eqn:Ew; destruct (b =? 1) eqn:Eb;
    cbn [Nat.eqb]; rewrite ?Nat.eqb_refl, ?H1, ?H2, ?H3; reflexivity.
Qed.

(** On a batched channel-last array with one mean and one std per channel,
    [invert_mean_std_normalization] returns a float64 array of the same
    shape whose every pixel is [x * std[c] + mean[c]], the product and the
    sum in float64, whatever the dtype of the input. *)
Theorem invert_mean_std_normalization_pixels (image : ndarray (scalar F))
    (mean std : list F) (b w h c : nat) :
  wf image -> shape image = [b; w; h; c] ->
  length mean = c -> length std = c ->
  exists out,
    invert_mean_std_normalization image mean std last = Ok out /\
    shape out = [b; w; h; c] /\ dtype out = float64 /\
    forall ib iw ih ic, ib < b -> iw < w -> ih < h -> ic < c ->
      at_ zero out [ib; iw; ih; ic] =
        SFloat (fadd (fmul (to_float (at_ zero image [ib; iw; ih; ic]))
                        (nth ic std (of_Z 0)))
                  (nth ic mean (of_Z 0))).
Proof.
  intros Hwf Hs Hm Hsd.
  unfold invert_mean_std_normalization, _get_format_fx. rewrite Hs.
  cbn [length Nat.eqb]. unfold _format_array. cbn [bind].
  unfold broadcast2. cbn [shape]. rewrite Hs, Hsd, Hm.
  rewrite broadcast_shapes_channels. cbn [bind].
  rewrite shape_tabulate, broadcast_shapes_channels. cbn [bind].
  eexists. split; [reflexivity|]. split; [reflexivity|]. split; [reflexivity|].
  intros ib iw ih ic Hb Hw Hh Hc.
  pose proof (in_bounds4 Hb Hw Hh Hc) as Hin.
  rewrite at_tabulate by exact Hin.
  rewrite (@project_same _ _ Hin). rewrite at_tabulate by exact Hin.
  rewrite (@project_same _ _ Hin).
  rewrite (@project_channel _ ib iw ih _ Hc).
  f_equal. f_equal; [f_equal|]; unfold at_; cbn [shape data offset size fold_right];
    f_equal; lia.
Qed.

(** A std, or a mean, with neither one entry nor one entry per channel
    cannot be broadcast against an image with more than one channel. *)
Theorem invert_mean_std_normalization_broadcast (image : ndarray (scalar F))
    (mean std : list F) (b w h c : nat) :
  shape image = [b; w; h; c] -> c <> 1 ->
  (length std <> c -> length std <> 1 ->
   invert_mean_std_normalization image mean std last = Raise BroadcastError) /\
  (length std = c -> length mean <> c -> length mean <> 1 ->
   invert_mean_std_normalization image mean std last = Raise BroadcastError).
Proof.
  intros Hs Hc. split.
  - intros H1 H2.
    unfold invert_mean_std_normalization, _get_format_fx. rewrite Hs.
    cbn [length Nat.eqb]. unfold _format_array. cbn [bind].
    unfold broadcast2. cbn [shape]. rewrite Hs.
    rewrite broadcast_shapes_mismatch by congruence. reflexivity.
  - intros H0 H1 H2.
    unfold invert_mean_std_normalization, _get_format_fx. rewrite Hs.
    cbn [length Nat.eqb]. unfold _format_array. cbn [bind].
    unfold broadcast2. cbn [shape]. rewrite Hs, H0.
    rewrite broadcast_shapes_channels. cbn [bind]. rewrite shape_tabulate.
    rewrite broadcast_shapes_mismatch by congruence. reflexivity.
Qed.

End InvertPixels.

(* ===================================================================== *)
(** ** scaling_normalization keeps the order of the pixels *)
(* ===================================================================== *)

Section ScalingOrder.
Import Np Elem Normalization.
Open Scope Qc_scope.

Variables rnd rnd32 rnd16 : Qc -> Qc.
Hypothesis rnd_mono : forall a b : Qc, a <= b -> rnd a <= rnd b.
Hypothesis rnd_0 : rnd 0 = 0.
Hypothesis rnd_1 : rnd 1 = 1.
Hypothesis rnd_255 : rnd (Q2Qc (inject_Z 255)) = Q2Qc (inject_Z 255).

Let FO : FloatOps Qc := Rounded.ops rnd rnd32 rnd16.
Existing Instance FO.

Lemma clip_nonpositive_cases (v : Qc) :
  (v <= 0 /\ clip_nonpositive v = 0) \/ (0 < v /\ clip_nonpositive v = v).
Proof.
  unfold clip_nonpositive. cbn [fleb of_Z FO Rounded.ops].
  change (Q2Qc (inject_Z 0)) with 0. rewrite rnd_0.
  match goal with |- context [Qle_bool ?x ?y] => destruct (Qle_bool x y) eqn:E end.
  - left. split; [apply (Qle_bool_Qcle v 0); exact E | reflexivity].
  - right. split; [|reflexivity]. apply Qcnot_le_lt. intro H.
    apply (Qle_bool_Qcle v 0) in H. congruence.
Qed.

Lemma clip_nonpositive_mono (a b : Qc) :
  a <= b -> clip_nonpositive a <= clip_nonpositive b.
Proof.
  intro H.
  destruct (clip_nonpositive_cases a) as [[Ha ->] | [Ha ->]];
    destruct (clip_nonpositive_cases b) as [[Hb ->] | [Hb ->]].
  - apply Qcle_refl.
  - apply Qclt_le_weak. exact Hb.
  - exfalso. apply (Qclt_not_le _ _ Ha). apply (Qcle_trans _ b); assumption.
  - exact H.
Qed.

Lemma fmaximum_cases (a b : Qc) :
  (b <= a /\ fmaximum a b = a) \/ (a <= b /\ fmaximum a b = b).
Proof.
  unfold fmaximum. cbn [fisnan fltb FO Rounded.ops]. unfold Rounded.Qc_ltb.
  match goal with |- context [Qle_bool ?x ?y] => destruct (Qle_bool x y) eqn:E end;
    cbn [negb].
  - left. split; [apply (Qle_bool_Qcle b a); exact E | reflexivity].
  - right. split; [|reflexivity]. apply Qclt_le_weak, Qcnot_le_lt. intro H.
    apply (Qle_bool_Qcle b a) in H. congruence.
Qed.

Lemma fold_fmaximum_ge (l : list Qc) (a : Qc) :
  a <= fold_left fmaximum l a /\ Forall (fun x => x <= fold_left fmaximum l a) l.
Proof.
  revert a. induction l as [|x l IH]; intro a; cbn [fold_left].
  - split; [apply Qcle_refl | constructor].
  - destruct (IH (fmaximum a x)) as [H1 H2].
    destruct (fmaximum_cases a x) as [[Hle E] | [Hle E]]; rewrite E in *.
    + split; [exact H1|]. constructor; [|exact H2]. apply (Qcle_trans _ a); assumption.
    + split; [apply (Qcle_trans _ x); assumption|]. constructor; assumption.
Qed.

Lemma fold_fmaximum_in (l : list Qc) (a : Qc) :
  In (fold_left fmaximum l a) (a :: l).
Proof.
  revert a. induction l as [|x l IH]; intro a; cbn [fold_left]; [left; reflexivity|].
  destruct (IH (fmaximum a x)) as [H | H].
  - destruct (fmaximum_cases a x) as [[_ E] | [_ E]].
    + left. rewrite <- H. symmetry. exact E.
    + right. left. rewrite <- H. symmetry. exact E.
  - right. right. exact H.
Qed.

Lemma Qc_trunc_bounds (q : Qc) :
  0 <= q -> q <= Q2Qc (inject_Z 255) -> (0 <= Rounded.Qc_trunc q <= 255)%Z.
Proof.
  intros H0 H1. unfold Rounded.Qc_trunc.
  assert (E : Qle_bool 0%Q q = true) by (apply (Qle_bool_Qcle 0 q); exact H0).
  rewrite E. split.
  - change 0%Z with (Qfloor 0). apply Qfloor_resp_le. exact H0.
  - change 255%Z with (Qfloor (Q2Qc (inject_Z 255))). apply Qfloor_resp_le. exact H1.
Qed.

Lemma Qc_trunc_mono (a b : Qc) :
  0 <= a -> a <= b -> (Rounded.Qc_trunc a <= Rounded.Qc_trunc b)%Z.
Proof.
  intros H0 H. unfold Rounded.Qc_trunc.
  assert (Ea : Qle_bool 0%Q a = true) by (apply (Qle_bool_Qcle 0 a); exact H0).
  assert (Eb : Qle_bool 0%Q b = true)
    by (apply (Qle_bool_Qcle 0 b); apply (Qcle_trans _ a); assumption).
  rewrite Ea, Eb. apply Qfloor_resp_le. exact H.
Qed.

(** One output value: the float [c] divided by the maximum [m], times 255,
    truncated. *)
Lemma scaled_value (m c : Qc) :
  to_Z (fmul (fdiv c m) (of_Z 255)) =
    Rounded.Qc_trunc (rnd (rnd (c / m) * Q2Qc (inject_Z 255))).
Proof. cbn [to_Z fmul fdiv of_Z FO Rounded.ops]. rewrite rnd_255. reflexivity. Qed.

Lemma Qcdiv_le_compat (m a b : Qc) : 0 < m -> a <= b -> a / m <= b / m.
Proof.
  intros Hm H.
  assert (Hne : m <> 0) by (apply not_eq_sym, Qclt_not_eq; exact Hm).
  apply (Qcmult_lt_0_le_reg_r _ _ m Hm).
  replace (a / m * m) with a by (field; exact Hne).
  replace (b / m * m) with b by (field; exact Hne).
  exact H.
Qed.

Lemma scaled_arg_mono (m a b : Qc) :
  0 < m -> a <= b ->
  rnd (rnd (a / m) * Q2Qc (inject_Z 255)) <= rnd (rnd (b / m) * Q2Qc (inject_Z 255)).
Proof.
  intros Hm H. apply rnd_mono. apply Qcmult_le_compat_r; [|discriminate].
  apply rnd_mono. apply Qcdiv_le_compat; assumption.
Qed.

Lemma scaled_arg_zero (m : Qc) : rnd (rnd (0 / m) * Q2Qc (inject_Z 255)) = 0.
Proof.
  assert (E : 0 / m = 0) by (unfold Qcdiv; apply Qcmult_0_l).
  rewrite E, rnd_0, Qcmult_0_l. exact rnd_0.
Qed.

Lemma scaled_arg_max (m : Qc) :
  0 < m -> rnd (rnd (m / m) * Q2Qc (inject_Z 255)) = Q2Qc (inject_Z 255).
Proof.
  intro Hm.
  assert (E : m / m = 1).
  { unfold Qcdiv. apply Qcmult_inv_r. apply not_eq_sym, Qclt_not_eq. exact Hm. }
  rewrite E, rnd_1, Qcmult_1_l. exact rnd_255.
Qed.

Lemma scaled_pixel (m c : Qc) :
  0 < m -> 0 <= c -> c <= m ->
  (0 <= to_Z (fmul (fdiv c m) (of_Z 255)) <= 255)%Z.
Proof.
  intros Hm H0 H1. rewrite scaled_value. apply Qc_trunc_bounds.
  - pose proof (@scaled_arg_mono m 0 c Hm H0) as K.
    rewrite scaled_arg_zero in K. exact K.
  - pose proof (@scaled_arg_mono m c m Hm H1) as K.
    rewrite (scaled_arg_max Hm) in K. exact K.
Qed.

Lemma scaled_pixel_mono (m a b : Qc) :
  0 < m -> 0 <= a -> a <= b ->
  (to_Z (fmul (fdiv a m) (of_Z 255)) <= to_Z (fmul (fdiv b m) (of_Z 255)))%Z.
Proof.
  intros Hm H0 H. rewrite !scaled_value. apply Qc_trunc_mono.
  - pose proof (@scaled_arg_mono m 0 a Hm H0) as K.
    rewrite scaled_arg_zero in K. exact K.
  - apply scaled_arg_mono; assumption.
Qed.

Lemma np_max_spec (l : list Qc) :
  l <> [] -> exists m, np_max l = Ok m /\ In m l /\ Forall (fun x => x <= m) l.
Proof.
  destruct l as [|a l]; [congruence|]. intros _. cbn [np_max].
  eexists. split; [reflexivity|]. split; [apply fold_fmaximum_in|].
  destruct (fold_fmaximum_ge l a) as [H1 H2]. constructor; assumption.
Qed.

Lemma clip_nonpositive_nonneg (v : Qc) : 0 <= clip_nonpositive v.
Proof.
  destruct (clip_nonpositive_cases v) as [[_ ->] | [H ->]];
    [apply Qcle_refl | apply Qclt_le_weak; exact H].
Qed.

(** With correctly rounded operations (a monotone rounding that keeps 0, 1
    and 255), on an image with a positive value [scaling_normalization]
    keeps the order of the values: a value that is not above another one
    gets an output that is not above the other's; every value that is not
    positive becomes 0, and the largest value becomes 255.  The positions
    are those of the flat data, which the output shares with the input. *)
Theorem scaling_normalization_order (image : ndarray (scalar Qc)) :
  Exists (fun x => 0 < to_float x) (data image) ->
  exists px : list Z,
    scaling_normalization image = Ok (mk_ndarray (shape image) uint8 (map (@SInt Qc) px)) /\
    length px = length (data image) /\
    forall i j : nat, (i < length (data image))%nat -> (j < length (data image))%nat ->
      let v k := to_float (nth k (data image) zero) in
      (0 <= nth i px 0 <= 255)%Z /\
      (v i <= 0 -> nth i px 0%Z = 0%Z) /\
      (v i <= v j -> (nth i px 0 <= nth j px 0)%Z) /\
      ((forall k : nat, (k < length (data image))%nat -> v k <= v i) ->
       nth i px 0%Z = 255%Z).
Proof.
  intro Hpos. unfold scaling_normalization.
  set (clip := fun x : scalar Qc => clip_nonpositive (to_float x)).
  assert (Hne : map clip_nonpositive (map (@to_float Qc FO) (data image)) <> []).
  { destruct (data image); [inversion Hpos | discriminate]. }
  destruct (np_max_spec Hne) as (m & Em & Hin & Hall).
  rewrite Em. cbn [bind]. rewrite map_map in Hin, Hall. fold clip in Hin, Hall.
  assert (Hm : 0 < m).
  { apply Exists_exists in Hpos as (x & Hx & Hp).
    rewrite Forall_forall in Hall.
    apply (Qclt_le_trans _ (clip x)); [|apply Hall, in_map; exact Hx].
    unfold clip. destruct (clip_nonpositive_cases (to_float x)) as [[Hle _] | [_ ->]];
      [exfalso; exact (Qclt_not_le _ _ Hp Hle) | exact Hp]. }
  set (g := fun x : scalar Qc => to_Z (fmul (fdiv (clip x) m) (of_Z 255))).
  assert (Hg : forall x, In x (data image) -> (0 <= g x <= 255)%Z).
  { intros x Hx. apply scaled_pixel; [exact Hm | apply clip_nonpositive_nonneg|].
    rewrite Forall_forall in Hall. apply Hall, in_map. exact Hx. }
  exists (map g (data image)). split; [|split].
  - f_equal. f_equal. rewrite !map_map. apply map_ext_in. intros x Hx.
    cbn [astype_uint8]. cbv zeta. fold (clip x). fold (g x).
    pose proof (Hg x Hx) as Hr.
    assert (E : ((- 2 ^ 31 <=? g x) && (g x <? 2 ^ 31))%Z = true)
      by (apply andb_true_iff; split; [apply Z.leb_le | apply Z.ltb_lt]; lia).
    rewrite E. f_equal. apply Z.mod_small. lia.
  - apply length_map.
  - intros i j Hi Hj.
    set (v := fun k : nat => to_float (nth k (data image) zero)).
    change (to_float (nth i (data image) zero)) with (v i).
    change (to_float (nth j (data image) zero)) with (v j).
    assert (Hn : forall k : nat, (k < length (data image))%nat ->
              nth k (map g (data image)) 0%Z = g (nth k (data image) zero)).
    { intros k Hk. rewrite (nth_indep _ 0%Z (g zero)) by (rewrite length_map; exact Hk).
      apply map_nth. }
    rewrite (Hn i Hi), (Hn j Hj).
    pose proof (nth_In (data image) zero Hi) as Ii.
    pose proof (nth_In (data image) zero Hj) as Ij.
    split; [apply Hg; exact Ii|]. split; [|split].
    + intro Hle. unfold g, clip. fold (v i).
      destruct (clip_nonpositive_cases (v i)) as [[_ ->] | [Hp _]];
        [|exfalso; exact (Qclt_not_le _ _ Hp Hle)].
      rewrite scaled_value, scaled_arg_zero. reflexivity.
    + intro Hle. unfold g. apply scaled_pixel_mono;
        [exact Hm | apply clip_nonpositive_nonneg | apply clip_nonpositive_mono; exact Hle].
    + intro Hmax. unfold g.
      assert (E : clip (nth i (data image) zero) = m).
      { apply Qcle_antisym.
        - rewrite Forall_forall in Hall. apply Hall, in_map. exact Ii.
        - apply in_map_iff in Hin as (x & <- & Hx).
          destruct (In_nth _ _ zero Hx) as (k & Hk & <-).
          apply clip_nonpositive_mono. apply Hmax. exact Hk. }
      rewrite E, scaled_value, (scaled_arg_max Hm). reflexivity.
Qed.

End ScalingOrder.

(* ===================================================================== *)
(** ** sigmoid_normalization treats every batch element on its own *)
(* ===================================================================== *)

Section SigmoidStack.
Import Np Elem Normalization.
Context {F : Type} {FO : FloatOps F}.
Variable np_exp : F -> F.

Lemma chunks_app {B} (n1 n2 k : nat) (l1 l2 : list B) :
  length l1 = n1 * k ->
  chunks (n1 + n2) k (l1 ++ l2) = chunks n1 k l1 ++ chunks n2 k l2.
Proof.
  revert l1. induction n1 as [|n1 IH]; intros l1 Hl.
  - destruct l1; [reflexivity | discriminate Hl].
  - cbn [Nat.add chunks app].
    assert (Hk : k <= length l1) by (simpl in Hl; lia).
    rewrite firstn_app, skipn_app.
    replace (k - length l1) with 0 by lia. cbn [firstn skipn].
    rewrite app_nil_r. f_equal. apply IH.
    rewrite length_skipn. simpl in Hl. lia.
Qed.

Lemma mapM_app {B C} (f : B -> result C) (l1 l2 : list B) (y1 y2 : list C) :
  mapM f l1 = Ok y1 -> mapM f l2 = Ok y2 -> mapM f (l1 ++ l2) = Ok (y1 ++ y2).
Proof.
  revert y1. induction l1 as [|x l1 IH]; intros y1 H1 H2.
  - inversion H1. exact H2.
  - cbn [mapM app] in H1 |- *. destruct (f x) as [y|]; cbn [bind] in H1 |- *;
      [|discriminate].
    destruct (mapM f l1) as [ys|]; cbn [bind] in H1; [|discriminate].
    inversion H1; subst y1. rewrite (IH ys eq_refl H2). reflexivity.
Qed.

(** Stacking two channel-last batches along the batch axis and normalizing
    gives the two normalized batches, stacked: the minimum and the maximum
    are those of each batch element, never of the whole batch. *)
Theorem sigmoid_normalization_stack (x y ox oy : ndarray (scalar F)) (c th : F)
    (b1 b2 w h ch : nat) :
  wf x -> shape x = [b1; w; h; ch] -> shape y = [b2; w; h; ch] ->
  dtype y = dtype x ->
  sigmoid_normalization np_exp x c th last = Ok ox ->
  sigmoid_normalization np_exp y c th last = Ok oy ->
  sigmoid_normalization np_exp
    (mk_ndarray [b1 + b2; w; h; ch] (dtype x) (data x ++ data y)) c th last
  = Ok (mk_ndarray [b1 + b2; w; h; ch] uint8 (data ox ++ data oy)).
Proof.
  intros Hwf Hsx Hsy Hd.
  unfold sigmoid_normalization, _get_format_fx. rewrite Hsx, Hsy.
  cbn [length Nat.eqb shape]. unfold _format_array. cbn [bind shape dtype data].
  rewrite Hsx, Hsy, Hd.
  destruct (mapM _ (chunks b1 _ _)) as [s1|] eqn:E1; cbn [bind]; [|discriminate].
  destruct (mapM _ (chunks b2 _ _)) as [s2|] eqn:E2; cbn [bind]; [|discriminate].
  intros H1 H2. inversion H1; subst ox. inversion H2; subst oy. clear H1 H2.
  rewrite chunks_app by (rewrite Hwf, Hsx; cbn [size fold_right]; lia).
  rewrite (mapM_app _ _ _ E1 E2). cbn [bind].
  unfold map_data. cbn [shape data]. rewrite concat_app, map_app. reflexivity.
Qed.

End SigmoidStack.

(* ===================================================================== *)
(** ** TIFF files: listed, and decoded by tifffile *)
(* ===================================================================== *)

Section Tiff.
Import Np Elem Normalization Image Str Glob App.
Open Scope string_scope.
Context {F : Type} {FO : FloatOps F}.
Variable np_exp : F -> F.
Variable bytes : Type.
Variable open_read : string -> result bytes.
Variable tifffile_imread : bytes -> result (ndarray (scalar F)).
Variable registered_extensions : list (string * string).
Variable OPEN : list string.

(** Whatever PIL registers, a path that ends in [.tif] or [.tiff] passes
    the filter of [get_image_files], and [read_image] decodes it with
    [tifffile]: its result does not depend on [imageio.imread]. *)
Theorem tiff_listed_and_decoded (stem : string) (f : string) :
  f = stem ++ ".tif" \/ f = stem ++ ".tiff" ->
  is_supported (get_supported_extensions registered_extensions OPEN) f = true /\
  forall imageio_imread imageio_imread' normalize render_method,
    read_image np_exp open_read imageio_imread tifffile_imread f normalize render_method =
    read_image np_exp open_read imageio_imread' tifffile_imread f normalize render_method.
Proof.
  intro Hf.
  assert (L : last_dot_part f = "tif" \/ last_dot_part f = "tiff").
  { destruct Hf as [-> | ->]; [left | right].
    - exact (proj2 (@last_dot_part_of "tif" eq_refl) stem).
    - exact (proj2 (@last_dot_part_of "tiff" eq_refl) stem). }
  split.
  - unfold is_supported, get_supported_extensions. apply existsb_exists.
    exists ("." ++ last_dot_part f). split; [|apply String.eqb_refl].
    apply in_or_app. right. destruct L as [-> | ->]; [left | right; left]; reflexivity.
  - intros r r' normalize render_method. unfold read_image.
    destruct L as [-> | ->]; reflexivity.
Qed.

End Tiff.

Section PixelWitnesses.
Import Np Elem Normalization Image Str Glob App Examples Binary64 Pipeline.
Open Scope string_scope.

Lemma sigmoid_normalization_returns_witness :
  exists out,
    sigmoid_normalization exp_first_order (arange [2; 3; 2; 2]) (of_Z 10) (of_ratio 1 8)
      first = Ok out /\
    shape out = [2; 3; 2; 2]%nat /\ dtype out = uint8 /\ wf out /\
    Forall (fun v => exists n, v = SInt n /\ (0 <= n <= 255)%Z) (data out).
Proof.
  apply (@sigmoid_normalization_returns spec_float Binary64.ops exp_first_order
           (arange [2; 3; 2; 2]) (of_Z 10) (of_ratio 1 8) first 2 3 2 2
           (wf_arange _) eq_refl).
  - discriminate.
  - repeat constructor.
Defined.

Lemma sigmoid_normalization_raises_witness :
  sigmoid_normalization exp_first_order (arange [4; 4]) (of_Z 10) (of_ratio 1 8) last
    = Raise AxisError /\
  sigmoid_normalization exp_first_order (arange [4; 4]) (of_Z 10) (of_ratio 1 8) first
    = Raise EinsumError /\
  sigmoid_normalization exp_first_order (arange [2; 0; 4; 3]) (of_Z 10) (of_ratio 1 8) last
    = Raise EmptyReduction /\
  sigmoid_normalization exp_first_order
    (mk_ndarray [1; 1; 1; 2]%nat bool_ [SInt 0; SInt 1]) (of_Z 10) (of_ratio 1 8) last
    = Raise TypeError.
Proof.
  pose proof (fun image =>
                @sigmoid_normalization_raises spec_float Binary64.ops exp_first_order
                  image (of_Z 10) (of_ratio 1 8)) as T.
  split; [|split; [|split]].
  - exact (proj1 (proj1 (T (arange [4; 4])) (le_n 3))).
  - exact (proj2 (proj1 (T (arange [4; 4])) (le_n 3))).
  - exact (proj1 (proj2 (T (arange [2; 0; 4; 3])) 2 0 4 3 (wf_arange _) eq_refl
                    (le_S _ _ (le_n 1))) eq_refl)%nat.
  - exact (proj2 (proj2 (T (mk_ndarray [1; 1; 1; 2]%nat bool_ [SInt 0; SInt 1]))
                    1 1 1 2 eq_refl eq_refl (le_n 1))
             (le_S _ _ (le_n 1)) eq_refl)%nat.
Defined.

Lemma invert_mean_std_normalization_pixels_witness :
  exists out,
    invert_mean_std_normalization (arange [1; 2; 2; 3])
      [of_ratio 485 1000; of_ratio 456 1000; of_ratio 406 1000]
      [of_ratio 229 1000; of_ratio 224 1000; of_ratio 225 1000] last = Ok out /\
    shape out = [1; 2; 2; 3]%nat /\ dtype out = float64 /\
    at_ zero out [0; 1; 0; 1]%nat =
      SFloat (fadd (fmul (of_Z 7) (of_ratio 224 1000)) (of_ratio 456 1000)).
Proof.
  destruct (@invert_mean_std_normalization_pixels spec_float Binary64.ops
              (arange [1; 2; 2; 3])
              [of_ratio 485 1000; of_ratio 456 1000; of_ratio 406 1000]
              [of_ratio 229 1000; of_ratio 224 1000; of_ratio 225 1000]
              1 2 2 3 (wf_arange _) eq_refl eq_refl eq_refl)
    as (out & H1 & H2 & H3 & H).
  exists out. split; [exact H1|]. split; [exact H2|]. split; [exact H3|].
  exact (H 0 1 0 1 (le_n 1) (le_n 2) (le_S _ _ (le_n 1)) (le_S _ _ (le_n 2)))%nat.
Defined.

Lemma invert_mean_std_normalization_broadcast_witness :
  invert_mean_std_normalization (arange [1; 2; 2; 3])
    [of_Z 0; of_Z 0; of_Z 0] [of_Z 1; of_Z 1] last = Raise BroadcastError /\
  invert_mean_std_normalization (arange [1; 2; 2; 3])
    [of_Z 0; of_Z 0] [of_Z 1; of_Z 1; of_Z 1] last = Raise BroadcastError.
Proof.
  split.
  - refine (proj1 (@invert_mean_std_normalization_broadcast spec_float Binary64.ops
                     (arange [1; 2; 2; 3]) [of_Z 0; of_Z 0; of_Z 0] [of_Z 1; of_Z 1]
                     1 2 2 3 eq_refl _) _ _); discriminate.
  - refine (proj2 (@invert_mean_std_normalization_broadcast spec_float Binary64.ops
                     (arange [1; 2; 2; 3]) [of_Z 0; of_Z 0] [of_Z 1; of_Z 1; of_Z 1]
                     1 2 2 3 eq_refl _) eq_refl _ _); discriminate.
Defined.

Lemma scaling_normalization_order_witness :
  exists px : list Z,
    scaling_normalization (FO := exact)
      (mk_ndarray [1; 1; 3]%nat int64 [SInt (-5); SInt 100; SInt 200])
    = Ok (mk_ndarray [1; 1; 3]%nat uint8 (map (@SInt Qc) px)) /\
    length px = 3%nat /\
    nth 0 px 0%Z = 0%Z /\ (nth 1 px 0 <= nth 2 px 0)%Z.
Proof.
  assert (Hpos : Exists (fun x => Qclt (Q2Qc 0) (to_float (FO := exact) x))
                   [SInt (-5); SInt 100; SInt 200])
    by (right; left; reflexivity).
  destruct (@scaling_normalization_order (fun q => q) (fun q => q) (fun q => q)
              (fun a b H => H) eq_refl eq_refl eq_refl
              (mk_ndarray [1; 1; 3]%nat int64 [SInt (-5); SInt 100; SInt 200]) Hpos)
    as (px & H1 & H2 & H).
  exists px. split; [exact H1|]. split; [exact H2|]. split.
  - refine (proj1 (proj2 (H 0 0 (le_S _ _ (le_S _ _ (le_n 1))) (le_S _ _ (le_S _ _ (le_n 1)))))
              _)%nat.
    discriminate.
  - refine (proj1 (proj2 (proj2 (H 1 2 (le_S _ _ (le_n 2)) (le_n 3)))) _)%nat.
    discriminate.
Defined.

Lemma sigmoid_normalization_stack_witness :
  exists ox oy,
    sigmoid_normalization exp_first_order (arange [1; 2; 2; 3]) (of_Z 10) (of_ratio 1 8)
      last = Ok ox /\
    sigmoid_normalization exp_first_order (float_array [1; 2; 2; 3]%nat
      [9; 8; 7; 6; 5; 4; 3; 2; 1; 0; 50; 100]%Z) (of_Z 10) (of_ratio 1 8) last = Ok oy /\
    sigmoid_normalization exp_first_order
      (mk_ndarray [2; 2; 2; 3]%nat float64
         (data (float_array [1; 2; 2; 3]%nat [0; 1; 2; 3; 4; 5; 6; 7; 8; 9; 10; 11]%Z)
          ++ data (float_array [1; 2; 2; 3]%nat [9; 8; 7; 6; 5; 4; 3; 2; 1; 0; 50; 100]%Z))%list)
      (of_Z 10) (of_ratio 1 8) last
    = Ok (mk_ndarray [2; 2; 2; 3]%nat uint8 (data ox ++ data oy)%list).
Proof.
  eexists. eexists. split; [vm_compute; reflexivity|]. split; [vm_compute; reflexivity|].
  apply (@sigmoid_normalization_stack spec_float Binary64.ops exp_first_order
           (float_array [1; 2; 2; 3]%nat [0; 1; 2; 3; 4; 5; 6; 7; 8; 9; 10; 11]%Z)
           (float_array [1; 2; 2; 3]%nat [9; 8; 7; 6; 5; 4; 3; 2; 1; 0; 50; 100]%Z)
           _ _ (of_Z 10) (of_ratio 1 8) 1 1 2 2 3 eq_refl eq_refl eq_refl eq_refl);
    vm_compute; reflexivity.
Defined.

Lemma tiff_listed_and_decoded_witness :
  is_supported (get_supported_extensions [(".png", "PNG")] ["PNG"]) "/d/scene.v2.tiff"
    = true.
Proof.
  exact (proj1 (@tiff_listed_and_decoded spec_float Binary64.ops exp_first_order unit
                  (fun _ => Ok tt) (fun _ => Raise OSError) [(".png", "PNG")] ["PNG"]
                  "/d/scene.v2" "/d/scene.v2.tiff" (or_intror eq_refl))).
Defined.

End PixelWitnesses.
